(** * A shallow embedding of the slotted CSMA/CA simulation engine

    The engine ([runSimulation] of the simulator service) is a one-shot
    loop over integer ticks.  Every tick runs three phases over the node
    array: the physical channel check (with channel-utilisation
    statistics and collision accounting), the virtual carrier sense
    (NAV) update, and the per-node state machine update which also
    appends one cell to the node's timeline row.

    Modelling choices.
    - JavaScript numbers that hold counts or ticks are [Z]; the only
      fractional quantities are [packetProb] and the values returned by
      [Math.random()], which are [Q].
    - [Math.random()] is the ambient generator of the host: it is neither
      an argument of [runSimulation] nor seedable.  It is modelled by an
      oracle [rand : nat -> Q] (the value returned by the k-th call) and
      a call counter threaded through the run.
    - The objects mutated through shared references ([stats], [logs],
      [timeline]) form the record [World], passed explicitly; the node
      array is a [list Node], mutated in place by each [forEach].
    - [timeline] is a JavaScript object keyed by node id: a [gmap]. *)

From Stdlib Require Import ZArith QArith Qround DecimalString.
From stdpp Require Import gmap list strings sorting.

Close Scope Q_scope.
Open Scope Z_scope.

(** ** Types (the [types] module) *)

Inductive NodeType :=
  | IDLE | SENSING | BACKOFF | BACKOFF_PAUSED
  | TX_PREAMBLE | TX_FC | TX_DATA | WAIT_RIFS | RX_ACK
  | COLLISION | FAILED.

Global Instance NodeType_eq_dec : EqDecision NodeType.
Proof. solve_decision. Defined.

Inductive PacketGenMode := RANDOM | INTERVAL.

Record SimConfig := {
  slotDurationUs : Z;
  dataSlots : Z;
  ackSlots : Z;
  collisionPenalty : Z;
  pe : Z;
  minBe : Z;
  maxBe : Z;
  maxNb : Z;
  nodeCount : Z;
  packetGenMode : PacketGenMode;
  packetProb : Q;
  packetInterval : Z;
  simDuration : Z
}.

Inductive LogType := INFO | LOG_COLLISION | SUCCESS | DROP | VCS.

Global Instance LogType_eq_dec : EqDecision LogType.
Proof. solve_decision. Defined.

Record LogEntry := {
  tick : Z;
  nodeId : Z;
  type : LogType;
  message : string
}.

Record SimStats := {
  totalPacketsGenerated : Z;
  successCount : Z;
  success1st : Z;
  success2nd : Z;
  success3rd : Z;
  failureCount : Z;
  collisionCount : Z;
  totalLatency : Z;
  maxQueueDepth : Z;
  channelIdleTicks : Z;
  channelTxTicks : Z;
  channelCollisionTicks : Z;
  channelBackoffTicks : Z
}.

(** A timeline cell as pushed by the engine: [info] is absent unless a
    back-off branch sets it, [isCollision] is always written. *)
Record TimelineCell := {
  cellState : NodeType;
  info : option Z;
  isCollision : bool
}.

Record SimulationResult := {
  res_timeline : gmap Z (list TimelineCell);
  res_logs : list LogEntry;
  res_stats : SimStats;
  duration : Z
}.

(** ** The [Node] class *)

(** The [config] field of the class is a reference to the run's
    configuration; the model passes the configuration as an argument
    instead.  [isCurrentTxDoomed] is initialised with the falsy [0] and
    only ever tested through [!], so it is a [bool] starting at [false]. *)
Record Node := {
  id : Z;
  state : NodeType;
  packetQueue : list Z;
  vcs : Z;
  nb : Z;
  be : Z;
  backoffCounter : Z;
  txProgress : Z;
  isCurrentTxDoomed : bool
}.

Definition setState (s : NodeType) (n : Node) : Node :=
  {| id := id n; state := s; packetQueue := packetQueue n; vcs := vcs n;
     nb := nb n; be := be n; backoffCounter := backoffCounter n;
     txProgress := txProgress n; isCurrentTxDoomed := isCurrentTxDoomed n |}.

Definition setPacketQueue (q : list Z) (n : Node) : Node :=
  {| id := id n; state := state n; packetQueue := q; vcs := vcs n;
     nb := nb n; be := be n; backoffCounter := backoffCounter n;
     txProgress := txProgress n; isCurrentTxDoomed := isCurrentTxDoomed n |}.

Definition setVcs (v : Z) (n : Node) : Node :=
  {| id := id n; state := state n; packetQueue := packetQueue n; vcs := v;
     nb := nb n; be := be n; backoffCounter := backoffCounter n;
     txProgress := txProgress n; isCurrentTxDoomed := isCurrentTxDoomed n |}.

Definition setNb (v : Z) (n : Node) : Node :=
  {| id := id n; state := state n; packetQueue := packetQueue n; vcs := vcs n;
     nb := v; be := be n; backoffCounter := backoffCounter n;
     txProgress := txProgress n; isCurrentTxDoomed := isCurrentTxDoomed n |}.

Definition setBe (v : Z) (n : Node) : Node :=
  {| id := id n; state := state n; packetQueue := packetQueue n; vcs := vcs n;
     nb := nb n; be := v; backoffCounter := backoffCounter n;
     txProgress := txProgress n; isCurrentTxDoomed := isCurrentTxDoomed n |}.

Definition setBackoffCounter (v : Z) (n : Node) : Node :=
  {| id := id n; state := state n; packetQueue := packetQueue n; vcs := vcs n;
     nb := nb n; be := be n; backoffCounter := v;
     txProgress := txProgress n; isCurrentTxDoomed := isCurrentTxDoomed n |}.

Definition setTxProgress (v : Z) (n : Node) : Node :=
  {| id := id n; state := state n; packetQueue := packetQueue n; vcs := vcs n;
     nb := nb n; be := be n; backoffCounter := backoffCounter n;
     txProgress := v; isCurrentTxDoomed := isCurrentTxDoomed n |}.

Definition setDoomed (b : bool) (n : Node) : Node :=
  {| id := id n; state := state n; packetQueue := packetQueue n; vcs := vcs n;
     nb := nb n; be := be n; backoffCounter := backoffCounter n;
     txProgress := txProgress n; isCurrentTxDoomed := b |}.

(** [resetProtocolState]: the label is deliberately left alone. *)
Definition resetProtocolState (cfg : SimConfig) (n : Node) : Node :=
  setBackoffCounter 0 (setVcs 0 (setBe (minBe cfg) (setNb 0 n))).

(** The constructor: field initialisers, then [resetProtocolState]. *)
Definition newNode (cfg : SimConfig) (i : Z) : Node :=
  resetProtocolState cfg
    {| id := i; state := IDLE; packetQueue := []; vcs := 0; nb := 0; be := 0;
       backoffCounter := 0; txProgress := 0; isCurrentTxDoomed := false |}.

(** ** The mutable world shared by the phases of a tick *)

Record World := {
  logs : list LogEntry;
  timeline : gmap Z (list TimelineCell);
  stats : SimStats;
  randomCalls : nat
}.

Definition setLogs (l : list LogEntry) (w : World) : World :=
  {| logs := l; timeline := timeline w; stats := stats w;
     randomCalls := randomCalls w |}.

Definition setTimeline (tl : gmap Z (list TimelineCell)) (w : World) : World :=
  {| logs := logs w; timeline := tl; stats := stats w;
     randomCalls := randomCalls w |}.

Definition setStats (s : SimStats) (w : World) : World :=
  {| logs := logs w; timeline := timeline w; stats := s;
     randomCalls := randomCalls w |}.

Definition setRandomCalls (k : nat) (w : World) : World :=
  {| logs := logs w; timeline := timeline w; stats := stats w;
     randomCalls := k |}.

(** The local [log] closure: [logs.push]. *)
Definition log (t : Z) (i : Z) (ty : LogType) (msg : string) (w : World) : World :=
  setLogs (logs w ++ [{| tick := t; nodeId := i; type := ty; message := msg |}]) w.

(** One call of [Math.random()]: the next value of the oracle. *)
Definition mathRandom (rand : nat -> Q) (w : World) : Q * World :=
  (rand (randomCalls w), setRandomCalls (S (randomCalls w)) w).

(** Template-literal rendering of an integer-valued number. *)
Definition showZ (z : Z) : string := NilZero.string_of_int (Z.to_int z).

(** Strict comparison of two rationals, as [a < b] on numbers. *)
Definition Qltb (a b : Q) : bool := negb (Qle_bool b a).

(** *** Counter updates on [stats] *)

Definition zeroStats : SimStats :=
  {| totalPacketsGenerated := 0; successCount := 0; success1st := 0;
     success2nd := 0; success3rd := 0; failureCount := 0; collisionCount := 0;
     totalLatency := 0; maxQueueDepth := 0; channelIdleTicks := 0;
     channelTxTicks := 0; channelCollisionTicks := 0; channelBackoffTicks := 0 |}.

Definition incChannelCollisionTicks (s : SimStats) : SimStats :=
  {| totalPacketsGenerated := totalPacketsGenerated s; successCount := successCount s;
     success1st := success1st s; success2nd := success2nd s; success3rd := success3rd s;
     failureCount := failureCount s; collisionCount := collisionCount s;
     totalLatency := totalLatency s; maxQueueDepth := maxQueueDepth s;
     channelIdleTicks := channelIdleTicks s; channelTxTicks := channelTxTicks s;
     channelCollisionTicks := channelCollisionTicks s + 1;
     channelBackoffTicks := channelBackoffTicks s |}.

Definition incChannelTxTicks (s : SimStats) : SimStats :=
  {| totalPacketsGenerated := totalPacketsGenerated s; successCount := successCount s;
     success1st := success1st s; success2nd := success2nd s; success3rd := success3rd s;
     failureCount := failureCount s; collisionCount := collisionCount s;
     totalLatency := totalLatency s; maxQueueDepth := maxQueueDepth s;
     channelIdleTicks := channelIdleTicks s; channelTxTicks := channelTxTicks s + 1;
     channelCollisionTicks := channelCollisionTicks s;
     channelBackoffTicks := channelBackoffTicks s |}.

Definition incChannelBackoffTicks (s : SimStats) : SimStats :=
  {| totalPacketsGenerated := totalPacketsGenerated s; successCount := successCount s;
     success1st := success1st s; success2nd := success2nd s; success3rd := success3rd s;
     failureCount := failureCount s; collisionCount := collisionCount s;
     totalLatency := totalLatency s; maxQueueDepth := maxQueueDepth s;
     channelIdleTicks := channelIdleTicks s; channelTxTicks := channelTxTicks s;
     channelCollisionTicks := channelCollisionTicks s;
     channelBackoffTicks := channelBackoffTicks s + 1 |}.

Definition incChannelIdleTicks (s : SimStats) : SimStats :=
  {| totalPacketsGenerated := totalPacketsGenerated s; successCount := successCount s;
     success1st := success1st s; success2nd := success2nd s; success3rd := success3rd s;
     failureCount := failureCount s; collisionCount := collisionCount s;
     totalLatency := totalLatency s; maxQueueDepth := maxQueueDepth s;
     channelIdleTicks := channelIdleTicks s + 1; channelTxTicks := channelTxTicks s;
     channelCollisionTicks := channelCollisionTicks s;
     channelBackoffTicks := channelBackoffTicks s |}.

Definition incCollisionCount (s : SimStats) : SimStats :=
  {| totalPacketsGenerated := totalPacketsGenerated s; successCount := successCount s;
     success1st := success1st s; success2nd := success2nd s; success3rd := success3rd s;
     failureCount := failureCount s; collisionCount := collisionCount s + 1;
     totalLatency := totalLatency s; maxQueueDepth := maxQueueDepth s;
     channelIdleTicks := channelIdleTicks s; channelTxTicks := channelTxTicks s;
     channelCollisionTicks := channelCollisionTicks s;
     channelBackoffTicks := channelBackoffTicks s |}.

(** [totalPacketsGenerated++] followed by the [maxQueueDepth] update. *)
Definition notePacket (depth : Z) (s : SimStats) : SimStats :=
  {| totalPacketsGenerated := totalPacketsGenerated s + 1; successCount := successCount s;
     success1st := success1st s; success2nd := success2nd s; success3rd := success3rd s;
     failureCount := failureCount s; collisionCount := collisionCount s;
     totalLatency := totalLatency s; maxQueueDepth := Z.max (maxQueueDepth s) depth;
     channelIdleTicks := channelIdleTicks s; channelTxTicks := channelTxTicks s;
     channelCollisionTicks := channelCollisionTicks s;
     channelBackoffTicks := channelBackoffTicks s |}.

Definition incSuccessCount (s : SimStats) : SimStats :=
  {| totalPacketsGenerated := totalPacketsGenerated s; successCount := successCount s + 1;
     success1st := success1st s; success2nd := success2nd s; success3rd := success3rd s;
     failureCount := failureCount s; collisionCount := collisionCount s;
     totalLatency := totalLatency s; maxQueueDepth := maxQueueDepth s;
     channelIdleTicks := channelIdleTicks s; channelTxTicks := channelTxTicks s;
     channelCollisionTicks := channelCollisionTicks s;
     channelBackoffTicks := channelBackoffTicks s |}.

Definition addTotalLatency (d : Z) (s : SimStats) : SimStats :=
  {| totalPacketsGenerated := totalPacketsGenerated s; successCount := successCount s;
     success1st := success1st s; success2nd := success2nd s; success3rd := success3rd s;
     failureCount := failureCount s; collisionCount := collisionCount s;
     totalLatency := totalLatency s + d; maxQueueDepth := maxQueueDepth s;
     channelIdleTicks := channelIdleTicks s; channelTxTicks := channelTxTicks s;
     channelCollisionTicks := channelCollisionTicks s;
     channelBackoffTicks := channelBackoffTicks s |}.

Definition incSuccess1st (s : SimStats) : SimStats :=
  {| totalPacketsGenerated := totalPacketsGenerated s; successCount := successCount s;
     success1st := success1st s + 1; success2nd := success2nd s; success3rd := success3rd s;
     failureCount := failureCount s; collisionCount := collisionCount s;
     totalLatency := totalLatency s; maxQueueDepth := maxQueueDepth s;
     channelIdleTicks := channelIdleTicks s; channelTxTicks := channelTxTicks s;
     channelCollisionTicks := channelCollisionTicks s;
     channelBackoffTicks := channelBackoffTicks s |}.

Definition incSuccess2nd (s : SimStats) : SimStats :=
  {| totalPacketsGenerated := totalPacketsGenerated s; successCount := successCount s;
     success1st := success1st s; success2nd := success2nd s + 1; success3rd := success3rd s;
     failureCount := failureCount s; collisionCount := collisionCount s;
     totalLatency := totalLatency s; maxQueueDepth := maxQueueDepth s;
     channelIdleTicks := channelIdleTicks s; channelTxTicks := channelTxTicks s;
     channelCollisionTicks := channelCollisionTicks s;
     channelBackoffTicks := channelBackoffTicks s |}.

Definition incSuccess3rd (s : SimStats) : SimStats :=
  {| totalPacketsGenerated := totalPacketsGenerated s; successCount := successCount s;
     success1st := success1st s; success2nd := success2nd s; success3rd := success3rd s + 1;
     failureCount := failureCount s; collisionCount := collisionCount s;
     totalLatency := totalLatency s; maxQueueDepth := maxQueueDepth s;
     channelIdleTicks := channelIdleTicks s; channelTxTicks := channelTxTicks s;
     channelCollisionTicks := channelCollisionTicks s;
     channelBackoffTicks := channelBackoffTicks s |}.

Definition incFailureCount (s : SimStats) : SimStats :=
  {| totalPacketsGenerated := totalPacketsGenerated s; successCount := successCount s;
     success1st := success1st s; success2nd := success2nd s; success3rd := success3rd s;
     failureCount := failureCount s + 1; collisionCount := collisionCount s;
     totalLatency := totalLatency s; maxQueueDepth := maxQueueDepth s;
     channelIdleTicks := channelIdleTicks s; channelTxTicks := channelTxTicks s;
     channelCollisionTicks := channelCollisionTicks s;
     channelBackoffTicks := channelBackoffTicks s |}.

Definition updStats (f : SimStats -> SimStats) (w : World) : World :=
  setStats (f (stats w)) w.

(** ** The engine: [runSimulation] *)

(** [array.forEach], the callback receiving the element and its index and
    mutating the element and the shared world. *)
Fixpoint forEachFrom (f : nat -> Node -> World -> Node * World)
    (idx : nat) (ns : list Node) (w : World) : list Node * World :=
  match ns with
  | [] => ([], w)
  | n :: rest =>
      let '(n', w') := f idx n w in
      let '(rest', w'') := forEachFrom f (S idx) rest w' in
      (n' :: rest', w'')
  end.

Definition forEach (f : Node -> World -> Node * World)
    (ns : list Node) (w : World) : list Node * World :=
  forEachFrom (fun _ => f) 0 ns w.

(** Constants for the frame structure. *)
Definition LEN_P : Z := 1.
Definition LEN_FC : Z := 1.
Definition LEN_DATA (cfg : SimConfig) : Z := dataSlots cfg.
Definition LEN_RIFS : Z := 1.
Definition LEN_ACK_P : Z := 1.
Definition LEN_ACK_FC : Z := 1.

(** *** Phase 1: physical channel check *)

(** Membership in [[TX_PREAMBLE, TX_FC, TX_DATA, RX_ACK]]. *)
Definition isTxState (s : NodeType) : bool :=
  match s with
  | TX_PREAMBLE | TX_FC | TX_DATA | RX_ACK => true
  | _ => false
  end.

Definition transmitters (ns : list Node) : list Node :=
  List.filter (fun n => isTxState (state n)) ns.

Definition rifsWaiters (ns : list Node) : list Node :=
  List.filter (fun n => bool_decide (state n = WAIT_RIFS)) ns.

Definition isPreambleActive (ns : list Node) : bool :=
  existsb (fun n => bool_decide (state n = TX_PREAMBLE)) (transmitters ns).

Definition isFcActive (ns : list Node) : bool :=
  existsb (fun n => bool_decide (state n = TX_FC)) (transmitters ns).

Definition physicalBusy (ns : list Node) : bool :=
  (0 <? length (transmitters ns))%nat.

Definition collisionOccurring (ns : list Node) : bool :=
  (1 <? length (transmitters ns))%nat.

Definition backingOff (ns : list Node) : bool :=
  existsb (fun n => bool_decide (state n = BACKOFF)
                    || bool_decide (state n = BACKOFF_PAUSED)) ns.

(** Channel utilisation statistics of one tick. *)
Definition channelStats (ns : list Node) (s : SimStats) : SimStats :=
  if collisionOccurring ns then incChannelCollisionTicks s
  else if physicalBusy ns || (0 <? length (rifsWaiters ns))%nat
       then incChannelTxTicks s
  else if backingOff ns then incChannelBackoffTicks s
  else incChannelIdleTicks s.

(** The callback of [transmitters.forEach] under [collisionOccurring]. *)
Definition markDoomed (t : Z) (n : Node) (w : World) : Node * World :=
  if isCurrentTxDoomed n then (n, w)
  else (setDoomed true n,
        log t (id n) LOG_COLLISION "Signal overlap detected"
            (updStats incCollisionCount w)).

(** [transmitters] holds the node objects themselves, in array order, so
    walking it is walking [nodes] and skipping the non-transmitters. *)
Definition collisionPhase (t : Z) (ns : list Node) (w : World)
    : list Node * World :=
  if collisionOccurring ns
  then forEach (fun n w => if isTxState (state n) then markDoomed t n w
                           else (n, w)) ns w
  else (ns, w).

(** *** Phase 2: node perception (VCS) *)

(** The flags are those computed at the start of the tick; [pre] is
    [nodesPreUpdate]; [transmitters.includes(n)] holds exactly when the
    label of [n] is a transmit label, since no label has changed yet. *)
Definition navNode (cfg : SimConfig) (t : Z)
    (preambleActive fcActive collision : bool) (pre : list Z)
    (idx : nat) (n : Node) (w : World) : Node * World :=
  let isTransmitting := isTxState (state n) in
  if isTransmitting then (n, w)
  else
    let '(n, w) :=
      if preambleActive then
        let n := setVcs (Z.max (vcs n) (collisionPenalty cfg)) n in
        let w :=
          match pre !! idx with
          | Some 0 =>
              log t (id n) VCS
                ("Heard Preamble, VCS set to " +:+ showZ (collisionPenalty cfg)) w
          | _ => w
          end in
        (n, w)
      else (n, w) in
    let '(n, w) :=
      if fcActive && negb collision then
        let durationRemaining := LEN_DATA cfg + LEN_RIFS + LEN_ACK_P + LEN_ACK_FC in
        (setVcs durationRemaining n,
         log t (id n) VCS ("Decoded FC, NAV set to " +:+ showZ durationRemaining) w)
      else (n, w) in
    let n := if 0 <? vcs n then setVcs (vcs n - 1) n else n in
    (n, w).

Definition navPhase (cfg : SimConfig) (t : Z)
    (preambleActive fcActive collision : bool)
    (ns : list Node) (w : World) : list Node * World :=
  let nodesPreUpdate := map vcs ns in
  forEachFrom (navNode cfg t preambleActive fcActive collision nodesPreUpdate)
              0 ns w.

(** *** Phase 3: state machine update *)

(** [t % packetInterval === 0]: the remainder takes the sign of the
    dividend, and a zero divisor gives NaN, which is not [0]. *)
Definition intervalDue (t interval : Z) : bool :=
  if interval =? 0 then false else Z.rem t interval =? 0.

(** [generateBackoff].  For a negative exponent [Math.pow] is a fraction
    below one and the floor is [0]; [2 ^ be] is [0] on [Z] then, with the
    same floor. *)
Definition generateBackoff (cfg : SimConfig) (rand : nat -> Q)
    (n : Node) (w : World) : Node * World :=
  let max := 2 ^ be n - 1 in
  let '(r, w) := mathRandom rand w in
  (setBackoffCounter (Qfloor (r * inject_Z (max + 1)) + pe cfg) n, w).

(** [array.shift()]: the removed head, undefined on the empty array. *)
Definition shift (q : list Z) : option Z * list Z :=
  match q with
  | [] => (None, [])
  | b :: rest => (Some b, rest)
  end.

(** Input generation, independent of the label. *)
Definition packetArrival (cfg : SimConfig) (rand : nat -> Q) (t : Z)
    (n : Node) (w : World) : Node * World :=
  let '(shouldGenerate, w) :=
    match packetGenMode cfg with
    | INTERVAL => (intervalDue t (packetInterval cfg), w)
    | RANDOM =>
        let '(r, w) := mathRandom rand w in (Qltb r (packetProb cfg), w)
    end in
  if shouldGenerate then
    let n := setPacketQueue (packetQueue n ++ [t]) n in
    let depth := Z.of_nat (length (packetQueue n)) in
    let w := updStats (notePacket depth) w in
    (n, log t (id n) INFO ("Packet generated (Queue: " +:+ showZ depth +:+ ")") w)
  else (n, w).

(** The label to resume with once the head packet is gone. *)
Definition nextAfterPacket (n : Node) : Node :=
  if (0 <? length (packetQueue n))%nat then setState SENSING n
  else setState IDLE n.

(** The working cell of a tick: its label and its optional [info]. *)
Definition Cell : Type := NodeType * option Z.

(** The [switch (n.state)] of the state machine. *)
Definition transition (cfg : SimConfig) (rand : nat -> Q) (t : Z)
    (busy : bool) (n : Node) (w : World) (cell : Cell)
    : Node * World * Cell :=
  match state n with
  | IDLE =>
      if (0 <? length (packetQueue n))%nat
      then (resetProtocolState cfg (setState SENSING n), w, cell)
      else (n, w, cell)
  | SENSING =>
      if negb busy && (vcs n =? 0) then
        let '(n, w) := generateBackoff cfg rand n w in
        let w := log t (id n) INFO
                   ("Start Backoff (" +:+ showZ (backoffCounter n) +:+ ")") w in
        if backoffCounter n =? 0
        then (setDoomed false (setTxProgress 0 (setState TX_PREAMBLE n)), w, cell)
        else (setState BACKOFF n, w, cell)
      else (n, w, cell)
  | BACKOFF | BACKOFF_PAUSED =>
      let channelFree := negb busy && (vcs n =? 0) in
      if channelFree then
        let n := setState BACKOFF n in
        let cell : Cell := (BACKOFF, Some (backoffCounter n)) in
        if 1 <? backoffCounter n
        then (setBackoffCounter (backoffCounter n - 1) n, w, cell)
        else (setDoomed false (setTxProgress 0 (setState TX_PREAMBLE n)),
              log t (id n) INFO "Backoff complete, transmitting" w, cell)
      else (setState BACKOFF_PAUSED n, w, (fst cell, Some (backoffCounter n)))
  | TX_PREAMBLE =>
      let n := setTxProgress (txProgress n + 1) n in
      if LEN_P <=? txProgress n
      then (setTxProgress 0 (setState TX_FC n), w, cell)
      else (n, w, cell)
  | TX_FC =>
      let n := setTxProgress (txProgress n + 1) n in
      if LEN_FC <=? txProgress n
      then (setTxProgress 0 (setState TX_DATA n), w, cell)
      else (n, w, cell)
  | TX_DATA =>
      let n := setTxProgress (txProgress n + 1) n in
      if LEN_DATA cfg <=? txProgress n
      then (setTxProgress 0 (setState WAIT_RIFS n), w, cell)
      else (n, w, cell)
  | WAIT_RIFS =>
      let n := setTxProgress (txProgress n + 1) n in
      if LEN_RIFS <=? txProgress n
      then (setTxProgress 0 (setState RX_ACK n), w, cell)
      else (n, w, cell)
  | RX_ACK =>
      let n := setTxProgress (txProgress n + 1) n in
      let ackDuration := LEN_ACK_P + LEN_ACK_FC in
      if ackDuration <=? txProgress n then
        if negb (isCurrentTxDoomed n) then
          let '(birthTick, q) := shift (packetQueue n) in
          let nb0 := nb n in
          let n := setPacketQueue q n in
          let w := updStats incSuccessCount w in
          let w := match birthTick with
                   | Some b => updStats (addTotalLatency (t - b)) w
                   | None => w
                   end in
          let w := if nb0 =? 0 then updStats incSuccess1st w
                   else if nb0 =? 1 then updStats incSuccess2nd w
                   else updStats incSuccess3rd w in
          let n := resetProtocolState cfg n in
          let w := log t (id n) SUCCESS "ACK received, transaction complete" w in
          (nextAfterPacket n, w, cell)
        else
          let n := setNb (nb n + 1) n in
          if maxNb cfg <? nb n then
            let n := setPacketQueue (snd (shift (packetQueue n))) n in
            let w := updStats incFailureCount w in
            let n := resetProtocolState cfg n in
            let n := setState FAILED n in
            (n, log t (id n) DROP
                  ("Max retries (" +:+ showZ (maxNb cfg)
                   +:+ ") reached. Dropping packet.") w, cell)
          else
            let n := setBe (Z.min (be n + 1) (maxBe cfg)) n in
            let n := setVcs 0 n in
            let n := setBackoffCounter 0 n in
            let n := setState SENSING n in
            (n, log t (id n) LOG_COLLISION
                  ("No ACK. Retrying (NB=" +:+ showZ (nb n)
                   +:+ ", BE=" +:+ showZ (be n) +:+ ")") w, cell)
      else (n, w, cell)
  | FAILED => (nextAfterPacket n, w, cell)
  | COLLISION => (n, w, cell)
  end.

(** The cell pushed for this tick. *)
Definition visualCell (collision : bool) (cell : Cell) : TimelineCell :=
  let visualState := fst cell in
  if isTxState visualState && collision
  then {| cellState := COLLISION; info := snd cell; isCollision := true |}
  else {| cellState := visualState; info := snd cell; isCollision := false |}.

(** [timeline[n.id].push(...)]; every node id is a key of [timeline]. *)
Definition pushCell (i : Z) (c : TimelineCell) (w : World) : World :=
  setTimeline (alter (fun row => row ++ [c]) i (timeline w)) w.

(** The callback of the third [nodes.forEach]. *)
Definition fsmNode (cfg : SimConfig) (rand : nat -> Q) (t : Z)
    (busy collision : bool) (n : Node) (w : World) : Node * World :=
  let cell : Cell := (state n, None) in
  let '(n, w) := packetArrival cfg rand t n w in
  let '(n, w, cell) := transition cfg rand t busy n w cell in
  (n, pushCell (id n) (visualCell collision cell) w).

(** *** The tick and the loop *)

Definition tickStep (cfg : SimConfig) (rand : nat -> Q) (t : Z)
    (st : list Node * World) : list Node * World :=
  let '(ns, w) := st in
  let preambleActive := isPreambleActive ns in
  let fcActive := isFcActive ns in
  let busy := physicalBusy ns in
  let collision := collisionOccurring ns in
  let w := updStats (channelStats ns) w in
  let '(ns, w) := collisionPhase t ns w in
  let '(ns, w) := navPhase cfg t preambleActive fcActive collision ns w in
  forEach (fsmNode cfg rand t busy collision) ns w.

(** The nodes and the empty world before the first tick. *)
Definition initNodes (cfg : SimConfig) : list Node :=
  map (fun i => newNode cfg (Z.of_nat i)) (seq 0 (Z.to_nat (nodeCount cfg))).

Definition initWorld (ns : list Node) : World :=
  {| logs := [];
     timeline := foldl (fun tl n => <[id n := []]> tl) ∅ ns;
     stats := zeroStats;
     randomCalls := 0 |}.

(** The state after the first [k] iterations, [t = 0 .. k-1]. *)
Fixpoint simLoop (cfg : SimConfig) (rand : nat -> Q) (k : nat)
    : list Node * World :=
  match k with
  | O => let ns := initNodes cfg in (ns, initWorld ns)
  | S k' => tickStep cfg rand (Z.of_nat k') (simLoop cfg rand k')
  end.

Definition runSimulation (cfg : SimConfig) (rand : nat -> Q) : SimulationResult :=
  let '(_, w) := simLoop cfg rand (Z.to_nat (simDuration cfg)) in
  {| res_timeline := timeline w; res_logs := logs w; res_stats := stats w;
     duration := simDuration cfg |}.

(** ** Scenario configurations *)

(** A generator that always returns [0]. *)
Definition zeroRand : nat -> Q := fun _ => 0%Q.

(** A generator that always returns [3/4]. *)
Definition highRand : nat -> Q := fun _ => (3 # 4)%Q.

(** Scenario 1 of the specification ("trivial idle"); the fields it
    leaves open are parameters. *)
Definition scenario1With (cp mn sd ack : Z) (pp : Q) : SimConfig :=
  {| slotDurationUs := sd; dataSlots := 10; ackSlots := ack; collisionPenalty := cp;
     pe := 2; minBe := 0; maxBe := 0; maxNb := mn; nodeCount := 1;
     packetGenMode := INTERVAL; packetProb := pp; packetInterval := 100;
     simDuration := 10 |}.

Definition scenario1 : SimConfig := scenario1With 40 4 100 2 0%Q.

(** Scenario 2 ("single node single packet"). *)
Definition scenario2With (sd ack : Z) (pp : Q) : SimConfig :=
  {| slotDurationUs := sd; dataSlots := 10; ackSlots := ack; collisionPenalty := 40;
     pe := 0; minBe := 0; maxBe := 0; maxNb := 4; nodeCount := 1;
     packetGenMode := INTERVAL; packetProb := pp; packetInterval := 100;
     simDuration := 50 |}.

Definition scenario2 : SimConfig := scenario2With 100 2 0%Q.

(** Scenario 3 ("two-node simultaneous arrival"). *)
Definition scenario3With (cp sd ack : Z) (pp : Q) : SimConfig :=
  {| slotDurationUs := sd; dataSlots := 3; ackSlots := ack; collisionPenalty := cp;
     pe := 0; minBe := 0; maxBe := 0; maxNb := 0; nodeCount := 2;
     packetGenMode := INTERVAL; packetProb := pp; packetInterval := 1000;
     simDuration := 40 |}.

Definition scenario3 : SimConfig := scenario3With 40 100 2 0%Q.

(** Two nodes with exponent one: node 0 draws [0] and transmits, node 1
    draws [1] and is paused by the transmission of node 0. *)
Definition scenarioPause : SimConfig :=
  {| slotDurationUs := 100; dataSlots := 3; ackSlots := 2; collisionPenalty := 40;
     pe := 0; minBe := 1; maxBe := 1; maxNb := 4; nodeCount := 2;
     packetGenMode := INTERVAL; packetProb := 0%Q; packetInterval := 1000;
     simDuration := 40 |}.

Definition pauseRand : nat -> Q :=
  fun k => match k with 1%nat => (1 # 2)%Q | _ => 0%Q end.

(** The same draws as [pauseRand] on the first two calls only. *)
Definition pauseRandTail : nat -> Q :=
  fun k => match k with 0%nat => 0%Q | 1%nat => (1 # 2)%Q | _ => (1 # 3)%Q end.

(** One node, one tick, Bernoulli arrivals with probability one half. *)
Definition scenarioRandom : SimConfig :=
  {| slotDurationUs := 100; dataSlots := 10; ackSlots := 2; collisionPenalty := 40;
     pe := 0; minBe := 0; maxBe := 0; maxNb := 4; nodeCount := 1;
     packetGenMode := RANDOM; packetProb := (1 # 2)%Q; packetInterval := 100;
     simDuration := 1 |}.

(** The log entries of one kind for one node. *)
Definition logsOf (ty : LogType) (i : Z) (l : list LogEntry) : list LogEntry :=
  List.filter (fun e => bool_decide (type e = ty) && bool_decide (nodeId e = i)) l.

(** ** Predicates on runs and specification-side definitions *)

(** The four channel-utilisation bins of a statistics record. *)
Definition bins (s : SimStats) : Z :=
  channelIdleTicks s + channelTxTicks s + channelCollisionTicks s
  + channelBackoffTicks s.

(** The sum of the success buckets. *)
Definition successBuckets (s : SimStats) : Z :=
  success1st s + success2nd s + success3rd s.

(** The four bins as a tuple: idle, transmit, collision, back-off. *)
Definition binsOf (s : SimStats) : Z * Z * Z * Z :=
  (channelIdleTicks s, channelTxTicks s, channelCollisionTicks s,
   channelBackoffTicks s).

(** The classes of a tick for channel utilisation. *)
Inductive ChannelBin := BinCollision | BinTx | BinBackoff | BinIdle.

(** Following the specification's words: with [T] the transmitters and
    [W] the nodes waiting in RIFS, a tick is a collision tick if [|T| > 1],
    else a transmit tick if [|T| > 0] or [|W| > 0], else a back-off tick if
    some node is in [BACKOFF] or [BACKOFF_PAUSED], else an idle tick. *)
Definition classifySpec (ns : list Node) : ChannelBin :=
  let T := List.filter (fun n => isTxState (state n)) ns in
  let W := List.filter (fun n => bool_decide (state n = WAIT_RIFS)) ns in
  if (1 <? length T)%nat then BinCollision
  else if (0 <? length T)%nat || (0 <? length W)%nat then BinTx
  else if existsb (fun n => bool_decide (state n = BACKOFF)
                            || bool_decide (state n = BACKOFF_PAUSED)) ns
       then BinBackoff
  else BinIdle.

(** Incrementing the bin of a class, the others unchanged. *)
Definition bumpBin (b : ChannelBin) (x : Z * Z * Z * Z) : Z * Z * Z * Z :=
  let '(idle, tx, col, bo) := x in
  match b with
  | BinCollision => (idle, tx, col + 1, bo)
  | BinTx => (idle, tx + 1, col, bo)
  | BinBackoff => (idle, tx, col, bo + 1)
  | BinIdle => (idle + 1, tx, col, bo)
  end.

(** The state machine step completes an acknowledged transaction. *)
Definition completesAck (n : Node) : bool :=
  bool_decide (state n = RX_ACK) && (2 <=? txProgress n + 1)
  && negb (isCurrentTxDoomed n).

(** Following the specification's words: the NAV of a node that is not a
    transmitter becomes [max(nav, collisionPenalty)] when a preamble is
    on the air, is overwritten with [dataSlots + 3] when a frame control
    is decoded without collision, and is then decremented if positive. *)
Definition navSpecValue (cfg : SimConfig) (pa fa col : bool) (nav : Z) : Z :=
  let nav1 := if pa then Z.max nav (collisionPenalty cfg) else nav in
  let nav2 := if fa && negb col then dataSlots cfg + 3 else nav1 in
  if 0 <? nav2 then nav2 - 1 else nav2.

(** The rule leaves transmitters alone. *)
Definition navSpecNode (cfg : SimConfig) (pa fa col : bool) (n : Node) : Node :=
  if isTxState (state n) then n
  else setVcs (navSpecValue cfg pa fa col (vcs n)) n.

(** The [VCS] log entries of one node, in order. *)
Definition navSpecLogs (cfg : SimConfig) (t : Z) (pa fa col : bool) (n : Node)
    : list LogEntry :=
  if isTxState (state n) then []
  else
    (if pa && (vcs n =? 0)
     then [{| tick := t; nodeId := id n; type := VCS;
              message := "Heard Preamble, VCS set to "
                         +:+ showZ (collisionPenalty cfg) |}]
     else [])
    ++ (if fa && negb col
        then [{| tick := t; nodeId := id n; type := VCS;
                 message := "Decoded FC, NAV set to "
                            +:+ showZ (dataSlots cfg + 3) |}]
        else []).

(** The contract of [Math.random()]: a value in [[0, 1)]. *)
Definition validRandom (rand : nat -> Q) : Prop :=
  forall i, (0 <= rand i)%Q /\ (rand i < 1)%Q.

(** A node outside [IDLE] and [FAILED] holds a packet. *)
Definition holdsPacket (n : Node) : Prop :=
  state n <> IDLE -> state n <> FAILED -> packetQueue n <> [].

(** The two back-off labels. *)
Definition isBackoffLabel (s : NodeType) : Prop :=
  s = BACKOFF \/ s = BACKOFF_PAUSED.

(** A node that is backing off still has at least one slot to wait. *)
Definition backoffOk (n : Node) : Prop :=
  isBackoffLabel (state n) -> 1 <= backoffCounter n.

(** A back-off cell of the timeline shows a counter of at least one. *)
Definition cellOk (c : TimelineCell) : Prop :=
  isBackoffLabel (cellState c) -> exists v, info c = Some v /\ 1 <= v.

(** Every cell of every row of the timeline is well formed. *)
Definition timelineOk (w : World) : Prop :=
  forall i row, timeline w !! i = Some row -> Forall cellOk row.


(** The retry count is never negative. *)
Definition nbOk (n : Node) : Prop := 0 <= nb n.

(** The back-off exponent is zero. *)
Definition beZero (n : Node) : Prop := be n = 0.

(** Phases 1 and 2 leave everything but [isCurrentTxDoomed] and [vcs]. *)
Definition sameProtocol (n m : Node) : Prop :=
  exists v b, m = setVcs v (setDoomed b n).

(** No success has been recorded yet. *)
Definition noSuccess (s : SimStats) : Prop :=
  successCount s = 0 /\ totalLatency s = 0 /\ success1st s = 0.

(** The node is working on the packet born at tick [0], first attempt. *)
Definition firstPending (n : Node) (w : World) : Prop :=
  vcs n = 0 /\ nb n = 0 /\ (exists rest, packetQueue n = 0 :: rest)
  /\ noSuccess (stats w).

(** The back-off counter of the first attempt: the first call of the
    generator, with exponent [minBe], plus [pe]. *)
Definition firstBackoff (cfg : SimConfig) (rand : nat -> Q) : Z :=
  Qfloor (rand 0%nat * inject_Z (2 ^ minBe cfg - 1 + 1)) + pe cfg.

(** The run has one node, working on its first packet, in a state
    described by [P], after [k] ticks. *)
Definition soloAt (cfg : SimConfig) (rand : nat -> Q) (k : nat)
    (P : Node -> World -> Prop) : Prop :=
  exists n w, simLoop cfg rand k = ([n], w) /\ firstPending n w /\ P n w.

(** ** The timeline viewer and the statistics panel *)

(** [getColor] of the [Timeline] component: the class of a cell. *)
Definition getColor (cell : TimelineCell) : string :=
  if isCollision cell then "bg-red-500"
  else match cellState cell with
       | IDLE => "bg-gray-100 opacity-0"
       | SENSING => "bg-yellow-200"
       | BACKOFF => "bg-yellow-400"
       | BACKOFF_PAUSED => "bg-gray-300"
       | TX_PREAMBLE => "bg-blue-500"
       | TX_FC => "bg-emerald-500"
       | TX_DATA => "bg-sky-400"
       | WAIT_RIFS => "bg-purple-500"
       | RX_ACK => "bg-indigo-500"
       | COLLISION => "bg-red-500"
       | FAILED => "bg-red-900"
       end.

(** [getTextColor]. *)
Definition getTextColor (cell : TimelineCell) : string :=
  if bool_decide (cellState cell = BACKOFF)
     || bool_decide (cellState cell = BACKOFF_PAUSED)
  then "text-slate-800" else "text-white".

(** What [getLabel] returns: the number in [info], or a text. *)
Inductive CellLabel :=
  | LabelNumber (v : Z)
  | LabelText (s : string).

(** [getLabel]. *)
Definition getLabel (cell : TimelineCell) : CellLabel :=
  if bool_decide (cellState cell = BACKOFF)
     || bool_decide (cellState cell = BACKOFF_PAUSED)
  then match info cell with
       | Some v => LabelNumber v
       | None => LabelText ""
       end
  else match cellState cell with
       | TX_PREAMBLE => LabelText "P"
       | TX_FC => LabelText "F"
       | TX_DATA => LabelText ""
       | WAIT_RIFS => LabelText "R"
       | RX_ACK => LabelText "A"
       | FAILED => LabelText "X"
       | COLLISION => LabelText "!"
       | _ => LabelText ""
       end.

(** The row renderer returns [null] for an idle cell without [info]. *)
Definition isRendered (cell : TimelineCell) : bool :=
  negb (bool_decide (cellState cell = IDLE) && bool_decide (info cell = None)).

(** An item of a [StackedBar] of the [StatsPanel] component. *)
Record BarItem := {
  label : string;
  value : Z;
  color : string
}.

(** [items.reduce((acc, i) => acc + i.value, 0)]. *)
Definition barTotal (items : list BarItem) : Z :=
  foldl (fun acc i => acc + value i) 0 items.

(** The bar shows "No Data" when the total is zero. *)
Definition barShowsNoData (items : list BarItem) : bool := barTotal items =? 0.

Definition packetOutcomes (s : SimStats) : list BarItem :=
  [ {| label := "1st Try"; value := success1st s; color := "bg-emerald-500" |};
    {| label := "2nd Try"; value := success2nd s; color := "bg-teal-400" |};
    {| label := "3rd+ Try"; value := success3rd s; color := "bg-cyan-400" |};
    {| label := "Dropped"; value := failureCount s; color := "bg-red-500" |} ].

Definition channelUtil (s : SimStats) : list BarItem :=
  [ {| label := "Tx (Busy)"; value := channelTxTicks s; color := "bg-blue-500" |};
    {| label := "Collision"; value := channelCollisionTicks s; color := "bg-red-500" |};
    {| label := "Backoff"; value := channelBackoffTicks s; color := "bg-yellow-400" |};
    {| label := "Idle"; value := channelIdleTicks s; color := "bg-gray-200" |} ].

(** ** Further predicates on runs *)

(** The cell pushed for a node during a tick, as a function of the node
    the state machine step receives. *)
Definition tickCell (busy col : bool) (n : Node) : TimelineCell :=
  match state n with
  | BACKOFF | BACKOFF_PAUSED =>
      {| cellState := if negb busy && (vcs n =? 0) then BACKOFF else state n;
         info := Some (backoffCounter n); isCollision := false |}
  | s =>
      if isTxState s && col
      then {| cellState := COLLISION; info := None; isCollision := true |}
      else {| cellState := s; info := None; isCollision := false |}
  end.

(** The node ids of a run, in array order. *)
Definition nodeIds (cfg : SimConfig) : list Z :=
  map Z.of_nat (seq 0 (Z.to_nat (nodeCount cfg))).

(** The second world has the log of the first, followed by entries of
    tick [t] that all satisfy [ok]. *)
Definition appendsAt (t : Z) (ok : LogEntry -> Prop) (w w' : World) : Prop :=
  exists new, logs w' = logs w ++ new
              /\ Forall (fun e => tick e = t /\ ok e) new.

(** The log entries of one kind. *)
Definition logsOfType (ty : LogType) (l : list LogEntry) : list LogEntry :=
  List.filter (fun e => bool_decide (type e = ty)) l.

(** The "Signal overlap detected" entries. *)
Definition overlapLogs (l : list LogEntry) : list LogEntry :=
  List.filter (fun e => bool_decide (type e = LOG_COLLISION)
                        && bool_decide (message e = "Signal overlap detected")) l.

(** The "Packet generated" entries. *)
Definition arrivalLogs (l : list LogEntry) : list LogEntry :=
  List.filter (fun e => bool_decide (type e = INFO)
                        && String.prefix "Packet generated" (message e)) l.

(** The statistics agree with the log. *)
Definition statsMatchLogs (w : World) : Prop :=
  successCount (stats w) = Z.of_nat (length (logsOfType SUCCESS (logs w)))
  /\ failureCount (stats w) = Z.of_nat (length (logsOfType DROP (logs w)))
  /\ collisionCount (stats w) = Z.of_nat (length (overlapLogs (logs w)))
  /\ totalPacketsGenerated (stats w)
     = Z.of_nat (length (arrivalLogs (logs w))).

(** The log is ordered by tick. *)
Definition tickOrdered (l : list LogEntry) : Prop :=
  StronglySorted (fun a b => tick a <= tick b) l.

(** The configuration with another duration: [{ ...config, simDuration }]. *)
Definition withDuration (d : Z) (cfg : SimConfig) : SimConfig :=
  {| slotDurationUs := slotDurationUs cfg; dataSlots := dataSlots cfg;
     ackSlots := ackSlots cfg; collisionPenalty := collisionPenalty cfg;
     pe := pe cfg; minBe := minBe cfg; maxBe := maxBe cfg; maxNb := maxNb cfg;
     nodeCount := nodeCount cfg; packetGenMode := packetGenMode cfg;
     packetProb := packetProb cfg; packetInterval := packetInterval cfg;
     simDuration := d |}.

(** Packets generated and not yet counted as success or failure. *)
Definition pending (s : SimStats) : Z :=
  totalPacketsGenerated s - successCount s - failureCount s.

(** The number of packets waiting in the queues of the nodes. *)
Definition queued (ns : list Node) : Z :=
  foldr (fun n acc => Z.of_nat (length (packetQueue n)) + acc) 0 ns.

(** Every generated packet is a success, a failure, or still queued. *)
Definition conserved (ns : list Node) (w : World) : Prop :=
  Forall holdsPacket ns /\ pending (stats w) = queued ns.

(** No queue is longer than the recorded maximum depth. *)
Definition depthBounded (ns : list Node) (w : World) : Prop :=
  Forall (fun n => Z.of_nat (length (packetQueue n)) <= maxQueueDepth (stats w)) ns
  /\ 0 <= maxQueueDepth (stats w) <= totalPacketsGenerated (stats w).

(** The retry count and the back-off exponent are in range. *)
Definition retryOk (cfg : SimConfig) (n : Node) : Prop :=
  0 <= nb n <= Z.max 0 (maxNb cfg) /\ minBe cfg <= be n <= maxBe cfg.

(** The back-off counter is in the range of a draw. *)
Definition counterOk (cfg : SimConfig) (n : Node) : Prop :=
  minBe cfg <= be n <= maxBe cfg
  /\ 0 <= backoffCounter n <= pe cfg + 2 ^ maxBe cfg - 1.

(** The largest value the NAV can hold at a tick boundary. *)
Definition navBound (cfg : SimConfig) : Z :=
  Z.max 0 (Z.max (collisionPenalty cfg) (dataSlots cfg + 3) - 1).

Definition navOk (cfg : SimConfig) (n : Node) : Prop :=
  0 <= vcs n <= navBound cfg.

(** Frame progress in each label, and no node is ever labelled
    [COLLISION]. *)
Definition frameOk (cfg : SimConfig) (n : Node) : Prop :=
  match state n with
  | TX_PREAMBLE | TX_FC | WAIT_RIFS => txProgress n = 0
  | TX_DATA => 0 <= txProgress n < Z.max 1 (dataSlots cfg)
  | RX_ACK => 0 <= txProgress n <= 1
  | COLLISION => False
  | _ => 0 <= txProgress n
  end.

(** The node handed to the state machine step of a tick, from the node at
    the start of the tick: doomed if it transmits into a collision, NAV
    updated by the rule. *)
Definition preFsm (cfg : SimConfig) (ns : list Node) (n : Node) : Node :=
  navSpecNode cfg (isPreambleActive ns) (isFcActive ns) (collisionOccurring ns)
    (setDoomed (isCurrentTxDoomed n
                || (collisionOccurring ns && isTxState (state n))) n).

(** The edges of the state machine, from the label at the start of a tick
    to the label at its end. *)
Definition allowedStep (s s' : NodeType) : bool :=
  match s, s' with
  | IDLE, (IDLE | SENSING) => true
  | SENSING, (SENSING | BACKOFF | TX_PREAMBLE) => true
  | BACKOFF, (BACKOFF | BACKOFF_PAUSED | TX_PREAMBLE) => true
  | BACKOFF_PAUSED, (BACKOFF_PAUSED | BACKOFF | TX_PREAMBLE) => true
  | TX_PREAMBLE, TX_FC => true
  | TX_FC, TX_DATA => true
  | TX_DATA, (TX_DATA | WAIT_RIFS) => true
  | WAIT_RIFS, RX_ACK => true
  | RX_ACK, (RX_ACK | IDLE | SENSING | FAILED) => true
  | FAILED, (IDLE | SENSING) => true
  | _, _ => false
  end.

(** The label and the progress of a node [j] ticks after it entered
    [TX_PREAMBLE], for a frame with [d] data slots. *)
Definition frameLabel (d : Z) (j : nat) : NodeType :=
  match j with
  | O => TX_PREAMBLE
  | S O => TX_FC
  | _ => if Z.of_nat j <=? d + 1 then TX_DATA
         else if Z.of_nat j =? d + 2 then WAIT_RIFS
         else RX_ACK
  end.

Definition frameProgress (d : Z) (j : nat) : Z :=
  match j with
  | O | S O => 0
  | _ => if Z.of_nat j <=? d + 1 then Z.of_nat j - 2
         else if Z.of_nat j =? d + 2 then 0
         else Z.of_nat j - (d + 3)
  end.

(** A station that never lost an attempt: no NAV, no retry, not doomed,
    and no collision, failure or retried success counted so far. *)
Definition soloOk (n : Node) (w : World) : Prop :=
  vcs n = 0 /\ nb n = 0 /\ isCurrentTxDoomed n = false
  /\ collisionCount (stats w) = 0 /\ failureCount (stats w) = 0
  /\ channelCollisionTicks (stats w) = 0
  /\ success2nd (stats w) = 0 /\ success3rd (stats w) = 0.

(** Two nodes in random mode with arrival probability one. *)
Definition scenarioSaturated : SimConfig :=
  {| slotDurationUs := 100; dataSlots := 3; ackSlots := 2; collisionPenalty := 40;
     pe := 0; minBe := 0; maxBe := 2; maxNb := 1; nodeCount := 2;
     packetGenMode := RANDOM; packetProb := 1%Q; packetInterval := 100;
     simDuration := 60 |}.

(** A cell as the viewer expects it: flagged exactly when its label is
    [COLLISION], and carrying a number exactly when it is a back-off
    cell. *)
Definition cellWf (c : TimelineCell) : Prop :=
  (isCollision c = true <-> cellState c = COLLISION)
  /\ (info c = None <-> ~ isBackoffLabel (cellState c)).

(** The counters shown by the statistics panel are not negative. *)
Definition countersOk (s : SimStats) : Prop :=
  0 <= success1st s /\ 0 <= success2nd s /\ 0 <= success3rd s
  /\ 0 <= failureCount s /\ 0 <= collisionCount s /\ 0 <= totalLatency s
  /\ 0 <= channelIdleTicks s /\ 0 <= channelTxTicks s
  /\ 0 <= channelCollisionTicks s /\ 0 <= channelBackoffTicks s.

(** During tick [t] no queue holds a birth tick after [t]. *)
Definition pastQueues (t : Z) (ns : list Node) (w : World) : Prop :=
  Forall (fun n => Forall (fun b => b <= t) (packetQueue n)) ns
  /\ countersOk (stats w).

(** At the start of tick [t] the queue of a node holds birth ticks of
    earlier ticks, oldest first. *)
Definition queueAt (t : Z) (n : Node) : Prop :=
  StronglySorted Z.lt (packetQueue n)
  /\ Forall (fun b => 0 <= b < t) (packetQueue n).

(** ** Proof infrastructure *)

#[local] Arguments Qfloor : simpl never.
#[local] Arguments Qmult : simpl never.
#[local] Arguments inject_Z : simpl never.
#[local] Arguments Z.pow : simpl never.
#[local] Arguments Z.rem : simpl never.
#[local] Arguments showZ : simpl never.
#[local] Arguments String.app : simpl never.

Section ForEach.
Variable f : nat -> Node -> World -> Node * World.

Lemma forEachFrom_length idx ns w :
  length (forEachFrom f idx ns w).1 = length ns.
Proof.
  revert idx w. induction ns as [|n rest IH]; intros idx w; simpl; [done|].
  destruct (f idx n w) as [n' w'] eqn:E.
  specialize (IH (S idx) w').
  destruct (forEachFrom f (S idx) rest w') as [rest' w'']. simpl in *.
  by rewrite IH.
Qed.

(** An invariant of the world alone survives the iteration. *)
Lemma forEachFrom_world (P : World -> Prop) :
  (forall i n w, P w -> P (f i n w).2) ->
  forall ns idx w, P w -> P (forEachFrom f idx ns w).2.
Proof.
  intros Hf ns. induction ns as [|n rest IH]; intros idx w Hw; simpl; [done|].
  destruct (f idx n w) as [n' w'] eqn:E.
  assert (Hw' : P w') by (specialize (Hf idx n w Hw); by rewrite E in Hf).
  specialize (IH (S idx) w' Hw').
  by destruct (forEachFrom f (S idx) rest w') as [rest' w''].
Qed.

(** A world invariant together with a node-wise pre/post condition. *)
Lemma forEachFrom_inv (P : World -> Prop) (Q Q' : Node -> Prop) :
  (forall i n w, P w -> Q n -> P (f i n w).2 /\ Q' (f i n w).1) ->
  forall ns idx w, P w -> Forall Q ns ->
    P (forEachFrom f idx ns w).2 /\ Forall Q' (forEachFrom f idx ns w).1.
Proof.
  intros Hf ns. induction ns as [|n rest IH]; intros idx w Hw Hns; simpl.
  - by split.
  - inversion Hns as [|? ? Hn Hrest]; subst.
    destruct (Hf idx n w Hw Hn) as [Hw' Hn'].
    destruct (f idx n w) as [n' w'] eqn:E. simpl in *.
    destruct (IH (S idx) w' Hw' Hrest) as [Hw'' Hrest'].
    destruct (forEachFrom f (S idx) rest w') as [rest' w'']. simpl in *.
    split; [done|]. by constructor.
Qed.

(** The element at a position of the result is the callback applied to
    the element at that position, in some intermediate world. *)
Lemma forEachFrom_lookup ns idx w i n' :
  (forEachFrom f idx ns w).1 !! i = Some n' ->
  exists n wi, ns !! i = Some n /\ n' = (f (idx + i)%nat n wi).1.
Proof.
  revert idx w i. induction ns as [|n rest IH]; intros idx w i; simpl; [done|].
  destruct (f idx n w) as [n1 w1] eqn:E.
  specialize (IH (S idx) w1).
  destruct (forEachFrom f (S idx) rest w1) as [rest' w2]. simpl in *.
  destruct i as [|i]; simpl.
  - intros [= <-]. exists n, w. rewrite Nat.add_0_r, E. done.
  - intros Hi. destruct (IH i Hi) as (n0 & wi & Hn0 & ->).
    exists n0, wi. split; [done|]. by rewrite Nat.add_succ_r.
Qed.
End ForEach.

(** Two callbacks that agree on the nodes satisfying a preserved
    invariant give the same iteration. *)
Lemma forEachFrom_ext (I : Node -> Prop) f g :
  (forall i n w, I n -> f i n w = g i n w) ->
  forall ns idx w, Forall I ns -> forEachFrom f idx ns w = forEachFrom g idx ns w.
Proof.
  intros Hfg ns. induction ns as [|n rest IH]; intros idx w Hns; simpl; [done|].
  inversion Hns as [|? ? Hn Hrest]; subst.
  rewrite (Hfg idx n w Hn). destruct (g idx n w) as [n' w'].
  by rewrite (IH (S idx) w' Hrest).
Qed.

(** *** Statistics touched by each phase *)

Lemma markDoomed_stats t n w :
  bins (stats (markDoomed t n w).2) = bins (stats w)
  /\ successBuckets (stats (markDoomed t n w).2) = successBuckets (stats w)
  /\ successCount (stats (markDoomed t n w).2) = successCount (stats w).
Proof. unfold markDoomed. by destruct (isCurrentTxDoomed n). Qed.

Lemma navNode_world cfg t pa fa col pre idx n w :
  stats (navNode cfg t pa fa col pre idx n w).2 = stats w
  /\ timeline (navNode cfg t pa fa col pre idx n w).2 = timeline w
  /\ randomCalls (navNode cfg t pa fa col pre idx n w).2 = randomCalls w.
Proof.
  unfold navNode.
  destruct (isTxState (state n)); [done|].
  destruct pa; destruct (fa && negb col); simpl;
    repeat case_match; done.
Qed.

Lemma packetArrival_stats cfg rand t n w :
  bins (stats (packetArrival cfg rand t n w).2) = bins (stats w)
  /\ successBuckets (stats (packetArrival cfg rand t n w).2)
     = successBuckets (stats w)
  /\ successCount (stats (packetArrival cfg rand t n w).2)
     = successCount (stats w).
Proof.
  unfold packetArrival, mathRandom.
  destruct (packetGenMode cfg); simpl; case_match; done.
Qed.

Ltac unfold_transition :=
  unfold transition, generateBackoff, mathRandom, nextAfterPacket, shift,
    resetProtocolState, LEN_P, LEN_FC, LEN_RIFS, LEN_ACK_P, LEN_ACK_FC, LEN_DATA.

Lemma transition_bins cfg rand t busy n w cell :
  bins (stats (transition cfg rand t busy n w cell).1.2) = bins (stats w).
Proof.
  unfold_transition.
  destruct (state n); simpl; repeat case_match; simpl; done.
Qed.

Lemma transition_buckets cfg rand t busy n w cell :
  successBuckets (stats w) = successCount (stats w) ->
  successBuckets (stats (transition cfg rand t busy n w cell).1.2)
  = successCount (stats (transition cfg rand t busy n w cell).1.2).
Proof.
  intros H. unfold_transition.
  destruct (state n); simpl; repeat case_match; simpl; try done;
    unfold successBuckets in *; simpl; lia.
Qed.

Lemma fsmNode_bins cfg rand t busy col n w :
  bins (stats (fsmNode cfg rand t busy col n w).2) = bins (stats w).
Proof.
  unfold fsmNode.
  pose proof (packetArrival_stats cfg rand t n w) as (Ha & _ & _).
  destruct (packetArrival cfg rand t n w) as [n1 w1]. simpl in Ha.
  pose proof (transition_bins cfg rand t busy n1 w1 (state n, None)) as Ht.
  destruct (transition cfg rand t busy n1 w1 (state n, None)) as [[n2 w2] c2].
  simpl in *. congruence.
Qed.

Lemma fsmNode_buckets cfg rand t busy col n w :
  successBuckets (stats w) = successCount (stats w) ->
  successBuckets (stats (fsmNode cfg rand t busy col n w).2)
  = successCount (stats (fsmNode cfg rand t busy col n w).2).
Proof.
  intros H. unfold fsmNode.
  pose proof (packetArrival_stats cfg rand t n w) as (_ & Hb & Hc).
  destruct (packetArrival cfg rand t n w) as [n1 w1]. simpl in Hb, Hc.
  assert (H1 : successBuckets (stats w1) = successCount (stats w1)) by congruence.
  pose proof (transition_buckets cfg rand t busy n1 w1 (state n, None) H1) as Ht.
  destruct (transition cfg rand t busy n1 w1 (state n, None)) as [[n2 w2] c2].
  done.
Qed.

Lemma collisionPhase_world (P : SimStats -> Prop) t ns w :
  (forall n w, P (stats w) -> P (stats (markDoomed t n w).2)) ->
  P (stats w) -> P (stats (collisionPhase t ns w).2).
Proof.
  intros Hm Hw. unfold collisionPhase, forEach.
  destruct (collisionOccurring ns); [|done].
  apply (forEachFrom_world _ (fun w => P (stats w))); [|done].
  intros i n w0 Hw0. destruct (isTxState (state n)); [by apply Hm|done].
Qed.

Lemma navPhase_stats cfg t pa fa col ns w :
  stats (navPhase cfg t pa fa col ns w).2 = stats w.
Proof.
  unfold navPhase.
  apply (forEachFrom_world _ (fun w' => stats w' = stats w)); [|done].
  intros i n w0 Hw0. pose proof (navNode_world cfg t pa fa col (map vcs ns) i n w0) as (Hs & _).
  congruence.
Qed.

(** What a whole tick does to the statistics, phase by phase. *)
Lemma tickStep_phases cfg rand t ns w :
  exists ns1 w1 ns2 w2,
    collisionPhase t ns (updStats (channelStats ns) w) = (ns1, w1)
    /\ navPhase cfg t (isPreambleActive ns) (isFcActive ns)
         (collisionOccurring ns) ns1 w1 = (ns2, w2)
    /\ tickStep cfg rand t (ns, w)
       = forEach (fsmNode cfg rand t (physicalBusy ns) (collisionOccurring ns))
           ns2 w2.
Proof.
  unfold tickStep.
  destruct (collisionPhase t ns (updStats (channelStats ns) w)) as [ns1 w1] eqn:E1.
  destruct (navPhase cfg t (isPreambleActive ns) (isFcActive ns)
              (collisionOccurring ns) ns1 w1) as [ns2 w2] eqn:E2.
  exists ns1, w1, ns2, w2. split_and!; done.
Qed.

Lemma channelStats_bins ns s : bins (channelStats ns s) = bins s + 1.
Proof.
  unfold channelStats, bins. repeat case_match; simpl; lia.
Qed.

Lemma tickStep_bins cfg rand t st :
  bins (stats (tickStep cfg rand t st).2) = bins (stats st.2) + 1.
Proof.
  destruct st as [ns w].
  destruct (tickStep_phases cfg rand t ns w) as (ns1 & w1 & ns2 & w2 & H1 & H2 & ->).
  simpl. unfold forEach.
  transitivity (bins (stats w2)).
  { apply (forEachFrom_world _ (fun w' => bins (stats w') = bins (stats w2)));
      [|done].
    intros i n w0 Hw0. by rewrite fsmNode_bins. }
  pose proof (navPhase_stats cfg t (isPreambleActive ns) (isFcActive ns)
                (collisionOccurring ns) ns1 w1) as Hn.
  rewrite H2 in Hn. simpl in Hn. rewrite Hn.
  pose proof (collisionPhase_world
    (fun s => bins s = bins (channelStats ns (stats w))) t ns
    (updStats (channelStats ns) w)) as Hc.
  rewrite H1 in Hc. simpl in Hc. rewrite Hc.
  - apply channelStats_bins.
  - intros n w0 Hw0. by destruct (markDoomed_stats t n w0) as (-> & _).
  - done.
Qed.

Lemma simLoop_bins cfg rand k :
  bins (stats (simLoop cfg rand k).2) = Z.of_nat k.
Proof.
  induction k as [|k IH]; [done|].
  cbn [simLoop]. rewrite tickStep_bins, IH. lia.
Qed.

Lemma tickStep_buckets cfg rand t st :
  successBuckets (stats st.2) = successCount (stats st.2) ->
  successBuckets (stats (tickStep cfg rand t st).2)
  = successCount (stats (tickStep cfg rand t st).2).
Proof.
  destruct st as [ns w]. intros H. simpl in H.
  destruct (tickStep_phases cfg rand t ns w) as (ns1 & w1 & ns2 & w2 & H1 & H2 & ->).
  unfold forEach.
  apply (forEachFrom_world _
    (fun w' => successBuckets (stats w') = successCount (stats w'))).
  { intros i n w0 Hw0. by apply fsmNode_buckets. }
  pose proof (navPhase_stats cfg t (isPreambleActive ns) (isFcActive ns)
                (collisionOccurring ns) ns1 w1) as Hn.
  rewrite H2 in Hn. simpl in Hn. rewrite Hn.
  pose proof (collisionPhase_world
    (fun s => successBuckets s = successCount s) t ns
    (updStats (channelStats ns) w)) as Hc.
  rewrite H1 in Hc. simpl in Hc. apply Hc.
  - intros n w0 Hw0. destruct (markDoomed_stats t n w0) as (_ & -> & ->). done.
  - unfold channelStats, successBuckets in *. repeat case_match; simpl; lia.
Qed.

Lemma simLoop_buckets cfg rand k :
  successBuckets (stats (simLoop cfg rand k).2)
  = successCount (stats (simLoop cfg rand k).2).
Proof.
  induction k as [|k IH]; [done|].
  cbn [simLoop]. by apply tickStep_buckets.
Qed.

(** *** Invariants of the nodes and of the world across a tick *)

Lemma packetArrival_node cfg rand t n w :
  (packetArrival cfg rand t n w).1 = n
  \/ (packetArrival cfg rand t n w).1 = setPacketQueue (packetQueue n ++ [t]) n.
Proof.
  unfold packetArrival, mathRandom.
  destruct (packetGenMode cfg); simpl; case_match; auto.
Qed.

Lemma packetArrival_timeline cfg rand t n w :
  timeline (packetArrival cfg rand t n w).2 = timeline w.
Proof.
  unfold packetArrival, mathRandom.
  destruct (packetGenMode cfg); simpl; case_match; done.
Qed.

Lemma transition_timeline cfg rand t busy n w cell :
  timeline (transition cfg rand t busy n w cell).1.2 = timeline w.
Proof.
  unfold_transition.
  destruct (state n); simpl; repeat case_match; simpl; done.
Qed.

Section TickInvariant.
Variables (cfg : SimConfig) (rand : nat -> Q).
Variables (P : World -> Prop) (I : Node -> Prop).

Hypothesis Hstats : forall f w, P w -> P (updStats f w).
Hypothesis Hcol : forall t n w, P w -> I n ->
  P (markDoomed t n w).2 /\ I (markDoomed t n w).1.
Hypothesis Hnav : forall t pa fa col pre idx n w, P w -> I n ->
  P (navNode cfg t pa fa col pre idx n w).2
  /\ I (navNode cfg t pa fa col pre idx n w).1.
Hypothesis Hfsm : forall t busy col n w, P w -> I n ->
  P (fsmNode cfg rand t busy col n w).2
  /\ I (fsmNode cfg rand t busy col n w).1.

Lemma collisionPhase_inv t ns w :
  P w -> Forall I ns ->
  P (collisionPhase t ns w).2 /\ Forall I (collisionPhase t ns w).1.
Proof.
  intros Hw Hns. unfold collisionPhase, forEach.
  destruct (collisionOccurring ns); [|done].
  apply (forEachFrom_inv _ P I I); [|done..].
  intros i n w0 Hw0 Hn. destruct (isTxState (state n)); [by apply Hcol|done].
Qed.

Lemma tickStep_inv t st :
  P st.2 -> Forall I st.1 ->
  P (tickStep cfg rand t st).2 /\ Forall I (tickStep cfg rand t st).1.
Proof.
  destruct st as [ns w]. intros Hw Hns. simpl in Hw, Hns.
  destruct (tickStep_phases cfg rand t ns w)
    as (ns1 & w1 & ns2 & w2 & H1 & H2 & ->).
  pose proof (collisionPhase_inv t ns (updStats (channelStats ns) w)
                (Hstats _ _ Hw) Hns) as Hc.
  rewrite H1 in Hc. destruct Hc as [Hw1 Hns1]. simpl in Hw1, Hns1.
  assert (Hn : P w2 /\ Forall I ns2).
  { unfold navPhase in H2.
    pose proof (forEachFrom_inv
      (navNode cfg t (isPreambleActive ns) (isFcActive ns)
         (collisionOccurring ns) (map vcs ns1)) P I I) as Hx.
    specialize (Hx (fun i n w0 => Hnav t _ _ _ _ i n w0) ns1 0%nat w1 Hw1 Hns1).
    by rewrite H2 in Hx. }
  destruct Hn as [Hw2 Hns2].
  unfold forEach. apply (forEachFrom_inv _ P I I); [|done..].
  intros i n w0. apply Hfsm.
Qed.

Lemma simLoop_inv k :
  P (initWorld (initNodes cfg)) -> Forall I (initNodes cfg) ->
  P (simLoop cfg rand k).2 /\ Forall I (simLoop cfg rand k).1.
Proof.
  intros H0 H1. induction k as [|k [IHw IHn]]; [done|].
  cbn [simLoop]. by apply tickStep_inv.
Qed.
End TickInvariant.

Lemma initNodes_Forall cfg (I : Node -> Prop) :
  (forall i, I (newNode cfg i)) -> Forall I (initNodes cfg).
Proof.
  intros H. unfold initNodes. apply Forall_forall. intros n Hn.
  apply list_elem_of_fmap in Hn as (i & -> & _). apply H.
Qed.

Lemma app_singleton_nonempty (q : list Z) (t : Z) : q ++ [t] <> [].
Proof. by destruct q. Qed.

Lemma length_pos_nonempty (q : list Z) :
  (0 <? length q)%nat = true -> q <> [].
Proof. by destruct q. Qed.

Lemma transition_holdsPacket cfg rand t busy n w cell :
  holdsPacket n -> holdsPacket (transition cfg rand t busy n w cell).1.1.
Proof.
  unfold holdsPacket. intros H. unfold_transition.
  destruct (state n) eqn:Es; simpl;
    repeat (case_match; simpl in *; try done);
    intros; try (apply H; done);
    try (match goal with
         | Hl : (0 <? length ?q)%nat = true |- _ =>
             by apply (length_pos_nonempty q)
         end).
Qed.

Lemma fsmNode_holdsPacket cfg rand t busy col n w :
  holdsPacket n -> holdsPacket (fsmNode cfg rand t busy col n w).1.
Proof.
  intros H. unfold fsmNode.
  destruct (packetArrival_node cfg rand t n w) as [Ha|Ha];
    destruct (packetArrival cfg rand t n w) as [n1 w1]; simpl in Ha; subst n1.
  - pose proof (transition_holdsPacket cfg rand t busy n w1 (state n, None) H) as Ht.
    by destruct (transition cfg rand t busy n w1 (state n, None)) as [[n2 w2] c2].
  - assert (H1 : holdsPacket (setPacketQueue (packetQueue n ++ [t]) n)).
    { intros _ _. simpl. apply app_singleton_nonempty. }
    pose proof (transition_holdsPacket cfg rand t busy _ w1 (state n, None) H1) as Ht.
    by destruct (transition cfg rand t busy _ w1 (state n, None)) as [[n2 w2] c2].
Qed.

Lemma markDoomed_node t n w :
  (markDoomed t n w).1 = n \/ (markDoomed t n w).1 = setDoomed true n.
Proof. unfold markDoomed. destruct (isCurrentTxDoomed n); auto. Qed.

(** The NAV update touches nothing but [vcs]. *)
Lemma navNode_node cfg t pa fa col pre idx n w :
  exists v, (navNode cfg t pa fa col pre idx n w).1 = setVcs v n.
Proof.
  unfold navNode.
  destruct (isTxState (state n)).
  { exists (vcs n). by destruct n. }
  destruct pa, (fa && negb col); simpl; repeat case_match;
    first [ eexists; reflexivity | exists (vcs n); by destruct n ].
Qed.

Lemma simLoop_holdsPacket cfg rand k :
  Forall holdsPacket (simLoop cfg rand k).1.
Proof.
  apply (simLoop_inv cfg rand (fun _ => True) holdsPacket); try done.
  - intros t n w _ Hn. split; [done|].
    destruct (markDoomed_node t n w) as [-> | ->]; done.
  - intros t pa fa col pre idx n w _ Hn. split; [done|].
    destruct (navNode_node cfg t pa fa col pre idx n w) as [v ->]. done.
  - intros t busy col n w _ Hn. split; [done|]. by apply fsmNode_holdsPacket.
  - apply initNodes_Forall. intros i. by intros ?.
Qed.

(** *** Back-off draws *)

(** The integer part of a draw: [Math.floor(Math.random() * (max + 1))]. *)
Lemma draw_nonneg (r : Q) (b : Z) :
  (0 <= r)%Q -> 0 <= Qfloor (r * inject_Z (2 ^ b - 1 + 1)).
Proof.
  intros Hr.
  assert (Hm : 0 <= 2 ^ b - 1 + 1).
  { destruct (Z.le_gt_cases 0 b) as [Hb|Hb].
    - pose proof (Z.pow_nonneg 2 b ltac:(lia)). lia.
    - rewrite Z.pow_neg_r by lia. lia. }
  change 0 with (Qfloor 0). apply Qfloor_resp_le.
  apply Qmult_le_0_compat; [done|].
  change 0%Q with (inject_Z 0). by rewrite <- Zle_Qle.
Qed.

(** With exponent zero a draw from [[0, 1)] has integer part zero. *)
Lemma draw_be0 (r : Q) :
  (0 <= r)%Q -> (r < 1)%Q -> Qfloor (r * inject_Z (2 ^ 0 - 1 + 1)) = 0.
Proof.
  intros H0 H1. change (2 ^ 0 - 1 + 1) with 1.
  assert (E : (r * inject_Z 1 == r)%Q) by apply Qmult_1_r.
  rewrite E.
  pose proof (Qfloor_resp_le _ _ H0) as Hlo. change (Qfloor 0) with 0 in Hlo.
  assert (Hhi : Qfloor r < 1).
  { apply Z.lt_nge. intros Hc.
    apply (Qlt_not_le _ _ H1).
    apply Qle_trans with (inject_Z (Qfloor r)); [|apply Qfloor_le].
    change 1%Q with (inject_Z 1). by rewrite <- Zle_Qle. }
  lia.
Qed.

(** *** The back-off counter while backing off *)

Ltac bool_facts :=
  repeat match goal with
    | H : (_ <? _) = true |- _ => apply Z.ltb_lt in H
    | H : (_ <? _) = false |- _ => apply Z.ltb_ge in H
    | H : (_ <=? _) = true |- _ => apply Z.leb_le in H
    | H : (_ <=? _) = false |- _ => apply Z.leb_gt in H
    | H : (_ =? _) = true |- _ => apply Z.eqb_eq in H
    | H : (_ =? _) = false |- _ => apply Z.eqb_neq in H
    end.

Lemma transition_backoffOk cfg rand t busy n w :
  0 <= pe cfg -> (forall i, (0 <= rand i)%Q) ->
  backoffOk n ->
  backoffOk (transition cfg rand t busy n w (state n, None)).1.1
  /\ forall col,
       cellOk (visualCell col (transition cfg rand t busy n w (state n, None)).2).
Proof.
  intros Hpe Hrand H. unfold backoffOk, cellOk, isBackoffLabel, visualCell in *.
  pose proof (draw_nonneg (rand (randomCalls w)) (be n) (Hrand _)) as Hdraw.
  unfold_transition.
  destruct (state n) eqn:Es; simpl; repeat case_match; simpl;
    rewrite ?Es; bool_facts;
    (split;
     [ intros [?|?]; try done; try lia; try (apply H; auto; done)
     | intros col; destruct col; simpl; intros [?|?]; try done;
       eexists; (split; [reflexivity|]); try lia; try (apply H; auto; done) ]).
Qed.

Lemma pushCell_timelineOk i c w :
  timelineOk w -> cellOk c -> timelineOk (pushCell i c w).
Proof.
  intros Hw Hc j row. unfold pushCell. simpl. rewrite lookup_alter.
  case_decide; [|apply Hw]. subst j.
  destruct (timeline w !! i) as [r|] eqn:E; simpl; [|done].
  intros [= <-]. apply Forall_app. split; [by eapply Hw|].
  by constructor.
Qed.

Lemma packetArrival_state cfg rand t n w :
  state (packetArrival cfg rand t n w).1 = state n
  /\ backoffCounter (packetArrival cfg rand t n w).1 = backoffCounter n
  /\ txProgress (packetArrival cfg rand t n w).1 = txProgress n
  /\ be (packetArrival cfg rand t n w).1 = be n
  /\ vcs (packetArrival cfg rand t n w).1 = vcs n.
Proof. by destruct (packetArrival_node cfg rand t n w) as [-> | ->]. Qed.

Lemma fsmNode_backoffOk cfg rand t busy col n w :
  0 <= pe cfg -> (forall i, (0 <= rand i)%Q) ->
  timelineOk w -> backoffOk n ->
  timelineOk (fsmNode cfg rand t busy col n w).2
  /\ backoffOk (fsmNode cfg rand t busy col n w).1.
Proof.
  intros Hpe Hrand Hw Hn. unfold fsmNode.
  pose proof (packetArrival_state cfg rand t n w) as (Hs & Hc & _).
  pose proof (packetArrival_timeline cfg rand t n w) as Htl.
  destruct (packetArrival cfg rand t n w) as [n1 w1]. simpl in Hs, Hc, Htl.
  assert (Hn1 : backoffOk n1) by (unfold backoffOk in *; by rewrite Hs, Hc).
  rewrite <- Hs.
  pose proof (transition_backoffOk cfg rand t busy n1 w1 Hpe Hrand Hn1) as [Hb Hcell].
  pose proof (transition_timeline cfg rand t busy n1 w1 (state n1, None)) as Htl2.
  destruct (transition cfg rand t busy n1 w1 (state n1, None)) as [[n2 w2] c2].
  simpl in *. split; [|done].
  apply pushCell_timelineOk; [|done].
  intros j row. rewrite Htl2, Htl. apply Hw.
Qed.

Lemma initWorld_rows ns i row :
  timeline (initWorld ns) !! i = Some row -> row = [].
Proof.
  unfold initWorld. simpl.
  assert (G : forall (acc : gmap Z (list TimelineCell)),
             (forall j r, acc !! j = Some r -> r = []) ->
             forall j r, foldl (fun tl n => <[id n := []]> tl) acc ns !! j = Some r ->
                         r = []).
  { induction ns as [|n rest IH]; intros acc Hacc j r; simpl; [apply Hacc|].
    apply IH. intros j' r'. rewrite lookup_insert. case_decide; [|apply Hacc].
    by intros [= <-]. }
  apply G. intros j r. by rewrite lookup_empty.
Qed.

Lemma simLoop_backoffOk cfg rand k :
  0 <= pe cfg -> (forall i, (0 <= rand i)%Q) ->
  timelineOk (simLoop cfg rand k).2 /\ Forall backoffOk (simLoop cfg rand k).1.
Proof.
  intros Hpe Hrand.
  apply (simLoop_inv cfg rand timelineOk backoffOk).
  - intros f w Hw. exact Hw.
  - intros t n w Hw Hn. split.
    + unfold markDoomed. by destruct (isCurrentTxDoomed n).
    + destruct (markDoomed_node t n w) as [-> | ->]; done.
  - intros t pa fa col pre idx n w Hw Hn. split.
    + destruct (navNode_world cfg t pa fa col pre idx n w) as (_ & Htl & _).
      intros j row. rewrite Htl. apply Hw.
    + destruct (navNode_node cfg t pa fa col pre idx n w) as [v ->]. done.
  - intros t busy col n w Hw Hn. by apply fsmNode_backoffOk.
  - intros i row Hrow. apply initWorld_rows in Hrow as ->. constructor.
  - apply initNodes_Forall. intros i [?|?]; done.
Qed.

(** *** Frame progress never goes negative *)



(** *** How a label can become [TX_PREAMBLE] *)


Lemma collisionPhase_lookup t ns w i m :
  (collisionPhase t ns w).1 !! i = Some m ->
  exists n b, ns !! i = Some n /\ m = setDoomed b n.
Proof.
  unfold collisionPhase, forEach.
  destruct (collisionOccurring ns).
  - intros H. apply forEachFrom_lookup in H as (n & wi & Hn & ->).
    exists n. destruct (isTxState (state n)).
    + destruct (markDoomed_node t n wi) as [-> | ->].
      * exists (isCurrentTxDoomed n). split; [done|]. by destruct n.
      * by exists true.
    + exists (isCurrentTxDoomed n). split; [done|]. by destruct n.
  - simpl. intros H. exists m, (isCurrentTxDoomed m). split; [done|]. by destruct m.
Qed.

Lemma tickStep_lookup cfg rand t ns w i n' :
  (tickStep cfg rand t (ns, w)).1 !! i = Some n' ->
  exists n m wi,
    ns !! i = Some n /\ sameProtocol n m
    /\ n' = (fsmNode cfg rand t (physicalBusy ns) (collisionOccurring ns) m wi).1.
Proof.
  destruct (tickStep_phases cfg rand t ns w)
    as (ns1 & w1 & ns2 & w2 & H1 & H2 & ->).
  unfold forEach. intros H.
  apply forEachFrom_lookup in H as (m & wi & Hm & ->).
  assert (Hm' : (navPhase cfg t (isPreambleActive ns) (isFcActive ns)
                   (collisionOccurring ns) ns1 w1).1 !! i = Some m)
    by (by rewrite H2).
  unfold navPhase in Hm'.
  apply forEachFrom_lookup in Hm' as (m1 & wj & Hm1 & ->).
  assert (Hm1' : (collisionPhase t ns (updStats (channelStats ns) w)).1 !! i
                 = Some m1) by (by rewrite H1).
  apply collisionPhase_lookup in Hm1' as (n & b & Hn & ->).
  exists n. eexists. exists wi. split; [done|]. split; [|reflexivity].
  destruct (navNode_node cfg t (isPreambleActive ns) (isFcActive ns)
              (collisionOccurring ns) (map vcs ns1) (0 + i)%nat
              (setDoomed b n) wj) as [v ->].
  by exists v, b.
Qed.

(** *** The generator calls of a run *)

Lemma packetArrival_calls cfg rand t n w :
  randomCalls (packetArrival cfg rand t n w).2
  = match packetGenMode cfg with
    | RANDOM => S (randomCalls w)
    | INTERVAL => randomCalls w
    end.
Proof.
  unfold packetArrival, mathRandom.
  destruct (packetGenMode cfg); simpl; case_match; done.
Qed.

Lemma transition_calls cfg rand t busy n w cell :
  randomCalls (transition cfg rand t busy n w cell).1.2
  = match state n with
    | SENSING => if negb busy && (vcs n =? 0) then S (randomCalls w)
                 else randomCalls w
    | _ => randomCalls w
    end.
Proof.
  unfold_transition.
  destruct (state n); simpl; repeat case_match; simpl; done.
Qed.

Lemma packetArrival_ext cfg rand rand' t n w :
  (forall j, (randomCalls w <= j)%nat ->
             (j < randomCalls (packetArrival cfg rand t n w).2)%nat ->
             rand j = rand' j) ->
  packetArrival cfg rand t n w = packetArrival cfg rand' t n w.
Proof.
  rewrite packetArrival_calls. unfold packetArrival, mathRandom.
  destruct (packetGenMode cfg); [|done].
  intros H. rewrite (H (randomCalls w)); [done|lia..].
Qed.

Lemma transition_ext cfg rand rand' t busy n w cell :
  (forall j, (randomCalls w <= j)%nat ->
             (j < randomCalls (transition cfg rand t busy n w cell).1.2)%nat ->
             rand j = rand' j) ->
  transition cfg rand t busy n w cell = transition cfg rand' t busy n w cell.
Proof.
  rewrite transition_calls. unfold transition, generateBackoff, mathRandom.
  destruct (state n); try done.
  destruct (negb busy && (vcs n =? 0)); [|done].
  intros H. rewrite (H (randomCalls w)); [done|lia..].
Qed.

Lemma fsmNode_calls_mono cfg rand t busy col n w :
  (randomCalls w <= randomCalls (fsmNode cfg rand t busy col n w).2)%nat.
Proof.
  unfold fsmNode.
  pose proof (packetArrival_calls cfg rand t n w) as Ha.
  destruct (packetArrival cfg rand t n w) as [n1 w1]. simpl in Ha.
  pose proof (transition_calls cfg rand t busy n1 w1 (state n, None)) as Ht.
  destruct (transition cfg rand t busy n1 w1 (state n, None)) as [[n2 w2] c2].
  simpl in *.
  destruct (packetGenMode cfg), (state n1); repeat case_match; lia.
Qed.

Lemma fsmNode_ext cfg rand rand' t busy col n w :
  (forall j, (randomCalls w <= j)%nat ->
             (j < randomCalls (fsmNode cfg rand t busy col n w).2)%nat ->
             rand j = rand' j) ->
  fsmNode cfg rand t busy col n w = fsmNode cfg rand' t busy col n w.
Proof.
  unfold fsmNode. intros H.
  pose proof (packetArrival_calls cfg rand t n w) as Ha.
  pose proof (packetArrival_ext cfg rand rand' t n w) as Hae.
  destruct (packetArrival cfg rand t n w) as [n1 w1]. simpl in Ha, Hae.
  pose proof (transition_calls cfg rand t busy n1 w1 (state n, None)) as Ht.
  pose proof (transition_ext cfg rand rand' t busy n1 w1 (state n, None)) as Hte.
  destruct (transition cfg rand t busy n1 w1 (state n, None)) as [[n2 w2] c2].
  simpl in *.
  assert (Hw1 : (randomCalls w <= randomCalls w1)%nat)
    by (destruct (packetGenMode cfg); lia).
  assert (Hw2 : (randomCalls w1 <= randomCalls w2)%nat)
    by (destruct (state n1); repeat case_match; lia).
  rewrite <- Hae by (intros j ? ?; apply H; lia).
  rewrite <- Hte by (intros j ? ?; apply H; lia).
  done.
Qed.

Section ForEachRandom.
Variables (rand rand' : nat -> Q).
Variables (f g : nat -> Node -> World -> Node * World).
Hypothesis Hmono : forall i n w, (randomCalls w <= randomCalls (f i n w).2)%nat.
Hypothesis Hext : forall i n w,
  (forall j, (randomCalls w <= j)%nat -> (j < randomCalls (f i n w).2)%nat ->
             rand j = rand' j) ->
  f i n w = g i n w.

Lemma forEachFrom_calls_mono ns idx w :
  (randomCalls w <= randomCalls (forEachFrom f idx ns w).2)%nat.
Proof.
  revert idx w. induction ns as [|n rest IH]; intros idx w; simpl; [done|].
  pose proof (Hmono idx n w) as H1.
  destruct (f idx n w) as [n' w']. simpl in H1.
  specialize (IH (S idx) w').
  destruct (forEachFrom f (S idx) rest w') as [rest' w'']. simpl in *. lia.
Qed.

Lemma forEachFrom_rand_ext ns idx w :
  (forall j, (randomCalls w <= j)%nat ->
             (j < randomCalls (forEachFrom f idx ns w).2)%nat ->
             rand j = rand' j) ->
  forEachFrom f idx ns w = forEachFrom g idx ns w.
Proof.
  revert idx w. induction ns as [|n rest IH]; intros idx w; simpl; [done|].
  pose proof (Hmono idx n w) as H1.
  pose proof (Hext idx n w) as H2.
  destruct (f idx n w) as [n' w'] eqn:E. simpl in H1, H2.
  pose proof (forEachFrom_calls_mono rest (S idx) w') as H3.
  specialize (IH (S idx) w').
  destruct (forEachFrom f (S idx) rest w') as [rest' w''] eqn:E'.
  simpl in *. intros H.
  rewrite <- H2 by (intros j ? ?; apply H; lia).
  rewrite <- IH by (intros j ? ?; apply H; lia).
  done.
Qed.
End ForEachRandom.

Lemma collisionPhase_calls t ns w :
  randomCalls (collisionPhase t ns w).2 = randomCalls w.
Proof.
  unfold collisionPhase, forEach. destruct (collisionOccurring ns); [|done].
  apply (forEachFrom_world _ (fun w' => randomCalls w' = randomCalls w)); [|done].
  intros i n w0 Hw0. destruct (isTxState (state n)); [|done].
  unfold markDoomed. by destruct (isCurrentTxDoomed n).
Qed.

Lemma navPhase_calls cfg t pa fa col ns w :
  randomCalls (navPhase cfg t pa fa col ns w).2 = randomCalls w.
Proof.
  unfold navPhase.
  apply (forEachFrom_world _ (fun w' => randomCalls w' = randomCalls w)); [|done].
  intros i n w0 Hw0.
  destruct (navNode_world cfg t pa fa col (map vcs ns) i n w0) as (_ & _ & Hc).
  congruence.
Qed.

Lemma tickStep_calls_mono cfg rand t st :
  (randomCalls st.2 <= randomCalls (tickStep cfg rand t st).2)%nat.
Proof.
  destruct st as [ns w].
  destruct (tickStep_phases cfg rand t ns w)
    as (ns1 & w1 & ns2 & w2 & H1 & H2 & ->).
  pose proof (collisionPhase_calls t ns (updStats (channelStats ns) w)) as Hc.
  pose proof (navPhase_calls cfg t (isPreambleActive ns) (isFcActive ns)
                (collisionOccurring ns) ns1 w1) as Hn.
  rewrite H1 in Hc. rewrite H2 in Hn. simpl in *.
  unfold forEach.
  pose proof (forEachFrom_calls_mono
    (fun _ => fsmNode cfg rand t (physicalBusy ns) (collisionOccurring ns))
    (fun _ => fsmNode_calls_mono cfg rand t _ _) ns2 0%nat w2).
  lia.
Qed.

Lemma tickStep_ext cfg rand rand' t st :
  (forall j, (randomCalls st.2 <= j)%nat ->
             (j < randomCalls (tickStep cfg rand t st).2)%nat ->
             rand j = rand' j) ->
  tickStep cfg rand t st = tickStep cfg rand' t st.
Proof.
  destruct st as [ns w].
  destruct (tickStep_phases cfg rand t ns w)
    as (ns1 & w1 & ns2 & w2 & H1 & H2 & ->).
  destruct (tickStep_phases cfg rand' t ns w)
    as (ns1' & w1' & ns2' & w2' & H1' & H2' & ->).
  rewrite H1 in H1'. injection H1' as <- <-.
  rewrite H2 in H2'. injection H2' as <- <-.
  pose proof (collisionPhase_calls t ns (updStats (channelStats ns) w)) as Hc.
  pose proof (navPhase_calls cfg t (isPreambleActive ns) (isFcActive ns)
                (collisionOccurring ns) ns1 w1) as Hn.
  rewrite H1 in Hc. rewrite H2 in Hn. simpl in *.
  intros H. unfold forEach.
  apply (forEachFrom_rand_ext rand rand').
  - intros i n w0. apply fsmNode_calls_mono.
  - intros i n w0. apply fsmNode_ext.
  - intros j ? ?. apply H; [lia|done].
Qed.

Lemma simLoop_ext cfg rand rand' k :
  (forall j, (j < randomCalls (simLoop cfg rand k).2)%nat -> rand j = rand' j) ->
  simLoop cfg rand k = simLoop cfg rand' k.
Proof.
  induction k as [|k IH]; [done|].
  cbn [simLoop]. intros H.
  pose proof (tickStep_calls_mono cfg rand (Z.of_nat k) (simLoop cfg rand k)) as Hm.
  rewrite <- IH by (intros j ?; apply H; lia).
  apply tickStep_ext. intros j ? ?. by apply H.
Qed.

(** *** Runs that do not depend on the generator *)

Lemma zeroRand_valid : validRandom zeroRand.
Proof. intros i. split; [apply Qle_refl|reflexivity]. Qed.

Lemma prePhases_lookup cfg t pa fa col ns w ns1 w1 ns2 w2 i m :
  collisionPhase t ns w = (ns1, w1) ->
  navPhase cfg t pa fa col ns1 w1 = (ns2, w2) ->
  ns2 !! i = Some m ->
  exists n, ns !! i = Some n /\ sameProtocol n m.
Proof.
  intros H1 H2 Hm.
  assert (Hm' : (navPhase cfg t pa fa col ns1 w1).1 !! i = Some m)
    by (by rewrite H2).
  unfold navPhase in Hm'.
  apply forEachFrom_lookup in Hm' as (m1 & wj & Hm1 & ->).
  assert (Hm1' : (collisionPhase t ns w).1 !! i = Some m1) by (by rewrite H1).
  apply collisionPhase_lookup in Hm1' as (n & b & Hn & ->).
  exists n. split; [done|].
  destruct (navNode_node cfg t pa fa col (map vcs ns1) (0 + i)%nat
              (setDoomed b n) wj) as [v ->].
  by exists v, b.
Qed.

Lemma fsmNode_beZero cfg rand t busy col n w :
  minBe cfg = 0 -> maxBe cfg = 0 ->
  beZero n -> beZero (fsmNode cfg rand t busy col n w).1.
Proof.
  unfold beZero. intros Hmin Hmax Hn. unfold fsmNode.
  pose proof (packetArrival_state cfg rand t n w) as (_ & _ & _ & Hb & _).
  destruct (packetArrival cfg rand t n w) as [n1 w1]. simpl in Hb.
  assert (E : be (transition cfg rand t busy n1 w1 (state n, None)).1.1 = 0).
  { unfold_transition.
    destruct (state n1); simpl; repeat case_match; simpl; lia. }
  by destruct (transition cfg rand t busy n1 w1 (state n, None)) as [[n2 w2] c2].
Qed.

Lemma fsmNode_oblivious cfg rand rand' t busy col n w :
  packetGenMode cfg = INTERVAL ->
  validRandom rand -> validRandom rand' ->
  beZero n ->
  fsmNode cfg rand t busy col n w = fsmNode cfg rand' t busy col n w.
Proof.
  unfold beZero. intros Hmode Hr Hr' Hn. unfold fsmNode.
  pose proof (packetArrival_state cfg rand t n w) as (_ & _ & _ & Hb & _).
  assert (Ha : packetArrival cfg rand t n w = packetArrival cfg rand' t n w).
  { unfold packetArrival. by rewrite Hmode. }
  rewrite <- Ha.
  destruct (packetArrival cfg rand t n w) as [n1 w1]. simpl in Hb.
  assert (Ht : transition cfg rand t busy n1 w1 (state n, None)
               = transition cfg rand' t busy n1 w1 (state n, None)).
  { unfold transition, generateBackoff, mathRandom.
    destruct (state n1); try done.
    destruct (negb busy && (vcs n1 =? 0)); [|done].
    rewrite Hb, Hn.
    destruct (Hr (randomCalls w1)) as [? ?].
    destruct (Hr' (randomCalls w1)) as [? ?].
    by rewrite !draw_be0. }
  by rewrite Ht.
Qed.

Lemma simLoop_beZero cfg rand k :
  minBe cfg = 0 -> maxBe cfg = 0 -> Forall beZero (simLoop cfg rand k).1.
Proof.
  intros Hmin Hmax.
  apply (simLoop_inv cfg rand (fun _ => True) beZero); try done.
  - intros t n w _ Hn. split; [done|].
    destruct (markDoomed_node t n w) as [-> | ->]; done.
  - intros t pa fa col pre idx n w _ Hn. split; [done|].
    destruct (navNode_node cfg t pa fa col pre idx n w) as [v ->]. done.
  - intros t busy col n w _ Hn. split; [done|]. by apply fsmNode_beZero.
  - apply initNodes_Forall. intros i. unfold beZero. simpl. done.
Qed.

Lemma tickStep_oblivious cfg rand rand' t st :
  packetGenMode cfg = INTERVAL ->
  validRandom rand -> validRandom rand' ->
  Forall beZero st.1 ->
  tickStep cfg rand t st = tickStep cfg rand' t st.
Proof.
  destruct st as [ns w]. intros Hmode Hr Hr' Hns. simpl in Hns.
  destruct (tickStep_phases cfg rand t ns w)
    as (ns1 & w1 & ns2 & w2 & H1 & H2 & ->).
  destruct (tickStep_phases cfg rand' t ns w)
    as (ns1' & w1' & ns2' & w2' & H1' & H2' & ->).
  rewrite H1 in H1'. injection H1' as <- <-.
  rewrite H2 in H2'. injection H2' as <- <-.
  unfold forEach. apply (forEachFrom_ext beZero).
  - intros i n w0 Hn. by apply fsmNode_oblivious.
  - apply Forall_lookup. intros i m Hm.
    destruct (prePhases_lookup _ _ _ _ _ _ _ _ _ _ _ _ _ H1 H2 Hm)
      as (n & Hn & v & b & ->).
    rewrite Forall_lookup in Hns. by apply (Hns i n).
Qed.

Lemma simLoop_oblivious cfg rand rand' k :
  packetGenMode cfg = INTERVAL -> minBe cfg = 0 -> maxBe cfg = 0 ->
  validRandom rand -> validRandom rand' ->
  simLoop cfg rand k = simLoop cfg rand' k.
Proof.
  intros Hmode Hmin Hmax Hr Hr'.
  induction k as [|k IH]; [done|].
  cbn [simLoop]. rewrite <- IH.
  apply tickStep_oblivious; try done. by apply simLoop_beZero.
Qed.

(** *** The NAV phase, node by node *)

Lemma setVcs_same (n : Node) : setVcs (vcs n) n = n.
Proof. by destruct n. Qed.

Lemma navNode_spec cfg t pa fa col pre idx n w :
  pre !! idx = Some (vcs n) ->
  navNode cfg t pa fa col pre idx n w
  = (navSpecNode cfg pa fa col n,
     setLogs (logs w ++ navSpecLogs cfg t pa fa col n) w).
Proof.
  intros Hpre. unfold navNode, navSpecNode, navSpecLogs, navSpecValue.
  destruct (isTxState (state n)).
  { rewrite app_nil_r. by destruct w. }
  rewrite Hpre.
  unfold LEN_DATA, LEN_RIFS, LEN_ACK_P, LEN_ACK_FC.
  replace (dataSlots cfg + 1 + 1 + 1) with (dataSlots cfg + 3) by lia.
  destruct pa, (fa && negb col); simpl.
  - destruct (vcs n) eqn:Ev; simpl; repeat case_match; simpl;
      unfold log; simpl; rewrite <- ?app_assoc; simpl; done.
  - destruct (vcs n) eqn:Ev; simpl; repeat case_match; simpl;
      rewrite ?app_nil_r; unfold log; simpl; try done;
      rewrite <- ?Ev, ?setVcs_same; try done; by destruct w.
  - repeat case_match; simpl; unfold log; simpl; done.
  - rewrite app_nil_r. repeat case_match; rewrite ?setVcs_same; by destruct w.
Qed.

Lemma navPhase_from cfg t pa fa col pre rest idx w :
  (forall j n, rest !! j = Some n -> pre !! (idx + j)%nat = Some (vcs n)) ->
  forEachFrom (navNode cfg t pa fa col pre) idx rest w
  = (map (navSpecNode cfg pa fa col) rest,
     setLogs (logs w ++ flat_map (navSpecLogs cfg t pa fa col) rest) w).
Proof.
  revert idx w. induction rest as [|n rest IH]; intros idx w Hpre; simpl.
  { rewrite app_nil_r. by destruct w. }
  rewrite navNode_spec by (rewrite <- (Nat.add_0_r idx); by apply Hpre).
  rewrite IH.
  - simpl. by rewrite <- app_assoc.
  - intros j m Hj. replace (S idx + j)%nat with (idx + S j)%nat by lia.
    by apply (Hpre (S j)).
Qed.

Lemma navPhase_spec cfg t pa fa col ns w :
  navPhase cfg t pa fa col ns w
  = (map (navSpecNode cfg pa fa col) ns,
     setLogs (logs w ++ flat_map (navSpecLogs cfg t pa fa col) ns) w).
Proof.
  unfold navPhase. apply navPhase_from.
  intros j n Hj. simpl. by rewrite list_lookup_fmap, Hj.
Qed.

Lemma forEachFrom_proj {A} (proj : Node -> A) f :
  (forall i n w, proj (f i n w).1 = proj n) ->
  forall ns idx w, map proj (forEachFrom f idx ns w).1 = map proj ns.
Proof.
  intros Hf ns. induction ns as [|n rest IH]; intros idx w; simpl; [done|].
  pose proof (Hf idx n w) as H1.
  destruct (f idx n w) as [n' w']. simpl in H1.
  specialize (IH (S idx) w').
  destruct (forEachFrom f (S idx) rest w') as [rest' w'']. simpl in *.
  by rewrite H1, IH.
Qed.


(** *** A single node working on its first packet *)

(** With one node there is never a second transmitter and never a
    preamble or frame control to hear: a tick is the state machine step. *)
Lemma tickStep_solo cfg rand t n w :
  vcs n = 0 ->
  tickStep cfg rand t ([n], w)
  = ([(fsmNode cfg rand t (isTxState (state n)) false n
         (updStats (channelStats [n]) w)).1],
     (fsmNode cfg rand t (isTxState (state n)) false n
         (updStats (channelStats [n]) w)).2).
Proof.
  intros Hv.
  unfold tickStep, collisionPhase, navPhase, forEach, physicalBusy,
    collisionOccurring, isPreambleActive, isFcActive, transmitters.
  simpl. unfold navNode.
  destruct (isTxState (state n)) eqn:E; simpl; rewrite ?E; unfold Nat.ltb; simpl.
  - destruct (fsmNode cfg rand t true false n _) as [n' w']. done.
  - rewrite Hv. simpl.
    destruct (fsmNode cfg rand t false false n _) as [n' w']. done.
Qed.

Lemma channelStats_noSuccess ns s : noSuccess s -> noSuccess (channelStats ns s).
Proof. unfold channelStats, noSuccess. repeat case_match; simpl; done. Qed.

Section SingleNode.
Variables (cfg : SimConfig) (rand : nat -> Q).
Hypothesis Hmode : packetGenMode cfg = INTERVAL.

Ltac solo_start n w :=
  unfold firstPending, noSuccess;
  destruct n as [i s q v b e c p d], w as [l tl st r];
  simpl; intros (-> & -> & [rest ->] & Hsc & Hlat & H1st);
  intros; subst;
  unfold fsmNode, packetArrival; rewrite Hmode;
  destruct (intervalDue _ (packetInterval cfg));
  unfold_transition; unfold setPacketQueue, log, updStats; cbn.

Lemma solo_sensing t n w :
  firstPending n w -> state n = SENSING ->
  let c := Qfloor (rand (randomCalls w) * inject_Z (2 ^ be n - 1 + 1)) + pe cfg in
  let r := fsmNode cfg rand t false false n w in
  firstPending r.1 r.2
  /\ (c = 0 -> state r.1 = TX_PREAMBLE /\ txProgress r.1 = 0
               /\ isCurrentTxDoomed r.1 = false)
  /\ (c <> 0 -> state r.1 = BACKOFF /\ backoffCounter r.1 = c).
Proof.
  revert n w. intros n w. solo_start n w;
    unfold generateBackoff, mathRandom; simpl;
    destruct (Z.eqb_spec (Qfloor (rand r * inject_Z (2 ^ e - 1 + 1)) + pe cfg) 0);
    simpl; split_and!; eauto; try done.
Qed.

Lemma solo_backoff t n w :
  firstPending n w -> state n = BACKOFF ->
  let r := fsmNode cfg rand t false false n w in
  firstPending r.1 r.2
  /\ (1 < backoffCounter n ->
      state r.1 = BACKOFF /\ backoffCounter r.1 = backoffCounter n - 1)
  /\ (backoffCounter n <= 1 ->
      state r.1 = TX_PREAMBLE /\ txProgress r.1 = 0
      /\ isCurrentTxDoomed r.1 = false).
Proof.
  revert n w. intros n w. solo_start n w;
    destruct (Z.ltb_spec 1 c); simpl; split_and!; eauto; try done; lia.
Qed.

Lemma solo_frame t busy n w :
  firstPending n w -> isCurrentTxDoomed n = false ->
  1 <= dataSlots cfg -> 0 <= txProgress n ->
  let r := fsmNode cfg rand t busy false n w in
  (state n = TX_PREAMBLE ->
     firstPending r.1 r.2 /\ isCurrentTxDoomed r.1 = false
     /\ state r.1 = TX_FC /\ txProgress r.1 = 0)
  /\ (state n = TX_FC ->
     firstPending r.1 r.2 /\ isCurrentTxDoomed r.1 = false
     /\ state r.1 = TX_DATA /\ txProgress r.1 = 0)
  /\ (state n = TX_DATA -> txProgress n + 1 < dataSlots cfg ->
     firstPending r.1 r.2 /\ isCurrentTxDoomed r.1 = false
     /\ state r.1 = TX_DATA /\ txProgress r.1 = txProgress n + 1)
  /\ (state n = TX_DATA -> dataSlots cfg <= txProgress n + 1 ->
     firstPending r.1 r.2 /\ isCurrentTxDoomed r.1 = false
     /\ state r.1 = WAIT_RIFS /\ txProgress r.1 = 0)
  /\ (state n = WAIT_RIFS ->
     firstPending r.1 r.2 /\ isCurrentTxDoomed r.1 = false
     /\ state r.1 = RX_ACK /\ txProgress r.1 = 0)
  /\ (state n = RX_ACK -> txProgress n = 0 ->
     firstPending r.1 r.2 /\ isCurrentTxDoomed r.1 = false
     /\ state r.1 = RX_ACK /\ txProgress r.1 = 1)
  /\ (state n = RX_ACK -> txProgress n = 1 ->
     successCount (stats r.2) = 1 /\ success1st (stats r.2) = 1
     /\ totalLatency (stats r.2) = t).
Proof.
  revert n w. intros n w. solo_start n w;
    split_and!; intros; subst; cbn;
    repeat case_match; simplify_eq; cbn in *; bool_facts; split_and?;
    eauto; try done; try lia.
Qed.
End SingleNode.

Section FirstPacket.
Variables (cfg : SimConfig) (rand : nat -> Q).
Hypothesis Hmode : packetGenMode cfg = INTERVAL.
Hypothesis Hnodes : nodeCount cfg = 1.
Hypothesis Hinterval : packetInterval cfg <> 0.
Hypothesis Hdata : 1 <= dataSlots cfg.

Lemma solo_tick k n w :
  simLoop cfg rand k = ([n], w) -> firstPending n w ->
  simLoop cfg rand (S k)
  = ([(fsmNode cfg rand (Z.of_nat k) (isTxState (state n)) false n
         (updStats (channelStats [n]) w)).1],
     (fsmNode cfg rand (Z.of_nat k) (isTxState (state n)) false n
         (updStats (channelStats [n]) w)).2)
  /\ firstPending n (updStats (channelStats [n]) w).
Proof.
  intros Hk Hn. cbn [simLoop]. rewrite Hk.
  destruct Hn as (Hv & Hnb & Hq & Hs).
  split; [by apply tickStep_solo|].
  split_and!; try done. by apply channelStats_noSuccess.
Qed.

Lemma solo_after_arrival :
  soloAt cfg rand 1 (fun n w => state n = SENSING /\ be n = minBe cfg
                       /\ randomCalls w = 0%nat).
Proof.
  unfold soloAt. cbn [simLoop]. unfold initNodes. rewrite Hnodes.
  change (Z.to_nat 1) with 1%nat. cbn [seq map].
  rewrite tickStep_solo by done.
  eexists _, _. split; [reflexivity|].
  unfold fsmNode, packetArrival. rewrite Hmode.
  unfold intervalDue. destruct (Z.eqb_spec (packetInterval cfg) 0) as [|_]; [done|].
  change (Z.of_nat 0) with 0. rewrite Z.rem_0_l by done.
  cbn. unfold firstPending, noSuccess. cbn. split_and!; eauto.
Qed.

Lemma solo_backoff_done :
  0 <= firstBackoff cfg rand ->
  soloAt cfg rand (2 + Z.to_nat (firstBackoff cfg rand))
    (fun n w => state n = TX_PREAMBLE /\ txProgress n = 0
                /\ isCurrentTxDoomed n = false).
Proof.
  intros Hc.
  destruct solo_after_arrival as (n1 & w1 & H1 & Hp1 & Hs1 & Hb1 & Hr1).
  destruct (solo_tick 1 n1 w1 H1 Hp1) as [H2 Hp1'].
  rewrite Hs1 in H2. cbn [isTxState] in H2.
  pose proof (solo_sensing cfg rand Hmode (Z.of_nat 1) n1 _ Hp1' Hs1) as Hsense.
  cbn zeta in Hsense. cbn [randomCalls updStats setStats] in Hsense.
  rewrite Hr1, Hb1 in Hsense. fold (firstBackoff cfg rand) in Hsense.
  destruct Hsense as (Hp2 & Hzero & Hpos).
  destruct (Z.eq_dec (firstBackoff cfg rand) 0) as [E|E].
  { rewrite E. change (2 + Z.to_nat 0)%nat with 2%nat.
    eexists _, _. split; [exact H2|]. split; [done|]. by apply Hzero. }
  destruct (Hpos E) as [Hs2 Hc2].
  (* counting down from [j + 1] takes [j + 1] ticks *)
  assert (Hdown : forall (j k : nat) n w,
    simLoop cfg rand k = ([n], w) -> firstPending n w ->
    state n = BACKOFF -> backoffCounter n = Z.of_nat (S j) ->
    soloAt cfg rand (k + S j) (fun n w => state n = TX_PREAMBLE /\ txProgress n = 0
                                 /\ isCurrentTxDoomed n = false)).
  { induction j as [|j IH]; intros k n w Hk Hp Hs Hcnt.
    - destruct (solo_tick k n w Hk Hp) as [Hk' Hp'].
      rewrite Hs in Hk'. cbn [isTxState] in Hk'.
      destruct (solo_backoff cfg rand Hmode (Z.of_nat k) n _ Hp' Hs)
        as (Hp'' & _ & Hend).
      replace (k + 1)%nat with (S k) by lia.
      eexists _, _. split; [exact Hk'|]. split; [done|].
      apply Hend. lia.
    - destruct (solo_tick k n w Hk Hp) as [Hk' Hp'].
      rewrite Hs in Hk'. cbn [isTxState] in Hk'.
      destruct (solo_backoff cfg rand Hmode (Z.of_nat k) n _ Hp' Hs)
        as (Hp'' & Hcont & _).
      destruct Hcont as [Hs' Hc']; [lia|].
      replace (k + S (S j))%nat with (S k + S j)%nat by lia.
      eapply IH; [exact Hk'|done|done|]. rewrite Hc', Hcnt. lia. }
  replace (2 + Z.to_nat (firstBackoff cfg rand))%nat
    with (2 + S (Z.to_nat (firstBackoff cfg rand - 1)))%nat by lia.
  eapply Hdown; [exact H2|done|done|]. rewrite Hc2. lia.
Qed.

(** Stepping through the fixed part of the frame. *)
Lemma solo_frame_step k n w :
  simLoop cfg rand k = ([n], w) -> firstPending n w ->
  isCurrentTxDoomed n = false -> 0 <= txProgress n ->
  exists n' w',
    simLoop cfg rand (S k) = ([n'], w')
    /\ (state n = TX_PREAMBLE ->
          firstPending n' w' /\ isCurrentTxDoomed n' = false
          /\ state n' = TX_FC /\ txProgress n' = 0)
    /\ (state n = TX_FC ->
          firstPending n' w' /\ isCurrentTxDoomed n' = false
          /\ state n' = TX_DATA /\ txProgress n' = 0)
    /\ (state n = TX_DATA -> txProgress n + 1 < dataSlots cfg ->
          firstPending n' w' /\ isCurrentTxDoomed n' = false
          /\ state n' = TX_DATA /\ txProgress n' = txProgress n + 1)
    /\ (state n = TX_DATA -> dataSlots cfg <= txProgress n + 1 ->
          firstPending n' w' /\ isCurrentTxDoomed n' = false
          /\ state n' = WAIT_RIFS /\ txProgress n' = 0)
    /\ (state n = WAIT_RIFS ->
          firstPending n' w' /\ isCurrentTxDoomed n' = false
          /\ state n' = RX_ACK /\ txProgress n' = 0)
    /\ (state n = RX_ACK -> txProgress n = 0 ->
          firstPending n' w' /\ isCurrentTxDoomed n' = false
          /\ state n' = RX_ACK /\ txProgress n' = 1)
    /\ (state n = RX_ACK -> txProgress n = 1 ->
          successCount (stats w') = 1 /\ success1st (stats w') = 1
          /\ totalLatency (stats w') = Z.of_nat k).
Proof.
  intros Hk Hp Hd Hprog.
  destruct (solo_tick k n w Hk Hp) as [Hk' Hp'].
  eexists _, _. split; [exact Hk'|].
  exact (solo_frame cfg rand Hmode (Z.of_nat k) _ n _ Hp' Hd Hdata Hprog).
Qed.

Lemma solo_data_done k n w :
  simLoop cfg rand k = ([n], w) -> firstPending n w ->
  isCurrentTxDoomed n = false -> state n = TX_DATA -> txProgress n = 0 ->
  soloAt cfg rand (k + Z.to_nat (dataSlots cfg))
    (fun n w => state n = WAIT_RIFS /\ txProgress n = 0
                /\ isCurrentTxDoomed n = false).
Proof.
  assert (Hrun : forall (j k : nat) n w,
    simLoop cfg rand k = ([n], w) -> firstPending n w ->
    isCurrentTxDoomed n = false -> state n = TX_DATA ->
    0 <= txProgress n -> txProgress n + Z.of_nat (S j) = dataSlots cfg ->
    soloAt cfg rand (k + S j) (fun n w => state n = WAIT_RIFS /\ txProgress n = 0
                                 /\ isCurrentTxDoomed n = false)).
  { clear k n w.
    induction j as [|j IH]; intros k n w Hk Hp Hd Hs Hprog Hrem;
      destruct (solo_frame_step k n w Hk Hp Hd Hprog)
        as (n' & w' & Hk' & _ & _ & Hcont & Hend & _).
    - replace (k + 1)%nat with (S k) by lia.
      destruct (Hend Hs) as (? & ? & ? & ?); [lia|].
      by exists n', w'.
    - destruct (Hcont Hs) as (? & ? & ? & Hp'); [lia|].
      replace (k + S (S j))%nat with (S k + S j)%nat by lia.
      eapply IH; try done; lia. }
  intros Hk Hp Hd Hs Hprog.
  replace (Z.to_nat (dataSlots cfg)) with (S (Z.to_nat (dataSlots cfg - 1)))
    by lia.
  eapply Hrun; try done; lia.
Qed.

(** The first packet is acknowledged during tick
    [firstBackoff + dataSlots + 6], and not before. *)
Lemma first_packet_success :
  0 <= firstBackoff cfg rand ->
  let T := (Z.to_nat (firstBackoff cfg rand) + Z.to_nat (dataSlots cfg) + 6)%nat in
  successCount (stats (simLoop cfg rand T).2) = 0
  /\ successCount (stats (simLoop cfg rand (S T)).2) = 1
  /\ success1st (stats (simLoop cfg rand (S T)).2) = 1
  /\ totalLatency (stats (simLoop cfg rand (S T)).2) = Z.of_nat T.
Proof.
  intros Hc T.
  destruct (solo_backoff_done Hc) as (n0 & w0 & H0 & Hp0 & Hs0 & Hg0 & Hd0).
  destruct (solo_frame_step _ n0 w0 H0 Hp0 Hd0 ltac:(lia))
    as (n1 & w1 & H1 & Hx & _).
  destruct (Hx Hs0) as (Hp1 & Hd1 & Hs1 & Hg1). clear Hx.
  destruct (solo_frame_step _ n1 w1 H1 Hp1 Hd1 ltac:(lia))
    as (n2 & w2 & H2 & _ & Hx & _).
  destruct (Hx Hs1) as (Hp2 & Hd2 & Hs2 & Hg2). clear Hx.
  destruct (solo_data_done _ n2 w2 H2 Hp2 Hd2 Hs2 Hg2)
    as (n3 & w3 & H3 & Hp3 & Hs3 & Hg3 & Hd3).
  destruct (solo_frame_step _ n3 w3 H3 Hp3 Hd3 ltac:(lia))
    as (n4 & w4 & H4 & _ & _ & _ & _ & Hx & _).
  destruct (Hx Hs3) as (Hp4 & Hd4 & Hs4 & Hg4). clear Hx.
  destruct (solo_frame_step _ n4 w4 H4 Hp4 Hd4 ltac:(lia))
    as (n5 & w5 & H5 & _ & _ & _ & _ & _ & Hx & _).
  destruct (Hx Hs4 Hg4) as (Hp5 & Hd5 & Hs5 & Hg5). clear Hx.
  destruct (solo_frame_step _ n5 w5 H5 Hp5 Hd5 ltac:(lia))
    as (n6 & w6 & H6 & _ & _ & _ & _ & _ & _ & Hx).
  destruct (Hx Hs5 Hg5) as (Hsc & H1st & Hlat). clear Hx.
  assert (ET : S (S (S (S (2 + Z.to_nat (firstBackoff cfg rand)))
                     + Z.to_nat (dataSlots cfg))) = T) by (unfold T; lia).
  rewrite ET in H5, H6. rewrite H5, H6. cbn [snd].
  destruct Hp5 as (_ & _ & _ & Hns & _).
  split_and!; try done. rewrite Hlat. lia.
Qed.
End FirstPacket.

(** *** The result record *)

Lemma runSimulation_unfold cfg rand :
  runSimulation cfg rand
  = {| res_timeline := timeline (simLoop cfg rand (Z.to_nat (simDuration cfg))).2;
       res_logs := logs (simLoop cfg rand (Z.to_nat (simDuration cfg))).2;
       res_stats := stats (simLoop cfg rand (Z.to_nat (simDuration cfg))).2;
       duration := simDuration cfg |}.
Proof.
  unfold runSimulation.
  by destruct (simLoop cfg rand (Z.to_nat (simDuration cfg))) as [ns w].
Qed.

Lemma runSimulation_oblivious cfg rand rand' :
  packetGenMode cfg = INTERVAL -> minBe cfg = 0 -> maxBe cfg = 0 ->
  validRandom rand -> validRandom rand' ->
  runSimulation cfg rand = runSimulation cfg rand'.
Proof.
  intros. unfold runSimulation. by rewrite (simLoop_oblivious cfg rand rand').
Qed.

(** *** The four bins, one by one *)

Lemma channelStats_binsOf ns s :
  binsOf (channelStats ns s) = bumpBin (classifySpec ns) (binsOf s).
Proof.
  unfold channelStats, classifySpec, collisionOccurring, physicalBusy,
    backingOff, transmitters, rifsWaiters, binsOf.
  repeat case_match; simpl; done.
Qed.

Lemma fsmNode_binsOf cfg rand t busy col n w :
  binsOf (stats (fsmNode cfg rand t busy col n w).2) = binsOf (stats w).
Proof.
  unfold fsmNode.
  assert (Ha : binsOf (stats (packetArrival cfg rand t n w).2) = binsOf (stats w)).
  { unfold packetArrival, mathRandom.
    destruct (packetGenMode cfg); simpl; case_match; done. }
  destruct (packetArrival cfg rand t n w) as [n1 w1]. simpl in Ha.
  assert (Ht : binsOf (stats (transition cfg rand t busy n1 w1 (state n, None)).1.2)
               = binsOf (stats w1)).
  { unfold_transition.
    destruct (state n1); simpl; repeat case_match; simpl; done. }
  destruct (transition cfg rand t busy n1 w1 (state n, None)) as [[n2 w2] c2].
  simpl in *. congruence.
Qed.

Lemma tickStep_binsOf cfg rand t ns w :
  binsOf (stats (tickStep cfg rand t (ns, w)).2)
  = bumpBin (classifySpec ns) (binsOf (stats w)).
Proof.
  destruct (tickStep_phases cfg rand t ns w) as (ns1 & w1 & ns2 & w2 & H1 & H2 & ->).
  unfold forEach.
  transitivity (binsOf (stats w2)).
  { apply (forEachFrom_world _ (fun w' => binsOf (stats w') = binsOf (stats w2)));
      [|done].
    intros i n w0 Hw0. by rewrite fsmNode_binsOf. }
  pose proof (navPhase_stats cfg t (isPreambleActive ns) (isFcActive ns)
                (collisionOccurring ns) ns1 w1) as Hn.
  rewrite H2 in Hn. simpl in Hn. rewrite Hn.
  pose proof (collisionPhase_world
    (fun s => binsOf s = binsOf (channelStats ns (stats w))) t ns
    (updStats (channelStats ns) w)) as Hc.
  rewrite H1 in Hc. simpl in Hc. rewrite Hc.
  - apply channelStats_binsOf.
  - intros n w0 Hw0. unfold markDoomed. by destruct (isCurrentTxDoomed n).
  - done.
Qed.

(** ** The claims *)

(** C1.  At the end of every run the four channel-utilisation bins add up
    to [simDuration]; every tick increments exactly one bin, chosen on the
    labels at the start of the tick by the priority collision, then
    physical-busy-or-RIFS, then back-off, else idle. *)
Theorem channel_bins_partition cfg rand :
  0 <= simDuration cfg ->
  channelIdleTicks (res_stats (runSimulation cfg rand))
  + channelTxTicks (res_stats (runSimulation cfg rand))
  + channelCollisionTicks (res_stats (runSimulation cfg rand))
  + channelBackoffTicks (res_stats (runSimulation cfg rand))
  = simDuration cfg
  /\ forall k,
       binsOf (stats (simLoop cfg rand (S k)).2)
       = bumpBin (classifySpec (simLoop cfg rand k).1)
                 (binsOf (stats (simLoop cfg rand k).2)).
Proof.
  intros Hd. split.
  - rewrite runSimulation_unfold. cbn [res_stats].
    pose proof (simLoop_bins cfg rand (Z.to_nat (simDuration cfg))) as H.
    unfold bins in H. lia.
  - intros k. cbn [simLoop].
    destruct (simLoop cfg rand k) as [ns w]. apply tickStep_binsOf.
Qed.

(** C1 (witness): scenario 3, forty ticks. *)
Lemma channel_bins_partition_witness :
  0 <= simDuration scenario3
  /\ channelIdleTicks (res_stats (runSimulation scenario3 zeroRand))
     + channelTxTicks (res_stats (runSimulation scenario3 zeroRand))
     + channelCollisionTicks (res_stats (runSimulation scenario3 zeroRand))
     + channelBackoffTicks (res_stats (runSimulation scenario3 zeroRand))
     = simDuration scenario3.
Proof.
  split; [vm_compute; discriminate|].
  apply (channel_bins_partition scenario3 zeroRand). vm_compute. discriminate.
Defined.

(** C2 (counterexample).  The generator is not an input of the engine:
    the same configuration gives different statistics on two legitimate
    behaviours of [Math.random()]. *)
Lemma determinism_counterexample :
  validRandom zeroRand /\ validRandom highRand
  /\ res_stats (runSimulation scenarioRandom zeroRand)
     <> res_stats (runSimulation scenarioRandom highRand).
Proof.
  split; [apply zeroRand_valid|]. split.
  - intros i. split; vm_compute; [discriminate|reflexivity].
  - vm_compute. discriminate.
Qed.

(** C2 (amended).  [runSimulation] takes the configuration only and
    draws from the host generator; two runs of one configuration return
    the same timeline, logs and statistics whenever the generator returns
    the same values on the calls the run makes. *)
Theorem runs_agree_on_consumed_draws cfg rand rand' :
  (forall j,
     (j < randomCalls (simLoop cfg rand (Z.to_nat (simDuration cfg))).2)%nat ->
     rand j = rand' j) ->
  runSimulation cfg rand = runSimulation cfg rand'.
Proof.
  intros H. unfold runSimulation. by rewrite (simLoop_ext cfg rand rand').
Qed.

(** C2 (witness): the pause scenario makes two calls; two generators that
    differ from the third call on give the same result. *)
Lemma runs_agree_on_consumed_draws_witness :
  (forall j,
     (j < randomCalls (simLoop scenarioPause pauseRand
                         (Z.to_nat (simDuration scenarioPause))).2)%nat ->
     pauseRand j = pauseRandTail j)
  /\ runSimulation scenarioPause pauseRand
     = runSimulation scenarioPause pauseRandTail.
Proof.
  assert (H : forall j,
     (j < randomCalls (simLoop scenarioPause pauseRand
                         (Z.to_nat (simDuration scenarioPause))).2)%nat ->
     pauseRand j = pauseRandTail j).
  { intros j.
    assert (E : randomCalls (simLoop scenarioPause pauseRand
                  (Z.to_nat (simDuration scenarioPause))).2 = 2%nat)
      by (vm_compute; reflexivity).
    rewrite E.
    destruct j as [|[|j]]; [reflexivity|reflexivity|lia]. }
  split; [exact H|].
  exact (runs_agree_on_consumed_draws scenarioPause pauseRand pauseRandTail H).
Defined.

(** C3 (counterexample).  In scenario 1 a packet is generated at tick [0],
    because [0 % 100 === 0]. *)
Lemma trivial_idle_counterexample :
  ~ (totalPacketsGenerated (res_stats (runSimulation scenario1 zeroRand)) = 0
     /\ channelIdleTicks (res_stats (runSimulation scenario1 zeroRand)) = 10).
Proof. vm_compute. intros [H _]. discriminate H. Qed.

(** C3 (amended).  In scenario 1 one packet is generated at tick [0]; the
    node senses at tick 1, backs off for two ticks and transmits from
    tick 4 on, so the run has 2 idle, 2 back-off and 6 transmit ticks, no
    collision tick, no success and no failure. *)
Theorem trivial_idle_run cp mn sd ack pp rand :
  validRandom rand ->
  res_stats (runSimulation (scenario1With cp mn sd ack pp) rand)
  = {| totalPacketsGenerated := 1; successCount := 0; success1st := 0;
       success2nd := 0; success3rd := 0; failureCount := 0;
       collisionCount := 0; totalLatency := 0; maxQueueDepth := 1;
       channelIdleTicks := 2; channelTxTicks := 6;
       channelCollisionTicks := 0; channelBackoffTicks := 2 |}
  /\ res_timeline (runSimulation (scenario1With cp mn sd ack pp) rand) !! 0
     = Some [ {| cellState := IDLE; info := None; isCollision := false |};
              {| cellState := SENSING; info := None; isCollision := false |};
              {| cellState := BACKOFF; info := Some 2; isCollision := false |};
              {| cellState := BACKOFF; info := Some 1; isCollision := false |};
              {| cellState := TX_PREAMBLE; info := None; isCollision := false |};
              {| cellState := TX_FC; info := None; isCollision := false |};
              {| cellState := TX_DATA; info := None; isCollision := false |};
              {| cellState := TX_DATA; info := None; isCollision := false |};
              {| cellState := TX_DATA; info := None; isCollision := false |};
              {| cellState := TX_DATA; info := None; isCollision := false |} ].
Proof.
  intros Hr.
  rewrite (runSimulation_oblivious (scenario1With cp mn sd ack pp) rand zeroRand
             eq_refl eq_refl eq_refl Hr zeroRand_valid).
  split; vm_compute; reflexivity.
Qed.

(** C3 (witness): scenario 1 with the generator that returns [0]. *)
Lemma trivial_idle_run_witness :
  validRandom zeroRand
  /\ channelIdleTicks (res_stats (runSimulation scenario1 zeroRand)) = 2.
Proof.
  split; [exact zeroRand_valid|].
  pose proof (trivial_idle_run 40 4 100 2 0%Q zeroRand zeroRand_valid) as [H _].
  fold scenario1 in H. rewrite H. reflexivity.
Defined.

(** C4 (counterexample).  In scenario 2 the acknowledgement completes
    during tick 16, not tick 15: the total latency is not 15. *)
Lemma first_packet_latency_counterexample :
  totalLatency (res_stats (runSimulation scenario2 zeroRand)) <> 15.
Proof. vm_compute. discriminate. Qed.

(** C4 (amended).  In a single-node [INTERVAL] run the first packet is
    born at tick 0, the node leaves [IDLE] during tick 0 and senses during
    tick 1, so the first success is recorded with latency
    [pe + draw + (3 + dataSlots + 2) + 1], and not before.  In scenario 2
    this gives [success1st = 1] and [totalLatency = 16], the frame
    occupying ticks 2..16 of the timeline. *)
Theorem first_packet_latency :
  (forall cfg rand,
     packetGenMode cfg = INTERVAL -> nodeCount cfg = 1 ->
     packetInterval cfg <> 0 -> 1 <= dataSlots cfg ->
     let draw := Qfloor (rand 0%nat * inject_Z (2 ^ minBe cfg - 1 + 1)) in
     0 <= draw + pe cfg ->
     let latency := pe cfg + draw + (3 + dataSlots cfg + 2) + 1 in
     successCount (stats (simLoop cfg rand (Z.to_nat latency)).2) = 0
     /\ successCount (stats (simLoop cfg rand (S (Z.to_nat latency))).2) = 1
     /\ success1st (stats (simLoop cfg rand (S (Z.to_nat latency))).2) = 1
     /\ totalLatency (stats (simLoop cfg rand (S (Z.to_nat latency))).2)
        = latency)
  /\ (forall sd ack pp rand,
        validRandom rand ->
        success1st (res_stats (runSimulation (scenario2With sd ack pp) rand)) = 1
        /\ totalLatency (res_stats (runSimulation (scenario2With sd ack pp) rand))
           = 16
        /\ (map cellState
              <$> res_timeline (runSimulation (scenario2With sd ack pp) rand) !! 0)
           = Some ([IDLE; SENSING; TX_PREAMBLE; TX_FC] ++ replicate 10 TX_DATA
                   ++ [WAIT_RIFS; RX_ACK; RX_ACK] ++ replicate 33 IDLE)).
Proof.
  split.
  - intros cfg rand Hmode Hnodes Hpi Hd draw Hc latency.
    pose proof (first_packet_success cfg rand Hmode Hnodes Hpi Hd Hc) as H.
    cbn zeta in H. unfold firstBackoff in H. fold draw in H.
    replace (Z.to_nat (draw + pe cfg) + Z.to_nat (dataSlots cfg) + 6)%nat
      with (Z.to_nat latency) in H by (unfold latency; lia).
    destruct H as (H0 & H1 & H2 & H3). split_and!; try done.
    rewrite H3. unfold latency. lia.
  - intros sd ack pp rand Hr.
    rewrite (runSimulation_oblivious (scenario2With sd ack pp) rand zeroRand
               eq_refl eq_refl eq_refl Hr zeroRand_valid).
    split_and!; vm_compute; reflexivity.
Qed.

(** C4 (witness): scenario 2, through the scenario and through the
    general law at seventeen ticks. *)
Lemma first_packet_latency_witness :
  validRandom zeroRand
  /\ totalLatency (res_stats (runSimulation scenario2 zeroRand)) = 16
  /\ totalLatency (stats (simLoop scenario2 zeroRand 17).2) = 16.
Proof.
  split; [exact zeroRand_valid|]. split.
  - exact (proj1 (proj2 (proj2 first_packet_latency 100 2 0%Q zeroRand
                           zeroRand_valid))).
  - pose proof (proj1 first_packet_latency scenario2 zeroRand eq_refl eq_refl
                  ltac:(discriminate) ltac:(vm_compute; discriminate)
                  ltac:(vm_compute; discriminate)) as H.
    exact (proj2 (proj2 (proj2 H))).
Defined.

(** C5.  In scenario 3 both nodes transmit in lockstep and collide: two
    failures, no success, two collision events (one per node for the one
    attempt), and a [DROP] log entry for each node. *)
Theorem lockstep_collision cp sd ack pp rand :
  validRandom rand ->
  let r := runSimulation (scenario3With cp sd ack pp) rand in
  failureCount (res_stats r) = 2
  /\ successCount (res_stats r) = 0
  /\ collisionCount (res_stats r) = 2
  /\ length (logsOf LOG_COLLISION 0 (res_logs r)) = 1%nat
  /\ length (logsOf LOG_COLLISION 1 (res_logs r)) = 1%nat
  /\ (1 <= length (logsOf DROP 0 (res_logs r)))%nat
  /\ (1 <= length (logsOf DROP 1 (res_logs r)))%nat.
Proof.
  intros Hr r. unfold r.
  rewrite (runSimulation_oblivious (scenario3With cp sd ack pp) rand zeroRand
             eq_refl eq_refl eq_refl Hr zeroRand_valid).
  split_and!; vm_compute; (reflexivity || lia).
Qed.

(** C5 (witness): scenario 3 with the generator that returns [0]. *)
Lemma lockstep_collision_witness :
  validRandom zeroRand
  /\ failureCount (res_stats (runSimulation scenario3 zeroRand)) = 2.
Proof.
  split; [exact zeroRand_valid|].
  exact (proj1 (lockstep_collision 40 100 2 0%Q zeroRand zeroRand_valid)).
Defined.

(** *** The retry count is never negative *)

Lemma simLoop_nbOk cfg rand k : Forall nbOk (simLoop cfg rand k).1.
Proof.
  apply (simLoop_inv cfg rand (fun _ => True) nbOk); try done.
  - intros t n w _ Hn. split; [done|].
    destruct (markDoomed_node t n w) as [-> | ->]; done.
  - intros t pa fa col pre idx n w _ Hn. split; [done|].
    destruct (navNode_node cfg t pa fa col pre idx n w) as [v ->]. done.
  - intros t busy col n w _ Hn. split; [done|]. unfold fsmNode.
    assert (Ha : nbOk (packetArrival cfg rand t n w).1)
      by (by destruct (packetArrival_node cfg rand t n w) as [-> | ->]).
    destruct (packetArrival cfg rand t n w) as [n1 w1]. simpl in Ha.
    assert (Ht : nbOk (transition cfg rand t busy n1 w1 (state n, None)).1.1).
    { unfold nbOk in *. unfold_transition.
      destruct (state n1); simpl; repeat case_match; simpl; lia. }
    by destruct (transition cfg rand t busy n1 w1 (state n, None)) as [[n2 w2] c2].
  - apply initNodes_Forall. intros i. unfold nbOk. simpl. lia.
Qed.

(** C6.  At the end of every run the three success buckets add up to
    [successCount]: a step that completes an acknowledged transaction
    increments [successCount] and exactly the bucket chosen by [nb]
    ([0], [1], or at least [2]); no other step touches these counters;
    and [nb] is never negative. *)
Theorem success_buckets_sum cfg rand :
  success1st (res_stats (runSimulation cfg rand))
  + success2nd (res_stats (runSimulation cfg rand))
  + success3rd (res_stats (runSimulation cfg rand))
  = successCount (res_stats (runSimulation cfg rand))
  /\ (forall k, Forall (fun n => 0 <= nb n) (simLoop cfg rand k).1)
  /\ (forall t busy n w cell,
        let s0 := stats w in
        let s1 := stats (transition cfg rand t busy n w cell).1.2 in
        let hit (b : bool) : Z := if b then 1 else 0 in
        if completesAck n then
          successCount s1 = successCount s0 + 1
          /\ success1st s1 = success1st s0 + hit (nb n =? 0)
          /\ success2nd s1 = success2nd s0 + hit (nb n =? 1)
          /\ success3rd s1
             = success3rd s0 + hit (negb (nb n =? 0) && negb (nb n =? 1))
        else
          successCount s1 = successCount s0
          /\ success1st s1 = success1st s0
          /\ success2nd s1 = success2nd s0
          /\ success3rd s1 = success3rd s0).
Proof.
  split_and!.
  - rewrite runSimulation_unfold. cbn [res_stats].
    apply (simLoop_buckets cfg rand (Z.to_nat (simDuration cfg))).
  - intros k. apply simLoop_nbOk.
  - intros t busy n w cell. cbv zeta. unfold completesAck.
    unfold_transition.
    destruct (state n) eqn:Es; simpl; repeat case_match; simpl in *;
      bool_facts; try done; try lia; split_and!; lia.
Qed.





(** C9.  At every tick boundary a node whose label is neither [IDLE] nor
    [FAILED] has a non-empty queue; every state machine step of a run
    works on such a node; and on such a node the dequeue of an
    acknowledged transaction yields a birth tick, which is added to
    [totalLatency]. *)
Theorem active_node_holds_packet cfg rand k :
  Forall (fun n => state n <> IDLE -> state n <> FAILED -> packetQueue n <> [])
         (simLoop cfg rand k).1
  /\ (forall i n',
        (simLoop cfg rand (S k)).1 !! i = Some n' ->
        exists m wi busy col,
          n' = (fsmNode cfg rand (Z.of_nat k) busy col m wi).1
          /\ holdsPacket (packetArrival cfg rand (Z.of_nat k) m wi).1)
  /\ (forall t busy n w cell,
        holdsPacket n -> completesAck n = true ->
        exists b rest,
          shift (packetQueue n) = (Some b, rest)
          /\ totalLatency (stats (transition cfg rand t busy n w cell).1.2)
             = totalLatency (stats w) + (t - b)).
Proof.
  split_and!.
  - apply simLoop_holdsPacket.
  - intros i n' Hn'.
    pose proof (simLoop_holdsPacket cfg rand k) as Hk.
    cbn [simLoop] in Hn'. destruct (simLoop cfg rand k) as [ns w].
    simpl in Hk.
    apply tickStep_lookup in Hn' as (n & m & wi & Hn & (v & b & ->) & ->).
    eexists _, wi, _, _. split; [reflexivity|].
    rewrite Forall_lookup in Hk. specialize (Hk i n Hn).
    destruct (packetArrival_node cfg rand (Z.of_nat k)
                (setVcs v (setDoomed b n)) wi) as [-> | ->].
    + exact Hk.
    + intros _ _. simpl. apply app_singleton_nonempty.
  - intros t busy n w cell Hn Hc. unfold completesAck in Hc.
    apply andb_true_iff in Hc as [Hc Hd]. apply andb_true_iff in Hc as [Hs Hp].
    apply bool_decide_eq_true in Hs. apply negb_true_iff in Hd.
    destruct (packetQueue n) as [|b rest] eqn:Eq.
    { exfalso. apply Hn; by rewrite ?Hs. }
    exists b, rest. split; [done|].
    unfold_transition. rewrite Hs. simpl.
    change (1 + 1) with 2. rewrite Hp, Hd, Eq. simpl.
    repeat case_match; simpl; done.
Qed.

(** C10.  With a non-negative [pe] and a generator that never returns a
    negative number, at every tick boundary a node in [BACKOFF] or
    [BACKOFF_PAUSED] has a back-off counter of at least one, and every
    timeline cell labelled [BACKOFF] or [BACKOFF_PAUSED] carries an [info]
    of at least one. *)
Theorem backoff_counter_positive cfg rand :
  0 <= pe cfg -> (forall i, (0 <= rand i)%Q) ->
  (forall k,
     Forall (fun n => state n = BACKOFF \/ state n = BACKOFF_PAUSED ->
                      1 <= backoffCounter n) (simLoop cfg rand k).1
     /\ forall i row c,
          timeline (simLoop cfg rand k).2 !! i = Some row -> c ∈ row ->
          cellState c = BACKOFF \/ cellState c = BACKOFF_PAUSED ->
          exists v, info c = Some v /\ 1 <= v)
  /\ forall i row c,
       res_timeline (runSimulation cfg rand) !! i = Some row -> c ∈ row ->
       cellState c = BACKOFF \/ cellState c = BACKOFF_PAUSED ->
       exists v, info c = Some v /\ 1 <= v.
Proof.
  intros Hpe Hrand.
  assert (H : forall k,
     Forall backoffOk (simLoop cfg rand k).1
     /\ forall i row c,
          timeline (simLoop cfg rand k).2 !! i = Some row -> c ∈ row ->
          cellOk c).
  { intros k. destruct (simLoop_backoffOk cfg rand k Hpe Hrand) as [Htl Hns].
    split; [done|]. intros i row c Hrow Hc.
    specialize (Htl i row Hrow). rewrite Forall_forall in Htl. by apply Htl. }
  split; [exact H|].
  rewrite runSimulation_unfold. cbn [res_timeline].
  apply (H (Z.to_nat (simDuration cfg))).
Qed.

(** C10 (witness): the pause scenario after ten ticks. *)
Lemma backoff_counter_positive_witness :
  0 <= pe scenarioPause /\ (forall i, (0 <= pauseRand i)%Q)
  /\ Forall (fun n => state n = BACKOFF \/ state n = BACKOFF_PAUSED ->
                      1 <= backoffCounter n)
            (simLoop scenarioPause pauseRand 10).1.
Proof.
  assert (H0 : 0 <= pe scenarioPause) by (vm_compute; discriminate).
  assert (H1 : forall i, (0 <= pauseRand i)%Q)
    by (intros [|[|i]]; vm_compute; discriminate).
  split; [exact H0|]. split; [exact H1|].
  exact (proj1 (proj1 (backoff_counter_positive scenarioPause pauseRand H0 H1)
                  10%nat)).
Defined.

(** ** Further properties of the engine *)

(** *** Node ids and the shape of the timeline *)

Lemma transition_id cfg rand t busy n w cell :
  id (transition cfg rand t busy n w cell).1.1 = id n.
Proof.
  unfold_transition.
  destruct (state n); simpl; repeat case_match; simpl; done.
Qed.

(** What the state machine step of a node does to the timeline. *)
Lemma fsmNode_timeline cfg rand t busy col n w :
  id (fsmNode cfg rand t busy col n w).1 = id n
  /\ timeline (fsmNode cfg rand t busy col n w).2
     = alter (fun row => row ++ [tickCell busy col n]) (id n) (timeline w).
Proof.
  unfold fsmNode.
  pose proof (packetArrival_timeline cfg rand t n w) as Htl.
  assert (Hn1 : state (packetArrival cfg rand t n w).1 = state n
                /\ vcs (packetArrival cfg rand t n w).1 = vcs n
                /\ backoffCounter (packetArrival cfg rand t n w).1
                   = backoffCounter n
                /\ id (packetArrival cfg rand t n w).1 = id n)
    by (by destruct (packetArrival_node cfg rand t n w) as [-> | ->]).
  destruct (packetArrival cfg rand t n w) as [n1 w1].
  simpl in Htl, Hn1. destruct Hn1 as (Es & Ev & Ec & Ei).
  pose proof (transition_id cfg rand t busy n1 w1 (state n, None)) as Hid.
  pose proof (transition_timeline cfg rand t busy n1 w1 (state n, None)) as Htl2.
  assert (Hcell : visualCell col
                    (transition cfg rand t busy n1 w1 (state n, None)).2
                  = tickCell busy col n).
  { unfold tickCell, visualCell. unfold_transition. rewrite Es, Ev, Ec.
    destruct (state n); simpl; repeat case_match; simpl in *;
      rewrite ?Ec; try done; destruct col; done. }
  destruct (transition cfg rand t busy n1 w1 (state n, None)) as [[n2 w2] c2].
  simpl in *. rewrite Hid, Ei, Hcell, Htl2, Htl. done.
Qed.

Lemma fsmPhase_timeline cfg rand t busy col ns :
  forall idx w,
    NoDup (map id ns) ->
    let r := forEachFrom (fun _ => fsmNode cfg rand t busy col) idx ns w in
    map id r.1 = map id ns
    /\ (forall i n, ns !! i = Some n ->
          timeline r.2 !! id n
          = (fun row => row ++ [tickCell busy col n]) <$> timeline w !! id n)
    /\ (forall j, j ∉ map id ns -> timeline r.2 !! j = timeline w !! j).
Proof.
  induction ns as [|n rest IH]; intros idx w Hnd; simpl.
  { split_and!; done. }
  apply NoDup_cons in Hnd as [Hn Hrest].
  destruct (fsmNode_timeline cfg rand t busy col n w) as [Hid Htl].
  destruct (fsmNode cfg rand t busy col n w) as [n' w'] eqn:E.
  simpl in Hid, Htl.
  specialize (IH (S idx) w' Hrest). cbv zeta in IH.
  destruct (forEachFrom _ (S idx) rest w') as [rest' w''].
  simpl in *. destruct IH as (IHid & IHin & IHout).
  split_and!.
  - by rewrite Hid, IHid.
  - intros [|i] m Hm; simpl in Hm.
    + injection Hm as <-. rewrite (IHout _ Hn), Htl.
      by rewrite lookup_alter_eq.
    + rewrite (IHin i m Hm), Htl. rewrite lookup_alter_ne; [done|].
      intros Heq. apply Hn. rewrite Heq.
      apply list_elem_of_fmap. exists m. split; [done|].
      by eapply list_elem_of_lookup_2.
  - intros j Hj. apply not_elem_of_cons in Hj as [Hj1 Hj2].
    rewrite (IHout j Hj2), Htl. by rewrite lookup_alter_ne.
Qed.

Lemma collisionPhase_timeline t ns w :
  timeline (collisionPhase t ns w).2 = timeline w.
Proof.
  unfold collisionPhase, forEach. destruct (collisionOccurring ns); [|done].
  apply (forEachFrom_world _ (fun w' => timeline w' = timeline w)); [|done].
  intros i n w0 Hw0. destruct (isTxState (state n)); [|done].
  unfold markDoomed. by destruct (isCurrentTxDoomed n).
Qed.

Lemma collisionPhase_length t ns w :
  length (collisionPhase t ns w).1 = length ns.
Proof.
  unfold collisionPhase, forEach. destruct (collisionOccurring ns); [|done].
  apply forEachFrom_length.
Qed.

(** The node at a position after the collision phase. *)
Lemma collisionPhase_lookup_fwd t ns w i n :
  ns !! i = Some n ->
  exists b, (collisionPhase t ns w).1 !! i = Some (setDoomed b n).
Proof.
  intros Hn.
  destruct ((collisionPhase t ns w).1 !! i) as [m|] eqn:Hm.
  - destruct (collisionPhase_lookup t ns w i m Hm) as (n' & b & Hn' & ->).
    rewrite Hn in Hn'. injection Hn' as <-. by exists b.
  - apply lookup_ge_None in Hm. rewrite collisionPhase_length in Hm.
    apply lookup_lt_Some in Hn. lia.
Qed.

Lemma tickCell_navSpec_doomed cfg busy col pa fa b n :
  tickCell busy col (navSpecNode cfg pa fa col (setDoomed b n))
  = tickCell busy col (navSpecNode cfg pa fa col n).
Proof.
  unfold tickCell, navSpecNode. simpl.
  destruct (isTxState (state n)); done.
Qed.

Lemma navSpecNode_id cfg pa fa col n :
  id (navSpecNode cfg pa fa col n) = id n
  /\ state (navSpecNode cfg pa fa col n) = state n.
Proof. unfold navSpecNode. by destruct (isTxState (state n)). Qed.

(** What a whole tick does to the timeline: one cell per node. *)
Lemma tickStep_timeline cfg rand t ns w :
  NoDup (map id ns) ->
  map id (tickStep cfg rand t (ns, w)).1 = map id ns
  /\ (forall i n, ns !! i = Some n ->
        timeline (tickStep cfg rand t (ns, w)).2 !! id n
        = (fun row =>
             row ++ [tickCell (physicalBusy ns) (collisionOccurring ns)
                       (navSpecNode cfg (isPreambleActive ns) (isFcActive ns)
                          (collisionOccurring ns) n)])
          <$> timeline w !! id n)
  /\ (forall j, j ∉ map id ns ->
        timeline (tickStep cfg rand t (ns, w)).2 !! j = timeline w !! j).
Proof.
  intros Hnd.
  destruct (tickStep_phases cfg rand t ns w)
    as (ns1 & w1 & ns2 & w2 & H1 & H2 & ->).
  rewrite navPhase_spec in H2. injection H2 as <- <-.
  assert (Hid1 : map id ns1 = map id ns).
  { replace ns1 with (collisionPhase t ns (updStats (channelStats ns) w)).1
      by (by rewrite H1).
    unfold collisionPhase, forEach. destruct (collisionOccurring ns); [|done].
    apply forEachFrom_proj. intros i n w0.
    destruct (isTxState (state n)); [|done].
    by destruct (markDoomed_node t n w0) as [-> | ->]. }
  assert (Htl1 : timeline w1 = timeline w).
  { pose proof (collisionPhase_timeline t ns (updStats (channelStats ns) w)) as H.
    by rewrite H1 in H. }
  set (pa := isPreambleActive ns). set (fa := isFcActive ns).
  set (col := collisionOccurring ns). set (busy := physicalBusy ns).
  assert (Hid2 : map id (map (navSpecNode cfg pa fa col) ns1) = map id ns).
  { rewrite <- Hid1, map_map. apply map_ext. intros n.
    apply navSpecNode_id. }
  unfold forEach.
  pose proof (fsmPhase_timeline cfg rand t busy col
                (map (navSpecNode cfg pa fa col) ns1) 0%nat
                (setLogs (logs w1 ++ flat_map (navSpecLogs cfg t pa fa col) ns1) w1))
    as Hf.
  cbv zeta in Hf. rewrite Hid2 in Hf. specialize (Hf Hnd).
  destruct Hf as (Hf1 & Hf2 & Hf3). cbn [timeline setLogs] in Hf2, Hf3.
  rewrite Htl1 in Hf2, Hf3.
  split_and!; [done| |done].
  intros i n Hn.
  destruct (collisionPhase_lookup_fwd t ns (updStats (channelStats ns) w) i n Hn)
    as [b Hb].
  rewrite H1 in Hb. simpl in Hb.
  specialize (Hf2 i (navSpecNode cfg pa fa col (setDoomed b n))).
  rewrite list_lookup_fmap, Hb in Hf2. specialize (Hf2 eq_refl).
  destruct (navSpecNode_id cfg pa fa col (setDoomed b n)) as [Ei _].
  rewrite Ei in Hf2. simpl in Hf2.
  by rewrite tickCell_navSpec_doomed in Hf2.
Qed.

Lemma nodeIds_NoDup cfg : NoDup (nodeIds cfg).
Proof.
  unfold nodeIds. apply NoDup_fmap; [apply Nat2Z.inj'|apply NoDup_seq].
Qed.

Lemma simLoop_ids cfg rand k : map id (simLoop cfg rand k).1 = nodeIds cfg.
Proof.
  induction k as [|k IH].
  - unfold nodeIds. simpl. unfold initNodes. rewrite map_map. done.
  - cbn [simLoop]. destruct (simLoop cfg rand k) as [ns w]. simpl in IH.
    destruct (tickStep_timeline cfg rand (Z.of_nat k) ns w) as (H & _).
    + rewrite IH. apply nodeIds_NoDup.
    + by rewrite H.
Qed.

Lemma initWorld_lookup ns j :
  timeline (initWorld ns) !! j
  = if bool_decide (j ∈ map id ns) then Some [] else None.
Proof.
  unfold initWorld. simpl.
  assert (G : forall (acc : gmap Z (list TimelineCell)),
    foldl (fun tl n => <[id n := []]> tl) acc ns !! j
    = if bool_decide (j ∈ map id ns) then Some [] else acc !! j).
  { induction ns as [|n rest IH]; intros acc; cbn [foldl map].
    - rewrite bool_decide_eq_false_2; [done|]. apply not_elem_of_nil.
    - rewrite IH. destruct (decide (j ∈ map id rest)) as [Hin|Hout].
      + rewrite !bool_decide_eq_true_2; [done| |done]. by right.
      + rewrite (bool_decide_eq_false_2 _ Hout).
        destruct (decide (id n = j)) as [->|Hne].
        * rewrite lookup_insert_eq, bool_decide_eq_true_2; [done|]. by left.
        * rewrite lookup_insert_ne by done.
          rewrite bool_decide_eq_false_2; [done|].
          intros Hc. apply elem_of_cons in Hc as [Hc|Hc]; [|done].
          by apply Hne. }
  rewrite G. by case_bool_decide.
Qed.

Lemma nodeIds_elem cfg j : j ∈ nodeIds cfg <-> 0 <= j < nodeCount cfg.
Proof.
  unfold nodeIds. rewrite list_elem_of_fmap. split.
  - intros (i & -> & Hi). apply elem_of_seq in Hi. lia.
  - intros Hj. exists (Z.to_nat j). split; [lia|]. apply elem_of_seq. lia.
Qed.

Lemma simLoop_node_id cfg rand k i n :
  (simLoop cfg rand k).1 !! i = Some n -> id n = Z.of_nat i.
Proof.
  intros Hn.
  assert (H : map id (simLoop cfg rand k).1 !! i = Some (id n))
    by (by rewrite list_lookup_fmap, Hn).
  rewrite simLoop_ids in H. unfold nodeIds in H.
  rewrite list_lookup_fmap in H.
  destruct (seq 0 (Z.to_nat (nodeCount cfg)) !! i) as [i'|] eqn:E; [|done].
  apply lookup_seq in E as [-> _]. simpl in H. by injection H as <-.
Qed.

(** The row of a node after [k] ticks has [k] cells, and the next tick
    appends the cell of that tick. *)
Lemma simLoop_row_step cfg rand k i n :
  (simLoop cfg rand k).1 !! i = Some n ->
  exists row,
    timeline (simLoop cfg rand k).2 !! id n = Some row
    /\ length row = k
    /\ timeline (simLoop cfg rand (S k)).2 !! id n
       = Some (row ++ [tickCell (physicalBusy (simLoop cfg rand k).1)
                         (collisionOccurring (simLoop cfg rand k).1)
                         (navSpecNode cfg
                            (isPreambleActive (simLoop cfg rand k).1)
                            (isFcActive (simLoop cfg rand k).1)
                            (collisionOccurring (simLoop cfg rand k).1) n)]).
Proof.
  revert i n. induction k as [|k IH]; intros i n Hn.
  - exists []. cbn [simLoop] in *. cbn [fst snd] in Hn.
    assert (Hin : id n ∈ map id (initNodes cfg)).
    { apply list_elem_of_fmap. exists n. split; [done|].
      by eapply list_elem_of_lookup_2. }
    assert (Hnd : NoDup (map id (initNodes cfg))).
    { pose proof (simLoop_ids cfg rand 0) as H0. simpl in H0. rewrite H0.
      apply nodeIds_NoDup. }
    destruct (tickStep_timeline cfg rand (Z.of_nat 0) (initNodes cfg)
                (initWorld (initNodes cfg)) Hnd) as (_ & Hrow & _).
    cbn [fst snd]. split_and!; [|done|].
    + by rewrite initWorld_lookup, bool_decide_eq_true_2.
    + rewrite (Hrow i n Hn), initWorld_lookup, bool_decide_eq_true_2 by done.
      done.
  - pose proof (simLoop_ids cfg rand (S k)) as Hids.
    assert (Hnd : NoDup (map id (simLoop cfg rand (S k)).1))
      by (rewrite Hids; apply nodeIds_NoDup).
    assert (Hprev : exists n0, (simLoop cfg rand k).1 !! i = Some n0
                               /\ id n0 = id n).
    { pose proof (simLoop_node_id cfg rand (S k) i n Hn) as Hi.
      assert (Hlt : (i < length (simLoop cfg rand k).1)%nat).
      { apply lookup_lt_Some in Hn.
        assert (L1 : length (map id (simLoop cfg rand (S k)).1)
                     = length (map id (simLoop cfg rand k).1))
          by (by rewrite !simLoop_ids).
        rewrite !length_map in L1. lia. }
      apply lookup_lt_is_Some in Hlt as [n0 Hn0]. exists n0. split; [done|].
      rewrite (simLoop_node_id cfg rand k i n0 Hn0). done. }
    destruct Hprev as (n0 & Hn0 & Hid0).
    destruct (IH i n0 Hn0) as (row & _ & Hlen & Hnext).
    rewrite Hid0 in Hnext. eexists. split; [exact Hnext|].
    split; [rewrite length_app; simpl; lia|].
    change (simLoop cfg rand (S (S k)))
      with (tickStep cfg rand (Z.of_nat (S k)) (simLoop cfg rand (S k))).
    destruct (simLoop cfg rand (S k)) as [ns w] eqn:E.
    cbn [fst snd] in Hn, Hnd, Hnext |- *.
    destruct (tickStep_timeline cfg rand (Z.of_nat (S k)) ns w Hnd)
      as (_ & Hrow & _).
    rewrite (Hrow i n Hn), Hnext. done.
Qed.

(** X1.  After [k] ticks the timeline has one row per node id
    [0 .. nodeCount-1], each of exactly [k] cells, and no other key; the
    returned timeline has rows of [simDuration] cells. *)
Theorem timeline_rows_complete cfg rand :
  0 <= simDuration cfg ->
  (forall k j,
     (0 <= j < nodeCount cfg ->
      exists row, timeline (simLoop cfg rand k).2 !! j = Some row
                  /\ length row = k)
     /\ (~ (0 <= j < nodeCount cfg) ->
         timeline (simLoop cfg rand k).2 !! j = None))
  /\ forall j,
       (0 <= j < nodeCount cfg ->
        exists row, res_timeline (runSimulation cfg rand) !! j = Some row
                    /\ Z.of_nat (length row) = simDuration cfg)
       /\ (~ (0 <= j < nodeCount cfg) ->
           res_timeline (runSimulation cfg rand) !! j = None).
Proof.
  intros Hd.
  assert (H : forall k j,
     (0 <= j < nodeCount cfg ->
      exists row, timeline (simLoop cfg rand k).2 !! j = Some row
                  /\ length row = k)
     /\ (~ (0 <= j < nodeCount cfg) ->
         timeline (simLoop cfg rand k).2 !! j = None)).
  { intros k j. split.
    - intros Hj. apply nodeIds_elem in Hj.
      rewrite <- (simLoop_ids cfg rand k) in Hj.
      apply list_elem_of_fmap in Hj as (n & -> & Hn).
      apply list_elem_of_lookup_1 in Hn as [i Hi].
      destruct (simLoop_row_step cfg rand k i n Hi) as (row & Hrow & Hlen & _).
      by exists row.
    - intros Hj. rewrite <- nodeIds_elem in Hj.
      induction k as [|k IH].
      + cbn [simLoop]. cbn [fst snd]. rewrite initWorld_lookup.
        rewrite bool_decide_eq_false_2; [done|].
        pose proof (simLoop_ids cfg rand 0) as H0. simpl in H0. by rewrite H0.
      + cbn [simLoop].
        pose proof (simLoop_ids cfg rand k) as Hids.
        destruct (simLoop cfg rand k) as [ns w]. cbn [fst snd] in IH, Hids.
        destruct (tickStep_timeline cfg rand (Z.of_nat k) ns w) as (_ & _ & Hout).
        { rewrite Hids. apply nodeIds_NoDup. }
        rewrite Hout; [done|]. by rewrite Hids. }
  split; [exact H|].
  intros j. rewrite runSimulation_unfold. cbn [res_timeline].
  destruct (H (Z.to_nat (simDuration cfg)) j) as [H1 H2].
  split; [|exact H2].
  intros Hj. destruct (H1 Hj) as (row & Hrow & Hlen).
  exists row. split; [done|]. lia.
Qed.

(** X1 (witness): scenario 3, two rows of forty cells. *)
Lemma timeline_rows_complete_witness :
  0 <= simDuration scenario3
  /\ exists row, res_timeline (runSimulation scenario3 zeroRand) !! 1 = Some row
                 /\ Z.of_nat (length row) = simDuration scenario3.
Proof.
  assert (H0 : 0 <= simDuration scenario3) by (vm_compute; discriminate).
  split; [exact H0|].
  apply (proj2 (timeline_rows_complete scenario3 zeroRand H0) 1).
  vm_compute. split; [discriminate|reflexivity].
Defined.

(** *** The log only grows, tick by tick *)

Lemma appendsAt_refl t ok w : appendsAt t ok w w.
Proof. exists []. by rewrite app_nil_r. Qed.

Lemma appendsAt_same t ok w w' : logs w' = logs w -> appendsAt t ok w w'.
Proof. intros E. exists []. by rewrite app_nil_r. Qed.

Lemma appendsAt_trans t ok w1 w2 w3 :
  appendsAt t ok w1 w2 -> appendsAt t ok w2 w3 -> appendsAt t ok w1 w3.
Proof.
  intros (l1 & E1 & F1) (l2 & E2 & F2). exists (l1 ++ l2).
  split; [by rewrite E2, E1, app_assoc|]. by apply Forall_app.
Qed.

Lemma appendsAt_weaken t (ok ok' : LogEntry -> Prop) w w' :
  (forall e, ok e -> ok' e) -> appendsAt t ok w w' -> appendsAt t ok' w w'.
Proof.
  intros H (l & E & F). exists l. split; [done|].
  eapply Forall_impl; [exact F|]. intros e [? ?]. split; [done|]. by apply H.
Qed.

Ltac solve_appends :=
  first
    [ by (exists []; rewrite app_nil_r; split; [|constructor])
    | by (eexists [_]; split; [reflexivity|repeat constructor])
    | by (eexists [_]; split; [symmetry; apply app_assoc|repeat constructor]) ].

Lemma markDoomed_appends t n w :
  appendsAt t (fun e => nodeId e = id n) w (markDoomed t n w).2.
Proof.
  unfold markDoomed, appendsAt. destruct (isCurrentTxDoomed n); simpl;
    solve_appends.
Qed.

Lemma packetArrival_appends cfg rand t n w :
  appendsAt t (fun e => nodeId e = id n) w (packetArrival cfg rand t n w).2.
Proof.
  unfold packetArrival, mathRandom, appendsAt.
  destruct (packetGenMode cfg); simpl; case_match; simpl; solve_appends.
Qed.

Lemma transition_appends cfg rand t busy n w cell :
  appendsAt t (fun e => nodeId e = id n) w
    (transition cfg rand t busy n w cell).1.2.
Proof.
  unfold appendsAt. unfold_transition.
  destruct (state n); simpl; repeat case_match; simpl; solve_appends.
Qed.

Lemma fsmNode_appends cfg rand t busy col n w :
  appendsAt t (fun e => nodeId e = id n) w (fsmNode cfg rand t busy col n w).2.
Proof.
  unfold fsmNode.
  pose proof (packetArrival_appends cfg rand t n w) as Ha.
  assert (Hid : id (packetArrival cfg rand t n w).1 = id n)
    by (by destruct (packetArrival_node cfg rand t n w) as [-> | ->]).
  destruct (packetArrival cfg rand t n w) as [n1 w1]. simpl in Ha, Hid.
  pose proof (transition_appends cfg rand t busy n1 w1 (state n, None)) as Ht.
  rewrite Hid in Ht.
  destruct (transition cfg rand t busy n1 w1 (state n, None)) as [[n2 w2] c2].
  simpl in *. eapply appendsAt_trans; [exact Ha|].
  destruct Ht as (l & E & F). exists l. split; [done|exact F].
Qed.

Lemma forEachFrom_appends t (ids : list Z) f :
  (forall i n w, id n ∈ ids ->
     appendsAt t (fun e => nodeId e ∈ ids) w (f i n w).2) ->
  forall ns idx w, Forall (fun n => id n ∈ ids) ns ->
    appendsAt t (fun e => nodeId e ∈ ids) w (forEachFrom f idx ns w).2.
Proof.
  intros Hf ns idx w Hns.
  apply (forEachFrom_inv f
           (fun w' => appendsAt t (fun e => nodeId e ∈ ids) w w')
           (fun n => id n ∈ ids) (fun _ => True)); try done.
  - intros i n w0 Hw0 Hn. split; [|done].
    eapply appendsAt_trans; [exact Hw0|]. by apply Hf.
  - apply appendsAt_refl.
Qed.

(** A tick appends log entries of that tick, for nodes of the run. *)
Lemma tickStep_appends cfg rand t ns w :
  appendsAt t (fun e => nodeId e ∈ map id ns) w (tickStep cfg rand t (ns, w)).2.
Proof.
  destruct (tickStep_phases cfg rand t ns w)
    as (ns1 & w1 & ns2 & w2 & H1 & H2 & ->).
  assert (Hall : forall l : list Node, map id l = map id ns ->
                 Forall (fun n => id n ∈ map id ns) l).
  { intros l Hl. apply Forall_forall. intros n Hn. rewrite <- Hl.
    apply list_elem_of_fmap. by exists n. }
  assert (Hid1 : map id ns1 = map id ns).
  { replace ns1 with (collisionPhase t ns (updStats (channelStats ns) w)).1
      by (by rewrite H1).
    unfold collisionPhase, forEach. destruct (collisionOccurring ns); [|done].
    apply forEachFrom_proj. intros i n w0.
    destruct (isTxState (state n)); [|done].
    by destruct (markDoomed_node t n w0) as [-> | ->]. }
  assert (A1 : appendsAt t (fun e => nodeId e ∈ map id ns) w w1).
  { replace w1 with (collisionPhase t ns (updStats (channelStats ns) w)).2
      by (by rewrite H1).
    unfold collisionPhase, forEach. destruct (collisionOccurring ns).
    - apply (appendsAt_trans _ _ _ (updStats (channelStats ns) w));
        [by apply appendsAt_same|].
      apply forEachFrom_appends; [|by apply Hall].
      intros i n w0 Hn. destruct (isTxState (state n)).
      + eapply appendsAt_weaken; [|apply markDoomed_appends].
        intros e ->. done.
      + apply appendsAt_refl.
    - by apply appendsAt_same. }
  rewrite navPhase_spec in H2. injection H2 as <- <-.
  assert (A2 : appendsAt t (fun e => nodeId e ∈ map id ns) w1
                 (setLogs (logs w1 ++ flat_map
                    (navSpecLogs cfg t (isPreambleActive ns) (isFcActive ns)
                       (collisionOccurring ns)) ns1) w1)).
  { eexists. split; [reflexivity|].
    apply Forall_forall. intros e He. apply list_elem_of_In in He.
    apply in_flat_map in He as (n & Hn & He).
    apply list_elem_of_In in Hn.
    assert (Hin : id n ∈ map id ns).
    { rewrite <- Hid1. apply list_elem_of_fmap. by exists n. }
    unfold navSpecLogs in He.
    destruct (isTxState (state n)); [done|].
    apply in_app_or in He as [He|He]; repeat case_match;
      simpl in He; try done; destruct He as [<-|[]]; done. }
  eapply appendsAt_trans; [exact A1|]. eapply appendsAt_trans; [exact A2|].
  unfold forEach. apply forEachFrom_appends.
  - intros i n w0 Hn. eapply appendsAt_weaken; [|apply fsmNode_appends].
    intros e ->. done.
  - apply Hall. rewrite <- Hid1, map_map. apply map_ext. intros n.
    apply navSpecNode_id.
Qed.

Lemma same_tick_ordered t (l : list LogEntry) :
  Forall (fun e => tick e = t) l -> tickOrdered l.
Proof.
  unfold tickOrdered. induction 1 as [|e l He Hl IH]; constructor; [done|].
  eapply Forall_impl; [exact Hl|]. intros e' He'. simpl in *. lia.
Qed.

Lemma simLoop_logs cfg rand k :
  tickOrdered (logs (simLoop cfg rand k).2)
  /\ Forall (fun e => 0 <= tick e < Z.of_nat k
                      /\ 0 <= nodeId e < nodeCount cfg)
            (logs (simLoop cfg rand k).2).
Proof.
  induction k as [|k [IHs IHf]].
  - split; constructor.
  - cbn [simLoop]. pose proof (simLoop_ids cfg rand k) as Hids.
    destruct (simLoop cfg rand k) as [ns w]. cbn [fst snd] in *.
    destruct (tickStep_appends cfg rand (Z.of_nat k) ns w) as (new & -> & Hnew).
    rewrite Hids in Hnew. split.
    + apply StronglySorted_app_2; [|done|].
      * intros a b Ha Hb. rewrite Forall_forall in IHf, Hnew.
        destruct (IHf a Ha) as [? _]. destruct (Hnew b Hb) as [? _]. lia.
      * apply (same_tick_ordered (Z.of_nat k)).
        eapply Forall_impl; [exact Hnew|]. by intros e [? _].
    + apply Forall_app. split.
      * eapply Forall_impl; [exact IHf|]. intros e [? ?]. split; [lia|done].
      * eapply Forall_impl; [exact Hnew|]. intros e [-> He].
        apply nodeIds_elem in He. split; [lia|done].
Qed.

(** X2.  The returned log is ordered by tick, and every entry carries a
    tick of the run and the id of a node of the run. *)
Theorem log_ordered_and_in_range cfg rand :
  StronglySorted (fun a b => tick a <= tick b)
                 (res_logs (runSimulation cfg rand))
  /\ Forall (fun e => 0 <= tick e < simDuration cfg
                      /\ 0 <= nodeId e < nodeCount cfg)
            (res_logs (runSimulation cfg rand)).
Proof.
  rewrite runSimulation_unfold. cbn [res_logs].
  destruct (simLoop_logs cfg rand (Z.to_nat (simDuration cfg))) as [Hs Hf].
  split; [exact Hs|].
  eapply Forall_impl; [exact Hf|]. intros e [? ?]. split; [lia|done].
Qed.

(** *** A longer run extends the history of a shorter one *)

Lemma simLoop_withDuration d cfg rand k :
  simLoop (withDuration d cfg) rand k = simLoop cfg rand k.
Proof.
  induction k as [|k IH]; [reflexivity|].
  cbn [simLoop]. rewrite IH. reflexivity.
Qed.

Lemma simLoop_history_step cfg rand k :
  logs (simLoop cfg rand k).2 `prefix_of` logs (simLoop cfg rand (S k)).2
  /\ forall j row,
       timeline (simLoop cfg rand k).2 !! j = Some row ->
       exists row', timeline (simLoop cfg rand (S k)).2 !! j = Some row'
                    /\ row `prefix_of` row'.
Proof.
  split.
  - cbn [simLoop]. destruct (simLoop cfg rand k) as [ns w]. cbn [snd].
    destruct (tickStep_appends cfg rand (Z.of_nat k) ns w) as (new & -> & _).
    by apply prefix_app_r.
  - intros j row Hrow.
    destruct (decide (j ∈ nodeIds cfg)) as [Hin|Hout].
    + rewrite <- (simLoop_ids cfg rand k) in Hin.
      apply list_elem_of_fmap in Hin as (n & -> & Hn).
      apply list_elem_of_lookup_1 in Hn as [i Hi].
      destruct (simLoop_row_step cfg rand k i n Hi) as (row0 & Hrow0 & _ & Hnext).
      rewrite Hrow in Hrow0. injection Hrow0 as <-.
      eexists. split; [exact Hnext|]. by apply prefix_app_r.
    + exists row. split; [|done]. rewrite <- Hrow.
      cbn [simLoop]. pose proof (simLoop_ids cfg rand k) as Hids.
      destruct (simLoop cfg rand k) as [ns w]. cbn [fst snd] in *.
      destruct (tickStep_timeline cfg rand (Z.of_nat k) ns w) as (_ & _ & Ho).
      { rewrite Hids. apply nodeIds_NoDup. }
      apply Ho. by rewrite Hids.
Qed.

Lemma simLoop_history cfg rand k d :
  logs (simLoop cfg rand k).2 `prefix_of` logs (simLoop cfg rand (k + d)).2
  /\ forall j row,
       timeline (simLoop cfg rand k).2 !! j = Some row ->
       exists row', timeline (simLoop cfg rand (k + d)).2 !! j = Some row'
                    /\ row `prefix_of` row'.
Proof.
  induction d as [|d [IHl IHt]].
  - rewrite Nat.add_0_r. split; [done|]. intros j row Hrow. by exists row.
  - replace (k + S d)%nat with (S (k + d)) by lia.
    destruct (simLoop_history_step cfg rand (k + d)) as [Hl Ht]. split.
    + by etrans.
    + intros j row Hrow. destruct (IHt j row Hrow) as (row1 & H1 & P1).
      destruct (Ht j row1 H1) as (row2 & H2 & P2).
      exists row2. split; [done|]. by etrans.
Qed.

(** X3.  Running the same configuration longer, with the same generator,
    only extends the history: the log of the shorter run is a prefix of
    the log of the longer run, and so is every timeline row. *)
Theorem longer_run_extends_history cfg rand d d' :
  0 <= d <= d' ->
  res_logs (runSimulation (withDuration d cfg) rand)
    `prefix_of` res_logs (runSimulation (withDuration d' cfg) rand)
  /\ forall j row,
       res_timeline (runSimulation (withDuration d cfg) rand) !! j = Some row ->
       exists row',
         res_timeline (runSimulation (withDuration d' cfg) rand) !! j = Some row'
         /\ row `prefix_of` row'.
Proof.
  intros Hd. rewrite !runSimulation_unfold. cbn [res_logs res_timeline].
  rewrite !simLoop_withDuration. cbn [simDuration withDuration].
  replace (Z.to_nat d') with (Z.to_nat d + Z.to_nat (d' - d))%nat by lia.
  apply simLoop_history.
Qed.

(** X3 (witness): scenario 2 run for 10 and for 50 ticks. *)
Lemma longer_run_extends_history_witness :
  0 <= 10 <= 50
  /\ res_logs (runSimulation (withDuration 10 scenario2) zeroRand)
       `prefix_of` res_logs (runSimulation (withDuration 50 scenario2) zeroRand).
Proof.
  assert (H : 0 <= 10 <= 50) by lia.
  split; [exact H|].
  exact (proj1 (longer_run_extends_history scenario2 zeroRand 10 50 H)).
Defined.

(** *** Invariants that tie the nodes to the shared world *)

Section ForEachJoint.
Variable f : nat -> Node -> World -> Node * World.
Variable J : list Node -> World -> Prop.
Hypothesis Hstep : forall i pre n post w,
  J (pre ++ n :: post) w -> J (pre ++ (f i n w).1 :: post) (f i n w).2.

Lemma forEachFrom_joint_gen post :
  forall pre idx w,
    J (pre ++ post) w ->
    J (pre ++ (forEachFrom f idx post w).1) (forEachFrom f idx post w).2.
Proof.
  induction post as [|n post IH]; intros pre idx w HJ; simpl; [done|].
  pose proof (Hstep idx pre n post w HJ) as H1.
  destruct (f idx n w) as [n' w']. simpl in H1.
  specialize (IH (pre ++ [n']) (S idx) w').
  destruct (forEachFrom f (S idx) post w') as [post' w'']. simpl in *.
  rewrite <- !(app_assoc pre [n']) in IH. by apply IH.
Qed.

Lemma forEachFrom_joint ns idx w :
  J ns w -> J (forEachFrom f idx ns w).1 (forEachFrom f idx ns w).2.
Proof. intros HJ. by apply (forEachFrom_joint_gen ns []). Qed.
End ForEachJoint.

Section TickJointAt.
Variables (cfg : SimConfig) (rand : nat -> Q) (t : Z).
Variable J : list Node -> World -> Prop.
Hypothesis Hstats : forall ns ms w, J ns w -> J ns (updStats (channelStats ms) w).
Hypothesis Hcol : forall pre n post w,
  J (pre ++ n :: post) w ->
  J (pre ++ (markDoomed t n w).1 :: post) (markDoomed t n w).2.
Hypothesis Hnav : forall pa fa col pvs idx pre n post w,
  J (pre ++ n :: post) w ->
  J (pre ++ (navNode cfg t pa fa col pvs idx n w).1 :: post)
    (navNode cfg t pa fa col pvs idx n w).2.
Hypothesis Hfsm : forall busy col pre n post w,
  J (pre ++ n :: post) w ->
  J (pre ++ (fsmNode cfg rand t busy col n w).1 :: post)
    (fsmNode cfg rand t busy col n w).2.

Lemma tickStep_joint_at st :
  J st.1 st.2 -> J (tickStep cfg rand t st).1 (tickStep cfg rand t st).2.
Proof.
  destruct st as [ns w]. cbn [fst snd]. intros HJ.
  destruct (tickStep_phases cfg rand t ns w)
    as (ns1 & w1 & ns2 & w2 & H1 & H2 & ->).
  assert (J1 : J ns1 w1).
  { replace ns1 with (collisionPhase t ns (updStats (channelStats ns) w)).1
      by (by rewrite H1).
    replace w1 with (collisionPhase t ns (updStats (channelStats ns) w)).2
      by (by rewrite H1).
    unfold collisionPhase, forEach.
    destruct (collisionOccurring ns); [|by apply Hstats].
    apply forEachFrom_joint; [|by apply Hstats].
    intros i pre n post w0 H0.
    destruct (isTxState (state n)); [by apply Hcol|done]. }
  assert (J2 : J ns2 w2).
  { replace ns2 with (navPhase cfg t (isPreambleActive ns) (isFcActive ns)
                        (collisionOccurring ns) ns1 w1).1 by (by rewrite H2).
    replace w2 with (navPhase cfg t (isPreambleActive ns) (isFcActive ns)
                        (collisionOccurring ns) ns1 w1).2 by (by rewrite H2).
    unfold navPhase. apply forEachFrom_joint; [|done].
    intros i pre n post w0 H0. by apply Hnav. }
  unfold forEach. apply forEachFrom_joint; [|done].
  intros i pre n post w0 H0. by apply Hfsm.
Qed.
End TickJointAt.

Section TickJoint.
Variables (cfg : SimConfig) (rand : nat -> Q).
Variable J : list Node -> World -> Prop.
Hypothesis Hstats : forall ns ms w, J ns w -> J ns (updStats (channelStats ms) w).
Hypothesis Hcol : forall t pre n post w,
  J (pre ++ n :: post) w ->
  J (pre ++ (markDoomed t n w).1 :: post) (markDoomed t n w).2.
Hypothesis Hnav : forall t pa fa col pvs idx pre n post w,
  J (pre ++ n :: post) w ->
  J (pre ++ (navNode cfg t pa fa col pvs idx n w).1 :: post)
    (navNode cfg t pa fa col pvs idx n w).2.
Hypothesis Hfsm : forall t busy col pre n post w,
  J (pre ++ n :: post) w ->
  J (pre ++ (fsmNode cfg rand t busy col n w).1 :: post)
    (fsmNode cfg rand t busy col n w).2.

Lemma tickStep_joint t st :
  J st.1 st.2 -> J (tickStep cfg rand t st).1 (tickStep cfg rand t st).2.
Proof. apply tickStep_joint_at; auto. Qed.

Lemma simLoop_joint k :
  J (initNodes cfg) (initWorld (initNodes cfg)) ->
  J (simLoop cfg rand k).1 (simLoop cfg rand k).2.
Proof.
  intros H0. induction k as [|k IH]; [done|].
  cbn [simLoop]. by apply tickStep_joint.
Qed.
End TickJoint.

(** *** The statistics agree with the log *)

Lemma filter_snoc {A} (p : A -> bool) (l : list A) (x : A) :
  length (List.filter p (l ++ [x]))
  = (length (List.filter p l) + (if p x then 1 else 0))%nat.
Proof.
  rewrite List.filter_app, length_app. simpl. by destruct (p x).
Qed.

Ltac eval_flags :=
  repeat match goal with
    | |- context [(if ?b then 1 else 0)%nat] =>
        let v := eval vm_compute in b in
        first [constr_eq v true | constr_eq v false];
        change b with v; cbv iota
    end.

Ltac solve_statsMatch H :=
  unfold statsMatchLogs, logsOfType, overlapLogs, arrivalLogs in *;
  destruct H as (? & ? & ? & ?);
  unfold log, updStats; simpl;
  rewrite ?filter_snoc; eval_flags; rewrite ?Nat.add_0_r;
  split_and!; lia.

Lemma channelStats_statsMatchLogs ms w :
  statsMatchLogs w -> statsMatchLogs (updStats (channelStats ms) w).
Proof.
  intros H. unfold channelStats. repeat case_match; solve_statsMatch H.
Qed.

Lemma markDoomed_statsMatchLogs t n w :
  statsMatchLogs w -> statsMatchLogs (markDoomed t n w).2.
Proof.
  intros H. unfold markDoomed. destruct (isCurrentTxDoomed n); [done|].
  solve_statsMatch H.
Qed.

Lemma navNode_statsMatchLogs cfg t pa fa col pvs idx n w :
  statsMatchLogs w -> statsMatchLogs (navNode cfg t pa fa col pvs idx n w).2.
Proof.
  intros H. unfold navNode.
  destruct (isTxState (state n)); [done|].
  destruct pa, (fa && negb col); simpl; repeat case_match; try done;
    solve_statsMatch H.
Qed.

Lemma packetArrival_statsMatchLogs cfg rand t n w :
  statsMatchLogs w -> statsMatchLogs (packetArrival cfg rand t n w).2.
Proof.
  intros H. unfold packetArrival, mathRandom.
  destruct (packetGenMode cfg); simpl; case_match; try done;
    solve_statsMatch H.
Qed.

Lemma transition_statsMatchLogs cfg rand t busy n w cell :
  statsMatchLogs w ->
  statsMatchLogs (transition cfg rand t busy n w cell).1.2.
Proof.
  intros H. unfold_transition.
  destruct (state n); simpl; repeat case_match; try done;
    solve_statsMatch H.
Qed.

Lemma fsmNode_statsMatchLogs cfg rand t busy col n w :
  statsMatchLogs w -> statsMatchLogs (fsmNode cfg rand t busy col n w).2.
Proof.
  intros H. unfold fsmNode.
  pose proof (packetArrival_statsMatchLogs cfg rand t n w H) as Ha.
  destruct (packetArrival cfg rand t n w) as [n1 w1]. simpl in Ha.
  pose proof (transition_statsMatchLogs cfg rand t busy n1 w1 (state n, None) Ha)
    as Ht.
  destruct (transition cfg rand t busy n1 w1 (state n, None)) as [[n2 w2] c2].
  exact Ht.
Qed.

Lemma simLoop_statsMatchLogs cfg rand k :
  statsMatchLogs (simLoop cfg rand k).2.
Proof.
  apply (simLoop_joint cfg rand (fun _ w => statsMatchLogs w)).
  - intros _ ms w. apply channelStats_statsMatchLogs.
  - intros t _ n _ w. apply markDoomed_statsMatchLogs.
  - intros t pa fa col pvs idx _ n _ w. apply navNode_statsMatchLogs.
  - intros t busy col _ n _ w. apply fsmNode_statsMatchLogs.
  - unfold statsMatchLogs. simpl. done.
Qed.

(** X4.  The counters of the returned statistics agree with the returned
    log: [successCount] is the number of [SUCCESS] entries, [failureCount]
    the number of [DROP] entries, [collisionCount] the number of "Signal
    overlap detected" entries and [totalPacketsGenerated] the number of
    "Packet generated" entries. *)
Theorem stats_agree_with_log cfg rand :
  successCount (res_stats (runSimulation cfg rand))
  = Z.of_nat (length (logsOfType SUCCESS (res_logs (runSimulation cfg rand))))
  /\ failureCount (res_stats (runSimulation cfg rand))
     = Z.of_nat (length (logsOfType DROP (res_logs (runSimulation cfg rand))))
  /\ collisionCount (res_stats (runSimulation cfg rand))
     = Z.of_nat (length (overlapLogs (res_logs (runSimulation cfg rand))))
  /\ totalPacketsGenerated (res_stats (runSimulation cfg rand))
     = Z.of_nat (length (arrivalLogs (res_logs (runSimulation cfg rand)))).
Proof.
  rewrite runSimulation_unfold. cbn [res_stats res_logs].
  apply (simLoop_statsMatchLogs cfg rand (Z.to_nat (simDuration cfg))).
Qed.

(** *** Packet conservation and queue depth *)

Lemma queued_app pre n post :
  queued (pre ++ n :: post)
  = queued pre + Z.of_nat (length (packetQueue n)) + queued post.
Proof.
  unfold queued. induction pre as [|m pre IH]; simpl; [lia|].
  rewrite IH. lia.
Qed.

Lemma packetArrival_pending cfg rand t n w :
  pending (stats (packetArrival cfg rand t n w).2)
  + Z.of_nat (length (packetQueue n))
  = pending (stats w)
    + Z.of_nat (length (packetQueue (packetArrival cfg rand t n w).1)).
Proof.
  unfold packetArrival, mathRandom, pending.
  destruct (packetGenMode cfg); simpl; case_match; simpl;
    rewrite ?length_app; simpl; lia.
Qed.

Lemma transition_pending cfg rand t busy n w cell :
  holdsPacket n ->
  pending (stats (transition cfg rand t busy n w cell).1.2)
  + Z.of_nat (length (packetQueue n))
  = pending (stats w)
    + Z.of_nat (length (packetQueue (transition cfg rand t busy n w cell).1.1)).
Proof.
  intros Hn. unfold pending. unfold_transition.
  destruct (state n) eqn:Es; simpl; repeat case_match; simpl in *;
    simplify_eq; simpl; try lia;
    exfalso; apply Hn; by rewrite ?Es.
Qed.

Lemma fsmNode_pending cfg rand t busy col n w :
  holdsPacket n ->
  pending (stats (fsmNode cfg rand t busy col n w).2)
  + Z.of_nat (length (packetQueue n))
  = pending (stats w)
    + Z.of_nat (length (packetQueue (fsmNode cfg rand t busy col n w).1)).
Proof.
  intros Hn. unfold fsmNode.
  pose proof (packetArrival_pending cfg rand t n w) as Ha.
  assert (Hn1 : holdsPacket (packetArrival cfg rand t n w).1).
  { destruct (packetArrival_node cfg rand t n w) as [-> | ->]; [done|].
    intros _ _. simpl. apply app_singleton_nonempty. }
  destruct (packetArrival cfg rand t n w) as [n1 w1]. simpl in Ha, Hn1.
  pose proof (transition_pending cfg rand t busy n1 w1 (state n, None) Hn1) as Ht.
  destruct (transition cfg rand t busy n1 w1 (state n, None)) as [[n2 w2] c2].
  simpl in *. lia.
Qed.

Lemma conserved_step pre n post w n' w' :
  conserved (pre ++ n :: post) w ->
  (holdsPacket n -> holdsPacket n') ->
  (holdsPacket n ->
   pending (stats w') + Z.of_nat (length (packetQueue n))
   = pending (stats w) + Z.of_nat (length (packetQueue n'))) ->
  conserved (pre ++ n' :: post) w'.
Proof.
  intros [Hall Hsum] H1 H2.
  apply Forall_app in Hall as [Hpre Hrest].
  apply Forall_cons in Hrest as [Hn Hpost].
  split.
  - apply Forall_app. split; [done|]. apply Forall_cons. split; [auto|done].
  - rewrite queued_app in *. specialize (H2 Hn). lia.
Qed.

Lemma simLoop_conserved cfg rand k :
  conserved (simLoop cfg rand k).1 (simLoop cfg rand k).2.
Proof.
  apply (simLoop_joint cfg rand conserved).
  - intros ns ms w [Hall Hsum]. split; [done|]. rewrite <- Hsum.
    unfold channelStats, pending. repeat case_match; simpl; done.
  - intros t pre n post w HJ. eapply conserved_step; [exact HJ| |].
    + destruct (markDoomed_node t n w) as [-> | ->]; done.
    + intros _. unfold markDoomed, pending.
      destruct (isCurrentTxDoomed n); simpl; lia.
  - intros t pa fa col pvs idx pre n post w HJ.
    eapply conserved_step; [exact HJ| |].
    + destruct (navNode_node cfg t pa fa col pvs idx n w) as [v ->]. done.
    + intros _.
      destruct (navNode_world cfg t pa fa col pvs idx n w) as (-> & _).
      destruct (navNode_node cfg t pa fa col pvs idx n w) as [v ->].
      simpl. lia.
  - intros t busy col pre n post w HJ.
    eapply conserved_step; [exact HJ| |].
    + apply fsmNode_holdsPacket.
    + apply fsmNode_pending.
  - split.
    + apply initNodes_Forall. intros i. by intros ?.
    + unfold pending, queued, initNodes. simpl.
      induction (seq 0 (Z.to_nat (nodeCount cfg))) as [|a l IH]; simpl; [done|].
      by rewrite <- IH.
Qed.

(** X5.  Packet conservation: after any number of ticks every generated
    packet is counted as a success, counted as a failure, or still in the
    queue of a node; hence successes plus failures never exceed the
    number of generated packets, also in the returned statistics. *)
Theorem packets_conserved cfg rand :
  (forall k,
     totalPacketsGenerated (stats (simLoop cfg rand k).2)
     = successCount (stats (simLoop cfg rand k).2)
       + failureCount (stats (simLoop cfg rand k).2)
       + queued (simLoop cfg rand k).1)
  /\ successCount (res_stats (runSimulation cfg rand))
     + failureCount (res_stats (runSimulation cfg rand))
     <= totalPacketsGenerated (res_stats (runSimulation cfg rand)).
Proof.
  assert (H : forall k,
     totalPacketsGenerated (stats (simLoop cfg rand k).2)
     = successCount (stats (simLoop cfg rand k).2)
       + failureCount (stats (simLoop cfg rand k).2)
       + queued (simLoop cfg rand k).1).
  { intros k. destruct (simLoop_conserved cfg rand k) as [_ Hsum].
    unfold pending in Hsum. lia. }
  split; [exact H|].
  rewrite runSimulation_unfold. cbn [res_stats].
  specialize (H (Z.to_nat (simDuration cfg))).
  assert (Hq : forall ns, 0 <= queued ns).
  { intros ns. unfold queued. induction ns as [|n ns IH]; simpl; lia. }
  specialize (Hq (simLoop cfg rand (Z.to_nat (simDuration cfg))).1). lia.
Qed.

Lemma depthBounded_step pre n post w n' w' :
  depthBounded (pre ++ n :: post) w ->
  (Z.of_nat (length (packetQueue n)) <= maxQueueDepth (stats w) ->
   0 <= maxQueueDepth (stats w) <= totalPacketsGenerated (stats w) ->
   maxQueueDepth (stats w) <= maxQueueDepth (stats w')
   /\ Z.of_nat (length (packetQueue n')) <= maxQueueDepth (stats w')
   /\ maxQueueDepth (stats w') <= totalPacketsGenerated (stats w')) ->
  depthBounded (pre ++ n' :: post) w'.
Proof.
  intros [Hall Hb] H.
  apply Forall_app in Hall as [Hpre Hrest].
  apply Forall_cons in Hrest as [Hn Hpost].
  destruct (H Hn Hb) as (Hmono & Hn' & Htot).
  split; [|lia].
  apply Forall_app. split; [|apply Forall_cons; split; [done|]].
  - eapply Forall_impl; [exact Hpre|]. simpl. intros. lia.
  - eapply Forall_impl; [exact Hpost|]. simpl. intros. lia.
Qed.

Lemma fsmNode_depth cfg rand t busy col n w :
  Z.of_nat (length (packetQueue n)) <= maxQueueDepth (stats w) ->
  0 <= maxQueueDepth (stats w) <= totalPacketsGenerated (stats w) ->
  maxQueueDepth (stats w) <= maxQueueDepth (stats (fsmNode cfg rand t busy col n w).2)
  /\ Z.of_nat (length (packetQueue (fsmNode cfg rand t busy col n w).1))
     <= maxQueueDepth (stats (fsmNode cfg rand t busy col n w).2)
  /\ maxQueueDepth (stats (fsmNode cfg rand t busy col n w).2)
     <= totalPacketsGenerated (stats (fsmNode cfg rand t busy col n w).2).
Proof.
  intros Hn Hb. unfold fsmNode.
  assert (Ha : maxQueueDepth (stats w)
               <= maxQueueDepth (stats (packetArrival cfg rand t n w).2)
               /\ Z.of_nat (length (packetQueue (packetArrival cfg rand t n w).1))
                  <= maxQueueDepth (stats (packetArrival cfg rand t n w).2)
               /\ maxQueueDepth (stats (packetArrival cfg rand t n w).2)
                  <= totalPacketsGenerated
                       (stats (packetArrival cfg rand t n w).2)).
  { unfold packetArrival, mathRandom.
    destruct (packetGenMode cfg); simpl; case_match; simpl;
      rewrite ?length_app; simpl; lia. }
  destruct (packetArrival cfg rand t n w) as [n1 w1]. simpl in Ha.
  assert (Ht : maxQueueDepth
                 (stats (transition cfg rand t busy n1 w1 (state n, None)).1.2)
               = maxQueueDepth (stats w1)
               /\ totalPacketsGenerated
                    (stats (transition cfg rand t busy n1 w1 (state n, None)).1.2)
                  = totalPacketsGenerated (stats w1)
               /\ (length (packetQueue
                     (transition cfg rand t busy n1 w1 (state n, None)).1.1)
                   <= length (packetQueue n1))%nat).
  { unfold_transition.
    destruct (state n1); simpl; repeat case_match; simpl in *;
      simplify_eq; simpl; split_and!; try done; lia. }
  destruct (transition cfg rand t busy n1 w1 (state n, None)) as [[n2 w2] c2].
  simpl in *. lia.
Qed.

Lemma simLoop_depthBounded cfg rand k :
  depthBounded (simLoop cfg rand k).1 (simLoop cfg rand k).2.
Proof.
  apply (simLoop_joint cfg rand depthBounded).
  - intros ns ms w [Hall Hb]. split.
    + eapply Forall_impl; [exact Hall|]. simpl. intros n Hn.
      unfold channelStats. repeat case_match; simpl; done.
    + unfold channelStats. repeat case_match; simpl; done.
  - intros t pre n post w HJ. eapply depthBounded_step; [exact HJ|].
    intros Hn Hb. unfold markDoomed.
    destruct (isCurrentTxDoomed n); simpl; lia.
  - intros t pa fa col pvs idx pre n post w HJ.
    eapply depthBounded_step; [exact HJ|]. intros Hn Hb.
    destruct (navNode_world cfg t pa fa col pvs idx n w) as (-> & _).
    destruct (navNode_node cfg t pa fa col pvs idx n w) as [v ->].
    simpl. lia.
  - intros t busy col pre n post w HJ.
    eapply depthBounded_step; [exact HJ|]. apply fsmNode_depth.
  - split; [|simpl; lia].
    apply initNodes_Forall. intros i. simpl. lia.
Qed.

(** X6.  [maxQueueDepth] bounds the queue of every node after any number
    of ticks, and never exceeds the number of generated packets. *)
Theorem max_queue_depth_bounds cfg rand k :
  Forall (fun n => Z.of_nat (length (packetQueue n))
                   <= maxQueueDepth (stats (simLoop cfg rand k).2))
         (simLoop cfg rand k).1
  /\ 0 <= maxQueueDepth (stats (simLoop cfg rand k).2)
       <= totalPacketsGenerated (stats (simLoop cfg rand k).2).
Proof. apply simLoop_depthBounded. Qed.

(** *** Ranges of the protocol counters *)

Lemma simLoop_node_inv cfg rand (I : Node -> Prop) :
  (forall b n, I n -> I (setDoomed b n)) ->
  (forall t pa fa col pvs idx n w, I n ->
     I (navNode cfg t pa fa col pvs idx n w).1) ->
  (forall t busy col n w, I n -> I (fsmNode cfg rand t busy col n w).1) ->
  (forall i, I (newNode cfg i)) ->
  forall k, Forall I (simLoop cfg rand k).1.
Proof.
  intros Hd Hnav Hfsm Hinit k.
  apply (simLoop_inv cfg rand (fun _ => True) I); try done.
  - intros t n w _ Hn. split; [done|].
    destruct (markDoomed_node t n w) as [-> | ->]; [done|by apply Hd].
  - intros t pa fa col pvs idx n w _ Hn. split; [done|]. by apply Hnav.
  - intros t busy col n w _ Hn. split; [done|]. by apply Hfsm.
  - by apply initNodes_Forall.
Qed.

(** A node invariant that ignores the queue passes through the state
    machine step if it passes through the transition. *)
Lemma fsmNode_from_transition cfg rand (I : Node -> Prop) :
  (forall q n, I n -> I (setPacketQueue q n)) ->
  (forall t busy n w cell, I n -> I (transition cfg rand t busy n w cell).1.1) ->
  forall t busy col n w, I n -> I (fsmNode cfg rand t busy col n w).1.
Proof.
  intros Hq Ht t busy col n w Hn. unfold fsmNode.
  assert (Ha : I (packetArrival cfg rand t n w).1).
  { destruct (packetArrival_node cfg rand t n w) as [-> | ->]; [done|].
    by apply Hq. }
  destruct (packetArrival cfg rand t n w) as [n1 w1]. simpl in Ha.
  pose proof (Ht t busy n1 w1 (state n, None) Ha) as H.
  by destruct (transition cfg rand t busy n1 w1 (state n, None)) as [[n2 w2] c2].
Qed.

Lemma navNode_keeps cfg (I : Node -> Prop) :
  (forall v n, I n -> I (setVcs v n)) ->
  forall t pa fa col pvs idx n w, I n ->
    I (navNode cfg t pa fa col pvs idx n w).1.
Proof.
  intros Hv t pa fa col pvs idx n w Hn.
  destruct (navNode_node cfg t pa fa col pvs idx n w) as [v ->]. by apply Hv.
Qed.

Lemma simLoop_retryOk cfg rand k :
  minBe cfg <= maxBe cfg -> Forall (retryOk cfg) (simLoop cfg rand k).1.
Proof.
  intros Hbe. apply simLoop_node_inv; try done.
  - apply navNode_keeps. done.
  - apply fsmNode_from_transition; [done|].
    intros t busy n w cell. unfold retryOk. unfold_transition.
    destruct (state n); simpl; repeat case_match; simpl; bool_facts; lia.
  - intros i. unfold retryOk. simpl. lia.
Qed.

(** X7.  With [minBe <= maxBe], at every tick boundary the retry count of
    every node is between [0] and [maxNb], and its back-off exponent
    between [minBe] and [maxBe]. *)
Theorem retry_counters_in_range cfg rand k :
  minBe cfg <= maxBe cfg ->
  Forall (fun n => 0 <= nb n <= Z.max 0 (maxNb cfg)
                   /\ minBe cfg <= be n <= maxBe cfg)
         (simLoop cfg rand k).1.
Proof. apply simLoop_retryOk. Qed.

(** X7 (witness): the pause scenario after twenty ticks. *)
Lemma retry_counters_in_range_witness :
  minBe scenarioPause <= maxBe scenarioPause
  /\ Forall (fun n => 0 <= nb n <= Z.max 0 (maxNb scenarioPause)
                      /\ minBe scenarioPause <= be n <= maxBe scenarioPause)
            (simLoop scenarioPause pauseRand 20).1.
Proof.
  assert (H : minBe scenarioPause <= maxBe scenarioPause)
    by (vm_compute; discriminate).
  split; [exact H|].
  exact (retry_counters_in_range scenarioPause pauseRand 20 H).
Defined.

Lemma draw_upper (r : Q) (b : Z) :
  (0 <= r)%Q -> (r < 1)%Q -> 0 <= b ->
  0 <= Qfloor (r * inject_Z (2 ^ b - 1 + 1)) <= 2 ^ b - 1.
Proof.
  intros H0 H1 Hb. split; [by apply draw_nonneg|].
  replace (2 ^ b - 1 + 1) with (2 ^ b) by lia.
  assert (Hm : 0 < 2 ^ b) by (apply Z.pow_pos_nonneg; lia).
  assert (Hlt : Qfloor (r * inject_Z (2 ^ b)) < 2 ^ b); [|lia].
  rewrite Zlt_Qlt.
  apply Qle_lt_trans with (r * inject_Z (2 ^ b))%Q; [apply Qfloor_le|].
  assert (E : (inject_Z (2 ^ b) == 1 * inject_Z (2 ^ b))%Q)
    by (by rewrite Qmult_1_l).
  rewrite E at 2. apply Qmult_lt_compat_r; [|done].
  change 0%Q with (inject_Z 0). by rewrite <- Zlt_Qlt.
Qed.

Lemma simLoop_counterOk cfg rand k :
  validRandom rand -> 0 <= pe cfg -> 0 <= minBe cfg <= maxBe cfg ->
  Forall (counterOk cfg) (simLoop cfg rand k).1.
Proof.
  intros Hr Hpe Hbe.
  assert (Hpow : 1 <= 2 ^ maxBe cfg).
  { pose proof (Z.pow_pos_nonneg 2 (maxBe cfg)). lia. }
  apply simLoop_node_inv; try done.
  - apply navNode_keeps. done.
  - apply fsmNode_from_transition; [done|].
    intros t busy n w cell [Hb Hc]. unfold counterOk.
    destruct (Hr (randomCalls w)) as [Hr0 Hr1].
    pose proof (draw_upper (rand (randomCalls w)) (be n) Hr0 Hr1 ltac:(lia))
      as Hdraw.
    assert (Hmono : 2 ^ be n <= 2 ^ maxBe cfg)
      by (apply Z.pow_le_mono_r; lia).
    unfold_transition.
    destruct (state n); simpl; repeat case_match; simpl; bool_facts; lia.
  - intros i. unfold counterOk. simpl. lia.
Qed.

(** X8.  With a generator in [[0, 1)], [pe >= 0] and
    [0 <= minBe <= maxBe], the back-off counter of every node is, at every
    tick boundary, between [0] and [pe + 2^maxBe - 1]. *)
Theorem backoff_counter_in_range cfg rand k :
  validRandom rand -> 0 <= pe cfg -> 0 <= minBe cfg <= maxBe cfg ->
  Forall (fun n => 0 <= backoffCounter n <= pe cfg + 2 ^ maxBe cfg - 1)
         (simLoop cfg rand k).1.
Proof.
  intros Hr Hpe Hbe.
  eapply Forall_impl; [by apply simLoop_counterOk|].
  by intros n [_ H].
Qed.

(** X8 (witness): the pause scenario after twenty ticks. *)
Lemma backoff_counter_in_range_witness :
  validRandom pauseRand /\ 0 <= pe scenarioPause
  /\ 0 <= minBe scenarioPause <= maxBe scenarioPause
  /\ Forall (fun n => 0 <= backoffCounter n
                      <= pe scenarioPause + 2 ^ maxBe scenarioPause - 1)
            (simLoop scenarioPause pauseRand 20).1.
Proof.
  assert (H0 : validRandom pauseRand).
  { intros [|[|i]]; split; vm_compute; (discriminate || reflexivity). }
  assert (H1 : 0 <= pe scenarioPause) by (vm_compute; discriminate).
  assert (H2 : 0 <= minBe scenarioPause <= maxBe scenarioPause)
    by (split; vm_compute; discriminate).
  split_and!; [exact H0|exact H1|apply H2|apply H2|].
  exact (backoff_counter_in_range scenarioPause pauseRand 20 H0 H1 H2).
Defined.

Lemma simLoop_navOk cfg rand k :
  0 <= dataSlots cfg + 3 -> Forall (navOk cfg) (simLoop cfg rand k).1.
Proof.
  intros Hd. apply simLoop_node_inv; try done.
  - intros t pa fa col pvs idx n w. unfold navOk, navBound, navNode.
    unfold LEN_DATA, LEN_RIFS, LEN_ACK_P, LEN_ACK_FC. intros Hn.
    destruct (isTxState (state n)); [done|].
    destruct pa, (fa && negb col); simpl; repeat case_match; simpl;
      bool_facts; lia.
  - apply fsmNode_from_transition; [done|].
    intros t busy n w cell. unfold navOk, navBound. unfold_transition.
    destruct (state n); simpl; repeat case_match; simpl; lia.
  - intros i. unfold navOk, navBound. simpl. lia.
Qed.

(** X9.  With [dataSlots >= -3] the NAV of every node is, at every tick
    boundary, never negative and at most
    [max(collisionPenalty, dataSlots + 3) - 1] (or [0] if that is
    negative). *)
Theorem nav_in_range cfg rand k :
  0 <= dataSlots cfg + 3 ->
  Forall (fun n => 0 <= vcs n
                   <= Z.max 0 (Z.max (collisionPenalty cfg) (dataSlots cfg + 3) - 1))
         (simLoop cfg rand k).1.
Proof. apply simLoop_navOk. Qed.

(** X9 (witness): the pause scenario after five ticks. *)
Lemma nav_in_range_witness :
  0 <= dataSlots scenarioPause + 3
  /\ Forall (fun n => 0 <= vcs n
                      <= Z.max 0 (Z.max (collisionPenalty scenarioPause)
                                    (dataSlots scenarioPause + 3) - 1))
            (simLoop scenarioPause pauseRand 5).1.
Proof.
  assert (H : 0 <= dataSlots scenarioPause + 3) by (vm_compute; discriminate).
  split; [exact H|].
  exact (nav_in_range scenarioPause pauseRand 5 H).
Defined.

Lemma simLoop_frameOk cfg rand k : Forall (frameOk cfg) (simLoop cfg rand k).1.
Proof.
  apply simLoop_node_inv; try done.
  - apply navNode_keeps. done.
  - apply fsmNode_from_transition; [done|].
    intros t busy n w cell. unfold frameOk. unfold_transition.
    destruct (state n) eqn:Es; simpl; rewrite ?Es;
      repeat (case_match; simpl; rewrite ?Es; simpl); bool_facts;
      simpl in *; try congruence; try done; lia.
Qed.

(** *** One tick of one node *)

Lemma forEachFrom_map f (g : Node -> Node) :
  (forall i n w, (f i n w).1 = g n) ->
  forall ns idx w, (forEachFrom f idx ns w).1 = map g ns.
Proof.
  intros Hf ns. induction ns as [|n rest IH]; intros idx w; simpl; [done|].
  pose proof (Hf idx n w) as H1.
  destruct (f idx n w) as [n' w']. simpl in H1.
  specialize (IH (S idx) w').
  destruct (forEachFrom f (S idx) rest w') as [rest' w'']. simpl in *.
  by rewrite H1, IH.
Qed.

Lemma setDoomed_same (n : Node) : setDoomed (isCurrentTxDoomed n) n = n.
Proof. by destruct n. Qed.

(** The collision phase marks the transmitters of a collision tick. *)
Lemma collisionPhase_nodes t ns w :
  (collisionPhase t ns w).1
  = map (fun n => setDoomed (isCurrentTxDoomed n
                             || (collisionOccurring ns && isTxState (state n)))
                    n) ns.
Proof.
  unfold collisionPhase, forEach. destruct (collisionOccurring ns); simpl.
  - apply forEachFrom_map. intros i n w0.
    destruct (isTxState (state n)).
    + unfold markDoomed. destruct (isCurrentTxDoomed n) eqn:E; simpl.
      * by rewrite <- E, setDoomed_same.
      * done.
    + rewrite orb_false_r. by rewrite setDoomed_same.
  - rewrite <- (map_id ns) at 1. apply map_ext. intros n.
    rewrite orb_false_r. by rewrite setDoomed_same.
Qed.

Lemma forEachFrom_lookup_fwd f ns idx w i n :
  ns !! i = Some n ->
  exists wi, (forEachFrom f idx ns w).1 !! i = Some (f (idx + i)%nat n wi).1.
Proof.
  intros Hn.
  destruct ((forEachFrom f idx ns w).1 !! i) as [m|] eqn:Hm.
  - destruct (forEachFrom_lookup f ns idx w i m Hm) as (n' & wi & Hn' & ->).
    rewrite Hn in Hn'. injection Hn' as <-. by exists wi.
  - apply lookup_ge_None in Hm. rewrite forEachFrom_length in Hm.
    apply lookup_lt_Some in Hn. lia.
Qed.

(** The node at a position after a tick is the state machine step of the
    node at that position before the tick, prepared by phases 1 and 2. *)
Lemma tickStep_node cfg rand t ns w i n :
  ns !! i = Some n ->
  exists wi,
    (tickStep cfg rand t (ns, w)).1 !! i
    = Some (fsmNode cfg rand t (physicalBusy ns) (collisionOccurring ns)
              (preFsm cfg ns n) wi).1.
Proof.
  intros Hn.
  destruct (tickStep_phases cfg rand t ns w)
    as (ns1 & w1 & ns2 & w2 & H1 & H2 & ->).
  rewrite navPhase_spec in H2. injection H2 as <- <-.
  assert (E1 : ns1 = (collisionPhase t ns (updStats (channelStats ns) w)).1)
    by (by rewrite H1).
  rewrite collisionPhase_nodes in E1. subst ns1.
  unfold forEach.
  match goal with
  | |- context [forEachFrom ?f 0 ?l ?v] =>
      destruct (forEachFrom_lookup_fwd f l 0%nat v i (preFsm cfg ns n))
        as [wi Hwi]
  end.
  { rewrite !list_lookup_fmap, Hn. reflexivity. }
  exists wi. exact Hwi.
Qed.

Lemma simLoop_node_step cfg rand k i n :
  (simLoop cfg rand k).1 !! i = Some n ->
  exists wi,
    (simLoop cfg rand (S k)).1 !! i
    = Some (fsmNode cfg rand (Z.of_nat k) (physicalBusy (simLoop cfg rand k).1)
              (collisionOccurring (simLoop cfg rand k).1)
              (preFsm cfg (simLoop cfg rand k).1 n) wi).1.
Proof.
  intros Hn. cbn [simLoop]. destruct (simLoop cfg rand k) as [ns w].
  by apply tickStep_node.
Qed.

Lemma preFsm_fields cfg ns n :
  state (preFsm cfg ns n) = state n
  /\ txProgress (preFsm cfg ns n) = txProgress n
  /\ backoffCounter (preFsm cfg ns n) = backoffCounter n
  /\ packetQueue (preFsm cfg ns n) = packetQueue n
  /\ isCurrentTxDoomed (preFsm cfg ns n)
     = isCurrentTxDoomed n || (collisionOccurring ns && isTxState (state n)).
Proof.
  unfold preFsm, navSpecNode. simpl.
  destruct (isTxState (state n)); done.
Qed.

(** The label and progress after the step, for a node inside a frame. *)
Lemma fsmNode_frame cfg rand t busy col n w :
  let r := (fsmNode cfg rand t busy col n w).1 in
  match state n with
  | TX_PREAMBLE =>
      0 <= txProgress n -> state r = TX_FC /\ txProgress r = 0
  | TX_FC => 0 <= txProgress n -> state r = TX_DATA /\ txProgress r = 0
  | TX_DATA =>
      if dataSlots cfg <=? txProgress n + 1
      then state r = WAIT_RIFS /\ txProgress r = 0
      else state r = TX_DATA /\ txProgress r = txProgress n + 1
  | WAIT_RIFS => 0 <= txProgress n -> state r = RX_ACK /\ txProgress r = 0
  | RX_ACK =>
      if 2 <=? txProgress n + 1
      then state r = IDLE \/ state r = SENSING \/ state r = FAILED
      else state r = RX_ACK /\ txProgress r = txProgress n + 1
  | _ => True
  end.
Proof.
  cbv zeta. unfold fsmNode.
  pose proof (packetArrival_state cfg rand t n w) as (Es & _ & Ep & _).
  destruct (packetArrival cfg rand t n w) as [n1 w1]. simpl in Es, Ep.
  assert (H : let r := (transition cfg rand t busy n1 w1 (state n, None)).1.1 in
    match state n1 with
    | TX_PREAMBLE =>
        0 <= txProgress n1 -> state r = TX_FC /\ txProgress r = 0
    | TX_FC => 0 <= txProgress n1 -> state r = TX_DATA /\ txProgress r = 0
    | TX_DATA =>
        if dataSlots cfg <=? txProgress n1 + 1
        then state r = WAIT_RIFS /\ txProgress r = 0
        else state r = TX_DATA /\ txProgress r = txProgress n1 + 1
    | WAIT_RIFS => 0 <= txProgress n1 -> state r = RX_ACK /\ txProgress r = 0
    | RX_ACK =>
        if 2 <=? txProgress n1 + 1
        then state r = IDLE \/ state r = SENSING \/ state r = FAILED
        else state r = RX_ACK /\ txProgress r = txProgress n1 + 1
    | _ => True
    end).
  { cbv zeta. unfold_transition. change (1 + 1) with 2.
    destruct (state n1) eqn:E1; simpl; try done;
      repeat (case_match; simpl; rewrite ?E1; simpl); bool_facts;
      simpl in *; try lia; auto. }
  cbv zeta in H. rewrite Es, Ep in H.
  by destruct (transition cfg rand t busy n1 w1 (state n, None)) as [[n2 w2] c2].
Qed.

Lemma setPacketQueue_same (n : Node) : setPacketQueue (packetQueue n) n = n.
Proof. by destruct n. Qed.

(** The node a state machine step returns is the transition of the node
    with its queue after arrival. *)
Lemma fsmNode_via_transition cfg rand t busy col n w :
  exists q w1,
    (fsmNode cfg rand t busy col n w).1
    = (transition cfg rand t busy (setPacketQueue q n) w1 (state n, None)).1.1.
Proof.
  unfold fsmNode.
  destruct (packetArrival_node cfg rand t n w) as [E|E];
    destruct (packetArrival cfg rand t n w) as [n1 w1]; simpl in E; subst n1.
  - exists (packetQueue n), w1. rewrite setPacketQueue_same.
    by destruct (transition cfg rand t busy n w1 (state n, None)) as [[n2 w2] c2].
  - exists (packetQueue n ++ [t]), w1.
    by destruct (transition cfg rand t busy _ w1 (state n, None)) as [[n2 w2] c2].
Qed.

Lemma transition_allowed cfg rand t busy n w cell :
  frameOk cfg n ->
  allowedStep (state n) (state (transition cfg rand t busy n w cell).1.1) = true.
Proof.
  unfold frameOk. unfold_transition.
  destruct (state n) eqn:Es; simpl; rewrite ?Es;
    repeat (case_match; simpl; rewrite ?Es; simpl); bool_facts;
    simpl in *; try done; try congruence; lia.
Qed.

Lemma transition_preamble_fresh cfg rand t busy n w cell :
  frameOk cfg n ->
  state (transition cfg rand t busy n w cell).1.1 = TX_PREAMBLE ->
  isCurrentTxDoomed (transition cfg rand t busy n w cell).1.1 = false.
Proof.
  unfold frameOk. unfold_transition.
  destruct (state n) eqn:Es; simpl; rewrite ?Es;
    repeat (case_match; simpl; rewrite ?Es; simpl); bool_facts;
    simpl in *; try done; try congruence; lia.
Qed.

Lemma transition_doomed_sticks cfg rand t busy n w cell :
  isCurrentTxDoomed n = true ->
  (state (transition cfg rand t busy n w cell).1.1 <> TX_PREAMBLE ->
   isCurrentTxDoomed (transition cfg rand t busy n w cell).1.1 = true)
  /\ successCount (stats (transition cfg rand t busy n w cell).1.2)
     = successCount (stats w).
Proof.
  intros Hd. unfold_transition.
  destruct (state n) eqn:Es; simpl; rewrite ?Es, ?Hd;
    repeat (case_match; simpl; rewrite ?Es, ?Hd; simpl);
    simpl in *; split; try done; try congruence.
Qed.

Lemma sameProtocol_frameOk cfg n m :
  sameProtocol n m -> frameOk cfg n -> frameOk cfg m.
Proof. by intros (v & b & ->). Qed.

(** The nodes of two consecutive tick boundaries, position by position. *)
Lemma simLoop_step_back cfg rand k i n' :
  (simLoop cfg rand (S k)).1 !! i = Some n' ->
  exists n q w1,
    (simLoop cfg rand k).1 !! i = Some n
    /\ frameOk cfg (setPacketQueue q (preFsm cfg (simLoop cfg rand k).1 n))
    /\ n' = (transition cfg rand (Z.of_nat k)
               (physicalBusy (simLoop cfg rand k).1)
               (setPacketQueue q (preFsm cfg (simLoop cfg rand k).1 n)) w1
               (state (preFsm cfg (simLoop cfg rand k).1 n), None)).1.1.
Proof.
  intros Hn'.
  assert (Hlt : (i < length (simLoop cfg rand k).1)%nat).
  { apply lookup_lt_Some in Hn'.
    assert (L : length (map id (simLoop cfg rand (S k)).1)
                = length (map id (simLoop cfg rand k).1))
      by (by rewrite !simLoop_ids).
    rewrite !length_map in L. lia. }
  apply lookup_lt_is_Some in Hlt as [n Hn].
  destruct (simLoop_node_step cfg rand k i n Hn) as [wi Hwi].
  rewrite Hn' in Hwi. injection Hwi as ->.
  destruct (fsmNode_via_transition cfg rand (Z.of_nat k)
              (physicalBusy (simLoop cfg rand k).1)
              (collisionOccurring (simLoop cfg rand k).1)
              (preFsm cfg (simLoop cfg rand k).1 n) wi) as (q & w1 & E).
  exists n, q, w1. split; [done|]. split; [|done].
  pose proof (simLoop_frameOk cfg rand k) as Hf.
  rewrite Forall_lookup in Hf. specialize (Hf i n Hn).
  destruct (preFsm_fields cfg (simLoop cfg rand k).1 n) as (Es & Ep & _).
  unfold frameOk in *. simpl. rewrite Es, Ep. exact Hf.
Qed.

(** X10.  At every tick boundary the frame progress of a node is [0] in
    [TX_PREAMBLE], [TX_FC] and [WAIT_RIFS], below [max(1, dataSlots)] in
    [TX_DATA] and at most [1] in [RX_ACK]; a node in [TX_PREAMBLE] is not
    doomed; and no node is ever labelled [COLLISION]. *)
Theorem frame_progress_in_range cfg rand k :
  Forall (fun n =>
            state n <> COLLISION
            /\ (state n = TX_PREAMBLE ->
                txProgress n = 0 /\ isCurrentTxDoomed n = false)
            /\ (state n = TX_FC \/ state n = WAIT_RIFS -> txProgress n = 0)
            /\ (state n = TX_DATA ->
                0 <= txProgress n < Z.max 1 (dataSlots cfg))
            /\ (state n = RX_ACK -> 0 <= txProgress n <= 1))
         (simLoop cfg rand k).1.
Proof.
  apply Forall_lookup. intros i n Hn.
  pose proof (simLoop_frameOk cfg rand k) as Hf.
  rewrite Forall_lookup in Hf. specialize (Hf i n Hn).
  assert (Hd : state n = TX_PREAMBLE -> isCurrentTxDoomed n = false).
  { destruct k as [|k].
    - cbn [simLoop] in Hn. simpl in Hn. unfold initNodes in Hn.
      rewrite list_lookup_fmap in Hn.
      destruct (seq 0 (Z.to_nat (nodeCount cfg)) !! i); [|done].
      simpl in Hn. injection Hn as <-. done.
    - destruct (simLoop_step_back cfg rand k i n Hn)
        as (n0 & q & w1 & _ & Hf0 & ->).
      by apply transition_preamble_fresh. }
  unfold frameOk in Hf.
  split_and!; [intros E; by rewrite E in Hf|intros E|intros [E|E]|intros E..];
    rewrite E in Hf; auto.
Qed.

(** X11.  From one tick boundary to the next the label of a node follows
    an edge of the state machine: a frame in progress only advances, a
    transmission starts only from [SENSING], [BACKOFF] or
    [BACKOFF_PAUSED], and [FAILED] lasts one tick. *)
Theorem label_steps_allowed cfg rand k i n n' :
  (simLoop cfg rand k).1 !! i = Some n ->
  (simLoop cfg rand (S k)).1 !! i = Some n' ->
  allowedStep (state n) (state n') = true.
Proof.
  intros Hn Hn'.
  destruct (simLoop_step_back cfg rand k i n' Hn')
    as (n0 & q & w1 & Hn0 & Hf0 & ->).
  rewrite Hn in Hn0. injection Hn0 as <-.
  pose proof (transition_allowed cfg rand (Z.of_nat k)
                (physicalBusy (simLoop cfg rand k).1) _ w1
                (state (preFsm cfg (simLoop cfg rand k).1 n), None) Hf0) as H.
  destruct (preFsm_fields cfg (simLoop cfg rand k).1 n) as (Es & _).
  cbn [state setPacketQueue] in H. rewrite Es in H. rewrite Es. exact H.
Qed.

(** X11 (witness): node 0 of scenario 3 goes from [SENSING] to
    [TX_PREAMBLE] during tick 1. *)
Lemma label_steps_allowed_witness :
  let n := {| id := 0; state := SENSING; packetQueue := [0]; vcs := 0;
              nb := 0; be := 0; backoffCounter := 0; txProgress := 0;
              isCurrentTxDoomed := false |} in
  let n' := setState TX_PREAMBLE n in
  (simLoop scenario3 zeroRand 1).1 !! 0%nat = Some n
  /\ (simLoop scenario3 zeroRand 2).1 !! 0%nat = Some n'
  /\ allowedStep (state n) (state n') = true.
Proof.
  intros n n'.
  assert (H1 : (simLoop scenario3 zeroRand 1).1 !! 0%nat = Some n)
    by (vm_compute; reflexivity).
  assert (H2 : (simLoop scenario3 zeroRand 2).1 !! 0%nat = Some n')
    by (vm_compute; reflexivity).
  split; [exact H1|]. split; [exact H2|].
  exact (label_steps_allowed scenario3 zeroRand 1 0 n n' H1 H2).
Defined.

(** *** The air time of a frame *)

Lemma frame_next d j :
  1 <= d -> Z.of_nat (S j) <= d + 4 ->
  match frameLabel d j with
  | TX_PREAMBLE | TX_FC | WAIT_RIFS =>
      frameProgress d j = 0
      /\ frameProgress d (S j) = 0
      /\ frameLabel d (S j)
         = match frameLabel d j with
           | TX_PREAMBLE => TX_FC
           | TX_FC => TX_DATA
           | _ => RX_ACK
           end
  | TX_DATA =>
      if d <=? frameProgress d j + 1
      then frameLabel d (S j) = WAIT_RIFS /\ frameProgress d (S j) = 0
      else frameLabel d (S j) = TX_DATA
           /\ frameProgress d (S j) = frameProgress d j + 1
  | RX_ACK =>
      (2 <=? frameProgress d j + 1) = false
      /\ frameLabel d (S j) = RX_ACK
      /\ frameProgress d (S j) = frameProgress d j + 1
  | _ => False
  end.
Proof.
  intros Hd Hj.
  destruct j as [|[|j]].
  - simpl. done.
  - unfold frameLabel, frameProgress.
    change (Z.of_nat 2) with 2.
    destruct (Z.leb_spec 2 (d + 1)); [done|lia].
  - unfold frameLabel, frameProgress.
    repeat (case_match; bool_facts; try lia); split_and?; try done; try lia.
    apply Z.leb_gt. lia.
Qed.

Lemma frame_last d :
  1 <= d ->
  frameLabel d (Z.to_nat (d + 4)) = RX_ACK
  /\ frameProgress d (Z.to_nat (d + 4)) = 1.
Proof.
  intros Hd. unfold frameLabel, frameProgress.
  destruct (Z.to_nat (d + 4)) as [|[|j]] eqn:E; [lia|lia|].
  rewrite <- E. rewrite Z2Nat.id by lia.
  repeat (case_match; bool_facts; try lia). split; [done|lia].
Qed.

Lemma simLoop_frame cfg rand k i n :
  1 <= dataSlots cfg ->
  (simLoop cfg rand k).1 !! i = Some n -> state n = TX_PREAMBLE ->
  forall j, Z.of_nat j <= dataSlots cfg + 4 ->
    exists m, (simLoop cfg rand (k + j)).1 !! i = Some m
              /\ state m = frameLabel (dataSlots cfg) j
              /\ txProgress m = frameProgress (dataSlots cfg) j.
Proof.
  intros Hd Hn Hs j. induction j as [|j IH]; intros Hj.
  - rewrite Nat.add_0_r. exists n. split; [done|]. split; [done|].
    pose proof (simLoop_frameOk cfg rand k) as Hf.
    rewrite Forall_lookup in Hf. specialize (Hf i n Hn).
    unfold frameOk in Hf. by rewrite Hs in Hf.
  - destruct IH as (m & Hm & Es & Ep); [lia|].
    replace (k + S j)%nat with (S (k + j)) by lia.
    destruct (simLoop_node_step cfg rand (k + j) i m Hm) as [wi Hwi].
    eexists. split; [exact Hwi|].
    pose proof (fsmNode_frame cfg rand (Z.of_nat (k + j))
                  (physicalBusy (simLoop cfg rand (k + j)).1)
                  (collisionOccurring (simLoop cfg rand (k + j)).1)
                  (preFsm cfg (simLoop cfg rand (k + j)).1 m) wi) as Hstep.
    cbv zeta in Hstep.
    destruct (preFsm_fields cfg (simLoop cfg rand (k + j)).1 m)
      as (Es' & Ep' & _).
    rewrite Es', Ep', Es, Ep in Hstep.
    pose proof (frame_next (dataSlots cfg) j Hd Hj) as Hnext.
    destruct (frameLabel (dataSlots cfg) j); try done.
    + destruct Hnext as (E0 & -> & ->). apply Hstep. lia.
    + destruct Hnext as (E0 & -> & ->). apply Hstep. lia.
    + destruct (dataSlots cfg <=? frameProgress (dataSlots cfg) j + 1);
        destruct Hnext as [-> ->]; exact Hstep.
    + destruct Hnext as (E0 & -> & ->). apply Hstep. lia.
    + destruct Hnext as (E0 & -> & ->). by rewrite E0 in Hstep.
Qed.

(** X12.  The air time of an attempt is [3 + dataSlots + 2] ticks: a node
    that is in [TX_PREAMBLE] at a tick boundary is in [TX_FC] one tick
    later, in [TX_DATA] for the next [dataSlots] ticks, then in
    [WAIT_RIFS], then in [RX_ACK] for two ticks, and has left the frame
    (to [IDLE], [SENSING] or [FAILED]) [dataSlots + 5] ticks later,
    whatever the other nodes do. *)
Theorem frame_air_time cfg rand k i n :
  1 <= dataSlots cfg ->
  (simLoop cfg rand k).1 !! i = Some n -> state n = TX_PREAMBLE ->
  (forall j, Z.of_nat j <= dataSlots cfg + 4 ->
     exists m, (simLoop cfg rand (k + j)).1 !! i = Some m
               /\ state m = frameLabel (dataSlots cfg) j)
  /\ exists m,
       (simLoop cfg rand (k + Z.to_nat (dataSlots cfg + 5))).1 !! i = Some m
       /\ (state m = IDLE \/ state m = SENSING \/ state m = FAILED).
Proof.
  intros Hd Hn Hs. split.
  - intros j Hj.
    destruct (simLoop_frame cfg rand k i n Hd Hn Hs j Hj) as (m & Hm & Em & _).
    by exists m.
  - destruct (simLoop_frame cfg rand k i n Hd Hn Hs
                (Z.to_nat (dataSlots cfg + 4)) ltac:(lia)) as (m & Hm & Es & Ep).
    destruct (frame_last (dataSlots cfg) Hd) as [El Epr].
    rewrite El in Es. rewrite Epr in Ep.
    replace (k + Z.to_nat (dataSlots cfg + 5))%nat
      with (S (k + Z.to_nat (dataSlots cfg + 4))) by lia.
    set (k' := (k + Z.to_nat (dataSlots cfg + 4))%nat) in *.
    destruct (simLoop_node_step cfg rand k' i m Hm) as [wi Hwi].
    eexists. split; [exact Hwi|].
    pose proof (fsmNode_frame cfg rand (Z.of_nat k')
                  (physicalBusy (simLoop cfg rand k').1)
                  (collisionOccurring (simLoop cfg rand k').1)
                  (preFsm cfg (simLoop cfg rand k').1 m) wi) as Hstep.
    cbv zeta in Hstep.
    destruct (preFsm_fields cfg (simLoop cfg rand k').1 m) as (Es' & Ep' & _).
    rewrite Es', Ep', Es, Ep in Hstep. exact Hstep.
Qed.

(** X12 (witness): node 0 of scenario 3 is in [TX_PREAMBLE] after two
    ticks and has left the frame eight ticks later. *)
Lemma frame_air_time_witness :
  let n := {| id := 0; state := TX_PREAMBLE; packetQueue := [0]; vcs := 0;
              nb := 0; be := 0; backoffCounter := 0; txProgress := 0;
              isCurrentTxDoomed := false |} in
  1 <= dataSlots scenario3
  /\ (simLoop scenario3 zeroRand 2).1 !! 0%nat = Some n
  /\ state n = TX_PREAMBLE
  /\ exists m,
       (simLoop scenario3 zeroRand
          (2 + Z.to_nat (dataSlots scenario3 + 5))).1 !! 0%nat = Some m
       /\ (state m = IDLE \/ state m = SENSING \/ state m = FAILED).
Proof.
  intros n.
  assert (H0 : 1 <= dataSlots scenario3) by (vm_compute; discriminate).
  assert (H1 : (simLoop scenario3 zeroRand 2).1 !! 0%nat = Some n)
    by (vm_compute; reflexivity).
  split; [exact H0|]. split; [exact H1|]. split; [reflexivity|].
  exact (proj2 (frame_air_time scenario3 zeroRand 2 0 n H0 H1 eq_refl)).
Defined.

(** *** Collisions doom, busy channels freeze *)

Lemma fsmNode_doomed_no_success cfg rand t busy col n w :
  isCurrentTxDoomed n = true ->
  successCount (stats (fsmNode cfg rand t busy col n w).2)
  = successCount (stats w).
Proof.
  intros Hd. unfold fsmNode.
  pose proof (packetArrival_stats cfg rand t n w) as (_ & _ & Hs).
  assert (Hd1 : isCurrentTxDoomed (packetArrival cfg rand t n w).1 = true)
    by (by destruct (packetArrival_node cfg rand t n w) as [-> | ->]).
  destruct (packetArrival cfg rand t n w) as [n1 w1]. simpl in Hs, Hd1.
  destruct (transition_doomed_sticks cfg rand t busy n1 w1 (state n, None) Hd1)
    as [_ Ht].
  destruct (transition cfg rand t busy n1 w1 (state n, None)) as [[n2 w2] c2].
  simpl in *. congruence.
Qed.

(** X13.  A transmitter caught in a collision tick is doomed at the end
    of the tick, a doomed node stays doomed until it starts a new
    preamble, and the state machine step of a doomed node never counts a
    success: an attempt that overlapped another cannot succeed. *)
Theorem collision_dooms_attempt cfg rand :
  (forall k i n n',
     (simLoop cfg rand k).1 !! i = Some n ->
     (simLoop cfg rand (S k)).1 !! i = Some n' ->
     isCurrentTxDoomed n = true
     \/ (collisionOccurring (simLoop cfg rand k).1 = true
         /\ isTxState (state n) = true) ->
     state n' <> TX_PREAMBLE ->
     isCurrentTxDoomed n' = true)
  /\ (forall t busy col n w,
        isCurrentTxDoomed n = true ->
        successCount (stats (fsmNode cfg rand t busy col n w).2)
        = successCount (stats w)).
Proof.
  split; [|apply fsmNode_doomed_no_success].
  intros k i n n' Hn Hn' Hd Hs.
  destruct (simLoop_step_back cfg rand k i n' Hn')
    as (n0 & q & w1 & Hn0 & _ & ->).
  rewrite Hn in Hn0. injection Hn0 as <-.
  apply transition_doomed_sticks; [|done].
  destruct (preFsm_fields cfg (simLoop cfg rand k).1 n) as (_ & _ & _ & _ & Ed).
  cbn [isCurrentTxDoomed setPacketQueue]. rewrite Ed.
  destruct Hd as [->|[-> ->]]; [done|]. apply orb_true_r.
Qed.

Lemma transition_backoff cfg rand t busy n w cell :
  state n = BACKOFF \/ state n = BACKOFF_PAUSED ->
  let r := (transition cfg rand t busy n w cell).1.1 in
  (state r = BACKOFF /\ backoffCounter r = backoffCounter n - 1
   /\ 1 < backoffCounter n /\ busy = false /\ vcs n = 0)
  \/ (state r = TX_PREAMBLE /\ backoffCounter r = backoffCounter n
      /\ backoffCounter n <= 1 /\ busy = false /\ vcs n = 0)
  \/ (state r = BACKOFF_PAUSED /\ backoffCounter r = backoffCounter n
      /\ (busy = true \/ vcs n <> 0)).
Proof.
  intros Hs. cbv zeta. unfold_transition.
  destruct Hs as [Es|Es]; rewrite Es; simpl;
    repeat (case_match; simpl); bool_facts;
    repeat match goal with
      | H : negb ?b && _ = true |- _ =>
          apply andb_true_iff in H as [?%negb_true_iff ?%Z.eqb_eq]
      | H : negb ?b && _ = false |- _ =>
          apply andb_false_iff in H as [?%negb_false_iff|?%Z.eqb_neq]
      end;
    first [ left; split_and!; (done || lia)
          | right; left; split_and!; (done || lia)
          | right; right; split_and!; auto ].
Qed.

(** X14.  Back-off freeze: during a tick a node in [BACKOFF] or
    [BACKOFF_PAUSED] either counts down by exactly one on a physically
    idle channel, or starts transmitting with its counter at most one on
    a physically idle channel, or is paused with its counter unchanged;
    when the channel is physically busy it is always paused. *)
Theorem backoff_freezes_when_busy cfg rand k i n n' :
  (simLoop cfg rand k).1 !! i = Some n ->
  (simLoop cfg rand (S k)).1 !! i = Some n' ->
  state n = BACKOFF \/ state n = BACKOFF_PAUSED ->
  ((state n' = BACKOFF /\ backoffCounter n' = backoffCounter n - 1
    /\ 1 < backoffCounter n
    /\ physicalBusy (simLoop cfg rand k).1 = false)
   \/ (state n' = TX_PREAMBLE /\ backoffCounter n' = backoffCounter n
       /\ backoffCounter n <= 1
       /\ physicalBusy (simLoop cfg rand k).1 = false)
   \/ (state n' = BACKOFF_PAUSED /\ backoffCounter n' = backoffCounter n))
  /\ (physicalBusy (simLoop cfg rand k).1 = true ->
      state n' = BACKOFF_PAUSED /\ backoffCounter n' = backoffCounter n).
Proof.
  intros Hn Hn' Hs.
  destruct (simLoop_step_back cfg rand k i n' Hn')
    as (n0 & q & w1 & Hn0 & _ & ->).
  rewrite Hn in Hn0. injection Hn0 as <-.
  destruct (preFsm_fields cfg (simLoop cfg rand k).1 n) as (Es & _ & Ec & _).
  pose proof (transition_backoff cfg rand (Z.of_nat k)
                (physicalBusy (simLoop cfg rand k).1)
                (setPacketQueue q (preFsm cfg (simLoop cfg rand k).1 n)) w1
                (state (preFsm cfg (simLoop cfg rand k).1 n), None)) as H.
  cbn [state backoffCounter vcs setPacketQueue] in H. cbv zeta in H.
  rewrite Es, Ec in H. specialize (H Hs). rewrite Es.
  destruct H as [(H1 & H2 & H3 & H4 & _)|[(H1 & H2 & H3 & H4 & _)|(H1 & H2 & _)]].
  - split; [left; by split_and!|]. intros Hb. congruence.
  - split; [right; left; by split_and!|]. intros Hb. congruence.
  - split; [right; right; by split_and!|]. done.
Qed.

(** X14 (witness): node 1 of the pause scenario is paused during tick 2,
    while node 0 transmits its preamble. *)
Lemma backoff_freezes_when_busy_witness :
  let n := {| id := 1; state := BACKOFF; packetQueue := [0]; vcs := 0;
              nb := 0; be := 1; backoffCounter := 1; txProgress := 0;
              isCurrentTxDoomed := false |} in
  let n' := setVcs 39 (setState BACKOFF_PAUSED n) in
  (simLoop scenarioPause pauseRand 2).1 !! 1%nat = Some n
  /\ (simLoop scenarioPause pauseRand 3).1 !! 1%nat = Some n'
  /\ physicalBusy (simLoop scenarioPause pauseRand 2).1 = true
  /\ state n' = BACKOFF_PAUSED /\ backoffCounter n' = backoffCounter n.
Proof.
  intros n n'.
  assert (H1 : (simLoop scenarioPause pauseRand 2).1 !! 1%nat = Some n)
    by (vm_compute; reflexivity).
  assert (H2 : (simLoop scenarioPause pauseRand 3).1 !! 1%nat = Some n')
    by (vm_compute; reflexivity).
  assert (H3 : physicalBusy (simLoop scenarioPause pauseRand 2).1 = true)
    by (vm_compute; reflexivity).
  split; [exact H1|]. split; [exact H2|]. split; [exact H3|].
  exact (proj2 (backoff_freezes_when_busy scenarioPause pauseRand 2 1 n n'
                  H1 H2 (or_introl eq_refl)) H3).
Defined.

(** *** A station alone on the channel *)

Lemma packetArrival_solo cfg rand t n w :
  soloOk n w ->
  soloOk (packetArrival cfg rand t n w).1 (packetArrival cfg rand t n w).2.
Proof.
  unfold soloOk, packetArrival, mathRandom.
  destruct (packetGenMode cfg); simpl; case_match; simpl; done.
Qed.

Lemma transition_solo cfg rand t busy n w cell :
  soloOk n w ->
  soloOk (transition cfg rand t busy n w cell).1.1
         (transition cfg rand t busy n w cell).1.2.
Proof.
  unfold soloOk. intros (Hv & Hn & Hd & Hs). unfold_transition.
  destruct (state n); simpl; rewrite ?Hd, ?Hn, ?Hv; simpl;
    repeat (case_match; simpl); simplify_eq; simpl; done.
Qed.

Lemma fsmNode_solo cfg rand t busy col n w :
  soloOk n w ->
  soloOk (fsmNode cfg rand t busy col n w).1 (fsmNode cfg rand t busy col n w).2.
Proof.
  intros H. unfold fsmNode.
  pose proof (packetArrival_solo cfg rand t n w H) as H1.
  destruct (packetArrival cfg rand t n w) as [n1 w1]. simpl in H1.
  pose proof (transition_solo cfg rand t busy n1 w1 (state n, None) H1) as H2.
  by destruct (transition cfg rand t busy n1 w1 (state n, None)) as [[n2 w2] c2].
Qed.

Lemma simLoop_solo cfg rand k :
  nodeCount cfg = 1 ->
  exists n, (simLoop cfg rand k).1 = [n] /\ soloOk n (simLoop cfg rand k).2.
Proof.
  intros Hc. induction k as [|k (n & En & Hn)].
  - exists (newNode cfg 0). cbn [simLoop fst snd]. unfold initNodes.
    rewrite Hc. split; [done|]. by unfold soloOk.
  - cbn [simLoop]. destruct (simLoop cfg rand k) as [ns w]. simpl in En, Hn.
    subst ns. rewrite tickStep_solo by apply Hn.
    eexists; split; [done|]. cbn [fst snd]. apply fsmNode_solo.
    destruct Hn as (Hv & Hnb & Hd & Hs). unfold soloOk. split_and!; try done;
      unfold channelStats, collisionOccurring, transmitters; simpl;
      destruct (isTxState (state n)); simpl; repeat case_match; simpl; tauto.
Qed.

(** X15.  A station alone on the channel never loses a packet: with
    [nodeCount = 1], after any number of ticks no collision and no
    failure has been counted, no tick went to the collision bin, every
    success is a first-attempt success, and every generated packet is
    either delivered or still in the queue. *)
Theorem single_station_never_collides cfg rand k :
  nodeCount cfg = 1 ->
  let s := stats (simLoop cfg rand k).2 in
  collisionCount s = 0 /\ failureCount s = 0 /\ channelCollisionTicks s = 0
  /\ success1st s = successCount s
  /\ totalPacketsGenerated s = successCount s + queued (simLoop cfg rand k).1.
Proof.
  intros Hc s. subst s.
  destruct (simLoop_solo cfg rand k Hc) as (n & En & Hv & Hnb & Hd & H1 & H2 & H3 & H4 & H5).
  pose proof (simLoop_buckets cfg rand k) as Hb. unfold successBuckets in Hb.
  destruct (simLoop_conserved cfg rand k) as [_ Hp]. unfold pending in Hp.
  split_and!; try done; lia.
Qed.

(** X15 (witness): the single station of the second scenario after fifty
    ticks. *)
Lemma single_station_never_collides_witness :
  nodeCount (scenario2With 100 2 0%Q) = 1
  /\ collisionCount (stats (simLoop (scenario2With 100 2 0%Q) zeroRand 50).2) = 0.
Proof.
  assert (H : nodeCount (scenario2With 100 2 0%Q) = 1) by reflexivity.
  split; [exact H|].
  exact (proj1 (single_station_never_collides (scenario2With 100 2 0%Q) zeroRand 50 H)).
Defined.

(** *** Counting arrivals *)

Lemma forEachFrom_count (g : World -> Z) f (c : Z) :
  (forall i n w, g (f i n w).2 = g w + c) ->
  forall ns idx w,
    g (forEachFrom f idx ns w).2 = g w + c * Z.of_nat (length ns).
Proof.
  intros Hf ns. induction ns as [|n rest IH]; intros idx w.
  - simpl. lia.
  - cbn [forEachFrom length]. pose proof (Hf idx n w) as H1.
    destruct (f idx n w) as [n' w']. simpl in H1.
    specialize (IH (S idx) w').
    destruct (forEachFrom f (S idx) rest w') as [rest' w'']. simpl in *. lia.
Qed.

Lemma transition_total cfg rand t busy n w cell :
  totalPacketsGenerated (stats (transition cfg rand t busy n w cell).1.2)
  = totalPacketsGenerated (stats w).
Proof.
  unfold_transition. destruct (state n); simpl; repeat (case_match; simpl); done.
Qed.

Lemma simLoop_length cfg rand k :
  length (simLoop cfg rand k).1 = Z.to_nat (nodeCount cfg).
Proof.
  rewrite <- (length_map id), simLoop_ids. unfold nodeIds.
  by rewrite length_map, length_seq.
Qed.

Section ArrivalCount.
Variables (cfg : SimConfig) (rand : nat -> Q) (c : Z -> Z).
Hypothesis Hc : forall t n w,
  totalPacketsGenerated (stats (packetArrival cfg rand t n w).2)
  = totalPacketsGenerated (stats w) + c t.

Lemma fsmNode_total t busy col n w :
  totalPacketsGenerated (stats (fsmNode cfg rand t busy col n w).2)
  = totalPacketsGenerated (stats w) + c t.
Proof.
  unfold fsmNode. pose proof (Hc t n w) as H1.
  destruct (packetArrival cfg rand t n w) as [n1 w1]. simpl in H1.
  pose proof (transition_total cfg rand t busy n1 w1 (state n, None)) as H2.
  destruct (transition cfg rand t busy n1 w1 (state n, None)) as [[n2 w2] c2].
  simpl in *. lia.
Qed.

Lemma tickStep_total t ns w :
  totalPacketsGenerated (stats (tickStep cfg rand t (ns, w)).2)
  = totalPacketsGenerated (stats w) + c t * Z.of_nat (length ns).
Proof.
  destruct (tickStep_phases cfg rand t ns w)
    as (ns1 & w1 & ns2 & w2 & H1 & H2 & ->).
  unfold forEach.
  rewrite (forEachFrom_count (fun w => totalPacketsGenerated (stats w)) _ (c t))
    by (intros; apply fsmNode_total).
  assert (L2 : length ns2 = length ns).
  { replace ns2 with (navPhase cfg t (isPreambleActive ns) (isFcActive ns)
                        (collisionOccurring ns) ns1 w1).1 by (by rewrite H2).
    unfold navPhase. rewrite forEachFrom_length.
    replace ns1 with (collisionPhase t ns (updStats (channelStats ns) w)).1
      by (by rewrite H1).
    apply collisionPhase_length. }
  assert (S2 : stats w2 = stats w1).
  { replace w2 with (navPhase cfg t (isPreambleActive ns) (isFcActive ns)
                        (collisionOccurring ns) ns1 w1).2 by (by rewrite H2).
    apply navPhase_stats. }
  assert (S1 : totalPacketsGenerated (stats w1) = totalPacketsGenerated (stats w)).
  { replace w1 with (collisionPhase t ns (updStats (channelStats ns) w)).2
      by (by rewrite H1).
    unfold collisionPhase, forEach.
    assert (E0 : totalPacketsGenerated (stats (updStats (channelStats ns) w))
                 = totalPacketsGenerated (stats w))
      by (unfold channelStats; repeat case_match; done).
    destruct (collisionOccurring ns); [|done].
    apply (forEachFrom_world _
             (fun w' => totalPacketsGenerated (stats w')
                        = totalPacketsGenerated (stats w))); [|done].
    intros i n w0 Hw0. destruct (isTxState (state n)); [|done].
    unfold markDoomed. by destruct (isCurrentTxDoomed n). }
  rewrite L2, S2, S1. done.
Qed.

Lemma simLoop_total_step k :
  totalPacketsGenerated (stats (simLoop cfg rand (S k)).2)
  = totalPacketsGenerated (stats (simLoop cfg rand k).2)
    + c (Z.of_nat k) * Z.max 0 (nodeCount cfg).
Proof.
  cbn [simLoop]. pose proof (simLoop_length cfg rand k) as HL.
  destruct (simLoop cfg rand k) as [ns w]. simpl in HL.
  rewrite tickStep_total, HL. cbn [snd]. lia.
Qed.
End ArrivalCount.

Lemma ceil_div_step (k p : Z) :
  0 <= k -> 0 < p ->
  (k + 1 + p - 1) / p
  = (k + p - 1) / p + (if Z.rem k p =? 0 then 1 else 0).
Proof.
  intros Hk Hp. rewrite Z.rem_mod_nonneg by lia.
  pose proof (Z.div_mod k p ltac:(lia)) as E.
  pose proof (Z.mod_pos_bound k p Hp) as B.
  destruct (k mod p =? 0) eqn:Er; bool_facts.
  - rewrite <- (Z.div_unique (k + p - 1) p (k / p) (p - 1)) by lia.
    symmetry. apply (Z.div_unique _ p _ 0); lia.
  - rewrite <- (Z.div_unique (k + p - 1) p (k / p + 1) (k mod p - 1)) by lia.
    symmetry. apply (Z.div_unique _ p _ (k mod p)); lia.
Qed.

Lemma packetArrival_interval_total cfg rand :
  packetGenMode cfg = INTERVAL ->
  forall t n w,
    totalPacketsGenerated (stats (packetArrival cfg rand t n w).2)
    = totalPacketsGenerated (stats w)
      + (if intervalDue t (packetInterval cfg) then 1 else 0).
Proof.
  intros Hm t n w. unfold packetArrival. rewrite Hm.
  destruct (intervalDue t (packetInterval cfg)); simpl; lia.
Qed.

(** X16.  Interval mode: with a period [p > 0] every node receives a
    packet at ticks [0, p, 2p, ...], so after [k] ticks the run has
    generated [nodeCount * ceil (k / p)] packets; with [p = 0] no packet
    is ever generated. *)
Theorem interval_arrival_count cfg rand k :
  packetGenMode cfg = INTERVAL ->
  (0 < packetInterval cfg ->
   totalPacketsGenerated (stats (simLoop cfg rand k).2)
   = Z.max 0 (nodeCount cfg)
     * ((Z.of_nat k + packetInterval cfg - 1) / packetInterval cfg))
  /\ (packetInterval cfg = 0 ->
      totalPacketsGenerated (stats (simLoop cfg rand k).2) = 0).
Proof.
  intros Hm. split; intros Hp; induction k as [|k IH].
  - simpl. rewrite Z.div_small by lia. lia.
  - rewrite (simLoop_total_step cfg rand _ (packetArrival_interval_total cfg rand Hm)).
    rewrite IH. replace (Z.of_nat (S k) + packetInterval cfg - 1)
      with (Z.of_nat k + 1 + packetInterval cfg - 1) by lia.
    rewrite ceil_div_step by lia. unfold intervalDue.
    destruct (packetInterval cfg =? 0) eqn:E0; bool_facts; [lia|].
    destruct (Z.rem (Z.of_nat k) (packetInterval cfg) =? 0); lia.
  - done.
  - rewrite (simLoop_total_step cfg rand _ (packetArrival_interval_total cfg rand Hm)).
    rewrite IH. unfold intervalDue. rewrite Hp. simpl. lia.
Qed.

(** X16 (witness): two nodes, period [1000], forty ticks: one packet
    each. *)
Lemma interval_arrival_count_witness :
  packetGenMode scenarioPause = INTERVAL /\ 0 < packetInterval scenarioPause
  /\ totalPacketsGenerated (stats (simLoop scenarioPause pauseRand 40).2) = 2.
Proof.
  assert (Hm : packetGenMode scenarioPause = INTERVAL) by reflexivity.
  assert (Hp : 0 < packetInterval scenarioPause) by (vm_compute; reflexivity).
  split; [exact Hm|]. split; [exact Hp|].
  exact (proj1 (interval_arrival_count scenarioPause pauseRand 40 Hm) Hp).
Defined.

Lemma packetArrival_random_total cfg rand (b : bool) :
  packetGenMode cfg = RANDOM ->
  (forall i, Qltb (rand i) (packetProb cfg) = b) ->
  forall t n w,
    totalPacketsGenerated (stats (packetArrival cfg rand t n w).2)
    = totalPacketsGenerated (stats w) + (if b then 1 else 0).
Proof.
  intros Hm Hb t n w. unfold packetArrival, mathRandom. rewrite Hm, Hb.
  destruct b; simpl; lia.
Qed.

Lemma simLoop_random_total cfg rand (b : bool) k :
  packetGenMode cfg = RANDOM ->
  (forall i, Qltb (rand i) (packetProb cfg) = b) ->
  totalPacketsGenerated (stats (simLoop cfg rand k).2)
  = (if b then Z.max 0 (nodeCount cfg) * Z.of_nat k else 0).
Proof.
  intros Hm Hb. induction k as [|k IH].
  - simpl. destruct b; lia.
  - rewrite (simLoop_total_step cfg rand _ (packetArrival_random_total cfg rand b Hm Hb)).
    rewrite IH. destruct b; lia.
Qed.

(** X17.  Random mode at the ends of the probability range, for a
    generator with values in [[0, 1)]: with [packetProb <= 0] no packet is
    ever generated, and with [packetProb >= 1] every node receives a
    packet at every tick. *)
Theorem random_arrival_extremes cfg rand k :
  packetGenMode cfg = RANDOM -> validRandom rand ->
  ((packetProb cfg <= 0)%Q ->
   totalPacketsGenerated (stats (simLoop cfg rand k).2) = 0)
  /\ ((1 <= packetProb cfg)%Q ->
      totalPacketsGenerated (stats (simLoop cfg rand k).2)
      = Z.max 0 (nodeCount cfg) * Z.of_nat k).
Proof.
  intros Hm Hr. split; intros Hp.
  - rewrite (simLoop_random_total cfg rand false); [done..|].
    intros i. unfold Qltb. apply negb_false_iff, Qle_bool_iff.
    destruct (Hr i) as [H0 _]. by apply Qle_trans with 0%Q.
  - rewrite (simLoop_random_total cfg rand true); [done..|].
    intros i. unfold Qltb. apply negb_true_iff.
    destruct (Qle_bool (packetProb cfg) (rand i)) eqn:E; [|done].
    apply Qle_bool_iff in E. destruct (Hr i) as [_ H1].
    exfalso. apply (Qlt_irrefl 1). apply Qle_lt_trans with (rand i); [|done].
    by apply Qle_trans with (packetProb cfg).
Qed.

(** X17 (witness): the saturated scenario generates two packets a tick. *)
Lemma random_arrival_extremes_witness :
  packetGenMode scenarioSaturated = RANDOM /\ validRandom highRand
  /\ (1 <= packetProb scenarioSaturated)%Q
  /\ totalPacketsGenerated (stats (simLoop scenarioSaturated highRand 60).2)
     = Z.max 0 (nodeCount scenarioSaturated) * Z.of_nat 60.
Proof.
  assert (Hm : packetGenMode scenarioSaturated = RANDOM) by reflexivity.
  assert (Hr : validRandom highRand)
    by (intros i; split; vm_compute; (discriminate || reflexivity)).
  assert (Hp : (1 <= packetProb scenarioSaturated)%Q)
    by (vm_compute; discriminate).
  split; [exact Hm|]. split; [exact Hr|]. split; [exact Hp|].
  exact (proj2 (random_arrival_extremes scenarioSaturated highRand 60 Hm Hr) Hp).
Defined.

(** *** The timeline records every tick *)

(** X18.  The timeline is the history of the run: for a node [n] at the
    start of tick [k], cell [k] of its row, in every later state of the
    run, is the cell of that tick: the label of [n], replaced by
    [COLLISION] if [n] transmits while another node does; or, for a node
    backing off, [BACKOFF] with its counter if the channel is free for it
    after the NAV update, and its own label with its counter otherwise. *)
Theorem timeline_cell_records_tick cfg rand k d i n :
  (simLoop cfg rand k).1 !! i = Some n ->
  exists row,
    timeline (simLoop cfg rand (S k + d)).2 !! id n = Some row
    /\ row !! k
       = Some (tickCell (physicalBusy (simLoop cfg rand k).1)
                 (collisionOccurring (simLoop cfg rand k).1)
                 (navSpecNode cfg
                    (isPreambleActive (simLoop cfg rand k).1)
                    (isFcActive (simLoop cfg rand k).1)
                    (collisionOccurring (simLoop cfg rand k).1) n)).
Proof.
  intros Hn.
  destruct (simLoop_row_step cfg rand k i n Hn) as (row & _ & Hlen & Hnext).
  destruct (simLoop_history cfg rand (S k) d) as [_ Hh].
  destruct (Hh _ _ Hnext) as (row' & Hrow' & [tl ->]).
  exists (row ++ [tickCell (physicalBusy (simLoop cfg rand k).1)
                (collisionOccurring (simLoop cfg rand k).1)
                (navSpecNode cfg
                   (isPreambleActive (simLoop cfg rand k).1)
                   (isFcActive (simLoop cfg rand k).1)
                   (collisionOccurring (simLoop cfg rand k).1) n)] ++ tl).
  split; [by rewrite app_assoc|].
  rewrite lookup_app_r by lia. by rewrite Hlen, Nat.sub_diag.
Qed.

(** X18 (witness): node 1 of the pause scenario is shown paused with
    counter [1] at tick 2, in the timeline after forty ticks. *)
Lemma timeline_cell_records_tick_witness :
  let n := {| id := 1; state := BACKOFF; packetQueue := [0]; vcs := 0;
              nb := 0; be := 1; backoffCounter := 1; txProgress := 0;
              isCurrentTxDoomed := false |} in
  (simLoop scenarioPause pauseRand 2).1 !! 1%nat = Some n
  /\ exists row,
       timeline (simLoop scenarioPause pauseRand 40).2 !! 1 = Some row
       /\ row !! 2%nat
          = Some {| cellState := BACKOFF; info := Some 1; isCollision := false |}.
Proof.
  intros n.
  assert (H1 : (simLoop scenarioPause pauseRand 2).1 !! 1%nat = Some n)
    by (vm_compute; reflexivity).
  split; [exact H1|].
  destruct (timeline_cell_records_tick scenarioPause pauseRand 2 37 1 n H1)
    as (row & Hrow & Hcell).
  exists row. split; [exact Hrow|].
  rewrite Hcell. vm_compute. reflexivity.
Defined.

Lemma tickCell_wf busy col n : state n <> COLLISION -> cellWf (tickCell busy col n).
Proof.
  intros Hs. unfold cellWf, tickCell, isBackoffLabel.
  destruct (state n) eqn:Es; simpl; try done;
    repeat (case_match; simpl); split; split; intros HH;
    try done; try (by destruct HH); try (intros [?|?]; done);
    try (exfalso; apply HH; auto; done).
Qed.

Lemma simLoop_cellWf cfg rand k j row :
  timeline (simLoop cfg rand k).2 !! j = Some row -> Forall cellWf row.
Proof.
  revert j row. induction k as [|k IH]; intros j row Hrow.
  - cbn [simLoop] in Hrow. cbn [fst snd] in Hrow.
    rewrite initWorld_lookup in Hrow. case_bool_decide; [|done].
    injection Hrow as <-. constructor.
  - destruct (decide (j ∈ nodeIds cfg)) as [Hin|Hout].
    + rewrite <- (simLoop_ids cfg rand k) in Hin.
      apply list_elem_of_fmap in Hin as (n & -> & Hn).
      apply list_elem_of_lookup_1 in Hn as [i Hi].
      destruct (simLoop_row_step cfg rand k i n Hi) as (row0 & Hrow0 & _ & Hnext).
      rewrite Hrow in Hnext. injection Hnext as ->.
      apply Forall_app. split; [by eapply IH|].
      constructor; [|constructor]. apply tickCell_wf.
      destruct (navSpecNode_id cfg (isPreambleActive (simLoop cfg rand k).1)
                  (isFcActive (simLoop cfg rand k).1)
                  (collisionOccurring (simLoop cfg rand k).1) n) as [_ ->].
      pose proof (simLoop_frameOk cfg rand k) as Hf.
      rewrite Forall_lookup in Hf. specialize (Hf i n Hi).
      unfold frameOk in Hf. intros E. by rewrite E in Hf.
    + apply (IH j). rewrite <- Hrow. cbn [simLoop].
      pose proof (simLoop_ids cfg rand k) as Hids.
      destruct (simLoop cfg rand k) as [ns w]. cbn [fst snd] in *.
      destruct (tickStep_timeline cfg rand (Z.of_nat k) ns w) as (_ & _ & Ho).
      { rewrite Hids. apply nodeIds_NoDup. }
      symmetry. apply Ho. by rewrite Hids.
Qed.

Lemma viewer_of_cellWf c :
  cellWf c ->
  (isRendered c = false <-> cellState c = IDLE)
  /\ (getColor c = "bg-red-500" <-> isCollision c = true)
  /\ ((exists v, getLabel c = LabelNumber v) <-> isBackoffLabel (cellState c))
  /\ (getTextColor c = "text-slate-800" <-> isBackoffLabel (cellState c))
  /\ (isCollision c = true -> getLabel c = LabelText "!").
Proof.
  unfold cellWf, isRendered, getColor, getLabel, getTextColor, isBackoffLabel.
  destruct c as [s inf col]. simpl. intros [Hc Hi].
  assert (Hb : forall s0, s0 = BACKOFF \/ s0 = BACKOFF_PAUSED -> s0 <> COLLISION)
    by (intros s0 [-> | ->]; done).
  destruct s, col, inf as [v|]; simpl;
    repeat match goal with
      | |- _ /\ _ => split
      | |- _ <-> _ => split
      | |- (exists _, _) -> _ => intros [? ?]
      | |- _ -> _ => intros ?
      end;
    try discriminate; try reflexivity; eauto;
    try (exfalso; intuition (try discriminate; try congruence); fail).
Qed.

(** X19.  What the viewer makes of the cells of a run: the row renderer
    returns [null] for a cell exactly when its label is [IDLE]; a cell is
    red exactly when it is flagged as a collision, and then labelled with
    an exclamation mark; it is labelled with a number, in dark text,
    exactly when it is a back-off cell. *)
Theorem viewer_shows_run cfg rand j row c :
  res_timeline (runSimulation cfg rand) !! j = Some row -> c ∈ row ->
  (isRendered c = false <-> cellState c = IDLE)
  /\ (getColor c = "bg-red-500" <-> isCollision c = true)
  /\ ((exists v, getLabel c = LabelNumber v) <-> isBackoffLabel (cellState c))
  /\ (getTextColor c = "text-slate-800" <-> isBackoffLabel (cellState c))
  /\ (isCollision c = true -> getLabel c = LabelText "!").
Proof.
  rewrite runSimulation_unfold. cbn [res_timeline]. intros Hrow Hc.
  apply viewer_of_cellWf.
  pose proof (simLoop_cellWf cfg rand _ j row Hrow) as H.
  rewrite Forall_forall in H. by apply H.
Qed.

(** X19 (witness): the third cell of node 0 in scenario 3 is a collision
    cell, drawn in red. *)
Lemma viewer_shows_run_witness :
  exists row,
    res_timeline (runSimulation scenario3 zeroRand) !! 0 = Some row
    /\ {| cellState := COLLISION; info := None; isCollision := true |} ∈ row
    /\ getColor {| cellState := COLLISION; info := None; isCollision := true |}
       = "bg-red-500".
Proof.
  destruct (res_timeline (runSimulation scenario3 zeroRand) !! 0)
    as [row|] eqn:E; [|vm_compute in E; discriminate].
  assert (Hin : {| cellState := COLLISION; info := None; isCollision := true |}
                ∈ row).
  { apply (list_elem_of_lookup_2 row 2%nat).
    vm_compute in E. injection E as <-. reflexivity. }
  exists row. split; [reflexivity|]. split; [exact Hin|].
  destruct (viewer_shows_run scenario3 zeroRand 0 row _ E Hin) as (_ & Hc & _).
  apply Hc. reflexivity.
Defined.

(** *** Queues, latency and the bars of the statistics panel *)

Lemma transition_queue cfg rand t busy n w cell :
  packetQueue (transition cfg rand t busy n w cell).1.1 = packetQueue n
  \/ packetQueue (transition cfg rand t busy n w cell).1.1
     = tail (packetQueue n).
Proof.
  unfold_transition.
  destruct (packetQueue n) as [|b q] eqn:Eq;
    destruct (state n); simpl; rewrite ?Eq;
    repeat (case_match; simpl; rewrite ?Eq); simplify_eq; simpl; auto.
Qed.

Lemma fsmNode_queue cfg rand t busy col n w :
  exists q,
    (q = packetQueue n \/ q = packetQueue n ++ [t])
    /\ (packetQueue (fsmNode cfg rand t busy col n w).1 = q
        \/ packetQueue (fsmNode cfg rand t busy col n w).1 = tail q).
Proof.
  unfold fsmNode.
  destruct (packetArrival_node cfg rand t n w) as [E|E];
    destruct (packetArrival cfg rand t n w) as [n1 w1]; simpl in E; subst n1.
  - exists (packetQueue n). split; [by left|].
    pose proof (transition_queue cfg rand t busy n w1 (state n, None)) as H.
    by destruct (transition cfg rand t busy n w1 (state n, None)) as [[n2 w2] c2].
  - exists (packetQueue n ++ [t]). split; [by right|].
    pose proof (transition_queue cfg rand t busy
                  (setPacketQueue (packetQueue n ++ [t]) n) w1 (state n, None)) as H.
    by destruct (transition cfg rand t busy _ w1 (state n, None)) as [[n2 w2] c2].
Qed.

Lemma queueAt_tail t q :
  StronglySorted Z.lt q /\ Forall (fun b => 0 <= b < t) q ->
  StronglySorted Z.lt (tail q) /\ Forall (fun b => 0 <= b < t) (tail q).
Proof.
  destruct q as [|b q]; [done|]. simpl. intros [Hs Hf].
  inversion Hs; subst. inversion Hf; subst. done.
Qed.

Lemma queueAt_step cfg rand t busy col n w :
  0 <= t -> queueAt t n -> queueAt (t + 1) (fsmNode cfg rand t busy col n w).1.
Proof.
  unfold queueAt. intros Ht [Hs Hf].
  assert (Hf1 : Forall (fun b => 0 <= b < t + 1) (packetQueue n))
    by (eapply Forall_impl; [exact Hf|]; simpl; intros; lia).
  assert (Hq : StronglySorted Z.lt (packetQueue n ++ [t])
               /\ Forall (fun b => 0 <= b < t + 1) (packetQueue n ++ [t])).
  { split.
    - apply StronglySorted_app_2; [|done|repeat constructor].
      intros x1 x2 H1 H2. apply list_elem_of_singleton in H2 as ->.
      rewrite Forall_forall in Hf. specialize (Hf x1 H1). lia.
    - apply Forall_app. split; [done|]. constructor; [lia|done]. }
  destruct (fsmNode_queue cfg rand t busy col n w) as (q & [-> | ->] & [-> | ->]);
    first [done | by apply queueAt_tail].
Qed.

Lemma simLoop_queueAt cfg rand k :
  Forall (queueAt (Z.of_nat k)) (simLoop cfg rand k).1.
Proof.
  induction k as [|k IH].
  - apply initNodes_Forall. intros i. unfold queueAt. simpl.
    split; constructor.
  - apply Forall_lookup. intros i n' Hn'.
    destruct (lookup_lt_is_Some_2 (simLoop cfg rand k).1 i) as [n Hn].
    { apply lookup_lt_Some in Hn'.
      rewrite simLoop_length in Hn'. by rewrite simLoop_length. }
    destruct (simLoop_node_step cfg rand k i n Hn) as [wi Hwi].
    rewrite Hn' in Hwi. injection Hwi as ->.
    replace (Z.of_nat (S k)) with (Z.of_nat k + 1) by lia.
    apply queueAt_step; [lia|].
    rewrite Forall_lookup in IH. specialize (IH i n Hn).
    unfold queueAt in *.
    destruct (preFsm_fields cfg (simLoop cfg rand k).1 n) as (_ & _ & _ & -> & _).
    done.
Qed.

Lemma transition_past cfg rand t busy n w cell :
  Forall (fun b => b <= t) (packetQueue n) -> countersOk (stats w) ->
  countersOk (stats (transition cfg rand t busy n w cell).1.2).
Proof.
  unfold countersOk. intros Hq Hc. unfold_transition.
  destruct (packetQueue n) as [|b q] eqn:Eq;
    destruct (state n); simpl; rewrite ?Eq;
    repeat (case_match; simpl; rewrite ?Eq); simplify_eq; simpl;
    try (inversion Hq; subst); lia.
Qed.

Lemma fsmNode_past cfg rand t busy col pre n post w :
  pastQueues t (pre ++ n :: post) w ->
  pastQueues t (pre ++ (fsmNode cfg rand t busy col n w).1 :: post)
    (fsmNode cfg rand t busy col n w).2.
Proof.
  unfold pastQueues. intros [Hq Hc].
  apply Forall_app in Hq as [Hpre Hq]. apply Forall_cons in Hq as [Hn Hpost].
  assert (Hq1 : Forall (fun b => b <= t) (packetQueue n ++ [t]))
    by (apply Forall_app; split; [done|]; constructor; [lia|done]).
  split.
  - apply Forall_app. split; [done|]. constructor; [|done].
    destruct (fsmNode_queue cfg rand t busy col n w)
      as (q & [-> | ->] & [-> | ->]); try done.
    + destruct (packetQueue n); [done|]. simpl. by inversion Hn.
    + destruct (packetQueue n ++ [t]); [done|]. simpl. by inversion Hq1.
  - unfold fsmNode.
    assert (Ha : Forall (fun b => b <= t)
                   (packetQueue (packetArrival cfg rand t n w).1)
                 /\ countersOk (stats (packetArrival cfg rand t n w).2)).
    { split.
      - by destruct (packetArrival_node cfg rand t n w) as [-> | ->].
      - unfold packetArrival, mathRandom, countersOk in *.
        destruct (packetGenMode cfg); simpl; case_match; simpl; done. }
    destruct (packetArrival cfg rand t n w) as [n1 w1]. simpl in Ha.
    destruct Ha as [Ha1 Ha2].
    pose proof (transition_past cfg rand t busy n1 w1 (state n, None) Ha1 Ha2) as H.
    by destruct (transition cfg rand t busy n1 w1 (state n, None)) as [[n2 w2] c2].
Qed.

Lemma simLoop_countersOk cfg rand k : countersOk (stats (simLoop cfg rand k).2).
Proof.
  induction k as [|k IH].
  - unfold countersOk. simpl. lia.
  - cbn [simLoop].
    apply (tickStep_joint_at cfg rand (Z.of_nat k) (pastQueues (Z.of_nat k))).
    + intros ns ms w [Hq Hc]. split; [done|].
      unfold countersOk, channelStats in *. repeat case_match; simpl; lia.
    + intros pre n post w [Hq Hc]. unfold markDoomed.
      destruct (isCurrentTxDoomed n); [done|]. split.
      * apply Forall_app in Hq as [Hpre Hq].
        apply Forall_cons in Hq as [Hn Hpost].
        apply Forall_app. split; [done|]. by constructor.
      * unfold countersOk in *. simpl. lia.
    + intros pa fa col pvs idx pre n post w [Hq Hc].
      destruct (navNode_world cfg (Z.of_nat k) pa fa col pvs idx n w) as (Es & _).
      destruct (navNode_node cfg (Z.of_nat k) pa fa col pvs idx n w) as [v ->].
      split; [|by rewrite Es].
      apply Forall_app in Hq as [Hpre Hq].
      apply Forall_cons in Hq as [Hn Hpost].
      apply Forall_app. split; [done|]. by constructor.
    + intros busy col pre n post w. apply fsmNode_past.
    + split; [|done]. pose proof (simLoop_queueAt cfg rand k) as Hq.
      eapply Forall_impl; [exact Hq|]. intros n [_ Hn]. simpl.
      eapply Forall_impl; [exact Hn|]. simpl. intros; lia.
Qed.

(** X20.  Queues are first-in first-out histories: at the start of tick
    [k] the queue of every node holds birth ticks of earlier ticks in
    strictly increasing order, so the head is the oldest packet; and
    [totalLatency] is never negative, after any number of ticks and in
    the returned statistics. *)
Theorem queue_holds_past_ticks_in_order cfg rand k :
  Forall (fun n => StronglySorted Z.lt (packetQueue n)
                   /\ Forall (fun b => 0 <= b < Z.of_nat k) (packetQueue n))
         (simLoop cfg rand k).1
  /\ 0 <= totalLatency (stats (simLoop cfg rand k).2)
  /\ 0 <= totalLatency (res_stats (runSimulation cfg rand)).
Proof.
  split; [apply simLoop_queueAt|].
  rewrite runSimulation_unfold. cbn [res_stats].
  split; apply simLoop_countersOk.
Qed.

Lemma queued_nonneg ns : 0 <= queued ns.
Proof.
  unfold queued. induction ns as [|n l IH]; cbn [foldr]; lia.
Qed.

Lemma barTotal_four a b c d :
  barTotal [a; b; c; d] = value a + value b + value c + value d.
Proof. unfold barTotal. simpl. lia. Qed.

(** X21.  The two stacked bars of the statistics panel, for the result of
    a run with [simDuration >= 0]: the channel bar totals [simDuration],
    the packet bar totals the successes plus the failures, which is at
    most the number of generated packets; every segment is between zero
    and the total of its bar; and a bar shows "No Data" exactly when the
    run has no tick, respectively no finished packet. *)
Theorem stats_panel_bars cfg rand :
  0 <= simDuration cfg ->
  let s := res_stats (runSimulation cfg rand) in
  barTotal (channelUtil s) = simDuration cfg
  /\ barTotal (packetOutcomes s) = successCount s + failureCount s
  /\ barTotal (packetOutcomes s) <= totalPacketsGenerated s
  /\ Forall (fun i => 0 <= value i <= barTotal (channelUtil s)) (channelUtil s)
  /\ Forall (fun i => 0 <= value i <= barTotal (packetOutcomes s))
            (packetOutcomes s)
  /\ (barShowsNoData (channelUtil s) = true <-> simDuration cfg = 0)
  /\ (barShowsNoData (packetOutcomes s) = true
      <-> successCount s = 0 /\ failureCount s = 0).
Proof.
  intros Hd s. subst s. rewrite runSimulation_unfold. cbn [res_stats].
  set (k := Z.to_nat (simDuration cfg)).
  pose proof (simLoop_bins cfg rand k) as Hb. unfold bins in Hb.
  pose proof (simLoop_buckets cfg rand k) as Hs. unfold successBuckets in Hs.
  destruct (simLoop_conserved cfg rand k) as [_ Hp]. unfold pending in Hp.
  pose proof (queued_nonneg (simLoop cfg rand k).1) as Hq.
  pose proof (simLoop_countersOk cfg rand k)
    as (H1 & H2 & H3 & H4 & H5 & H6 & H7 & H8 & H9 & H10).
  unfold barShowsNoData. rewrite Z.eqb_eq, Z.eqb_eq.
  unfold channelUtil, packetOutcomes. rewrite !barTotal_four. cbn [value].
  split_and!; try lia.
  - repeat constructor; cbn [value]; lia.
  - repeat constructor; cbn [value]; lia.
Qed.

(** X21 (witness): scenario 3, where both packets are dropped. *)
Lemma stats_panel_bars_witness :
  0 <= simDuration scenario3
  /\ barTotal (channelUtil (res_stats (runSimulation scenario3 zeroRand)))
     = simDuration scenario3.
Proof.
  assert (H : 0 <= simDuration scenario3) by (vm_compute; discriminate).
  split; [exact H|].
  exact (proj1 (stats_panel_bars scenario3 zeroRand H)).
Defined.
